(** * RESToverRDP: the file-mediated request/response broker

    A shallow embedding of the two roles of the repository:

    - the worker, [rdp-rest-proxy/proxy.js] (module [Worker]);
    - the submitter and completion waiter, in its two iterations:
      [local-rest-proxy/proxy.js] (module [LocalOld], no completion marker,
      truncating lock) and the marker-aware iteration kept in
      [unnamed/part_000] (module [Local], exclusive lock, [.done] check);
    - the earliest iteration of both roles, kept in the same file as
      [LocalOld], which shares the two files [requests.json] and
      [responses.json] (module [Single]).

    The shared folder is a map from names to nodes per directory; every
    [await]ed [fs] call is one atomic operation on it.  JavaScript exceptions
    are the [Throw] results of a small state-and-exception monad.

    The surroundings of the code are functions the development is
    parametric in: the target service maps the request and the number of the
    attempt to the outcome of the [axios] call; the other role acts on the
    shared folder while a handler sleeps; Express sends the reply that a
    handler makes of a Response Record or throws; the clock advances during
    timer waits and by the time the polling loop's file calls take.  Of
    logging the filter by level is modelled (module [Log]); the lines written
    are left out.

    The monadic code runs a tick of the worker as one step and the tasks of
    a batch one after the other.  Where the order of steps between the roles
    or between the tasks matters, the code is cut at its [await]s: the task
    of the worker in two parts ([Worker.claim_publish], [Worker.claim_settle]),
    the tasks of all batches as a transition system (module [Pool]). *)

From Stdlib Require Import ZArith String Ascii List Lia DecimalString Sorted.
From stdpp Require Import base option gmap strings list.

Local Open Scope string_scope.
Local Open Scope Z_scope.

#[local] Set Warnings "-register-all".

(** ** JSON values and JavaScript coercions *)

(** What [JSON.parse] yields and [JSON.stringify] accepts, as far as the
    program looks into it.  Numbers are the integers; object fields keep
    their insertion order. *)
Inductive json : Type :=
| JNull
| JBool (b : bool)
| JNum (n : Z)
| JStr (s : string)
| JObj (fields : list (string * json)).

(** [!!v]: a value is truthy unless it is [null], [false], [0] or ['']. *)
Definition truthy (v : json) : bool :=
  match v with
  | JNull => false
  | JBool b => b
  | JNum n => negb (n =? 0)
  | JStr s => negb (String.eqb s EmptyString)
  | JObj _ => true
  end.

(** [a || b] where [a] may be [undefined]. *)
Definition js_or (a : option json) (b : json) : json :=
  match a with
  | Some v => if truthy v then v else b
  | None => b
  end.

Fixpoint assoc_get (k : string) (l : list (string * json)) : option json :=
  match l with
  | [] => None
  | (k', v) :: l' => if String.eqb k k' then Some v else assoc_get k l'
  end.

(** Assignment keeps the position of an existing key and appends a new one. *)
Fixpoint assoc_set (k : string) (v : json) (l : list (string * json))
  : list (string * json) :=
  match l with
  | [] => [(k, v)]
  | (k', v') :: l' =>
      if String.eqb k k' then (k, v) :: l' else (k', v') :: assoc_set k v l'
  end.

(** The template literal [`${v}`]. *)
Definition template (v : option json) : string :=
  match v with
  | None => "undefined"
  | Some JNull => "null"
  | Some (JBool true) => "true"
  | Some (JBool false) => "false"
  | Some (JNum n) => NilZero.string_of_int (Z.to_int n)
  | Some (JStr s) => s
  | Some (JObj _) => "[object Object]"
  end.

(** [s.endsWith(suffix)] *)
Fixpoint endsWith (s suffix : string) : bool :=
  if String.eqb s suffix then true
  else match s with
       | EmptyString => false
       | String _ s' => endsWith s' suffix
       end.

Fixpoint drop_chars (n : nat) (s : string) : string :=
  match n, s with
  | O, _ => s
  | S n', String _ s' => drop_chars n' s'
  | S _, EmptyString => EmptyString
  end.

(** [s.replace(pat, rep)] with a string pattern: the first occurrence only. *)
Fixpoint replace (pat rep s : string) : string :=
  if String.prefix pat s then rep +:+ drop_chars (String.length pat) s
  else match s with
       | EmptyString => EmptyString
       | String c s' => String c (replace pat rep s')
       end.

(** ** Errors and results *)

Inductive Error : Type :=
| ENOENT            (* no such file or directory *)
| EEXIST            (* exclusive create of an existing name *)
| EISDIR            (* file operation on a directory *)
| SyntaxError       (* JSON.parse *)
| TypeError         (* property access on null *)
| JsError (message : string).   (* new Error(message), axios transport errors *)

(** [error.message]; the file-system and runtime errors are known by their
    code only. *)
Definition message (e : Error) : string :=
  match e with
  | ENOENT => "ENOENT"
  | EEXIST => "EEXIST"
  | EISDIR => "EISDIR"
  | SyntaxError => "SyntaxError"
  | TypeError => "TypeError"
  | JsError m => m
  end.

Inductive result (A : Type) : Type :=
| Ok (a : A)
| Throw (e : Error).
Arguments Ok {A} a.
Arguments Throw {A} e.

(** ** The shared folder *)

(** What a file holds.  A text written with [JSON.stringify] is kept as the
    value it denotes, and [JSON.parse] gives that value back. *)
Inductive content : Type :=
| Empty                 (* the zero-length text '' *)
| Json (j : json)       (* JSON.stringify(j, null, 2), or the digits of a pid *)
| Truncated.            (* opened for writing, data not yet flushed *)

Inductive node : Type :=
| File (c : content)
| Directory.

Inductive dir : Type := REQUESTS_DIR | RESPONSES_DIR.

#[global] Instance dir_eq_dec : EqDecision dir.
Proof. solve_decision. Defined.

(** [path.join(d, name)] *)
Definition fpath : Type := dir * string.

Record FS : Type := mkFS {
  requests : option (gmap string node);
  responses : option (gmap string node)
}.

Definition fs_dir (d : dir) (s : FS) : option (gmap string node) :=
  match d with
  | REQUESTS_DIR => requests s
  | RESPONSES_DIR => responses s
  end.

Definition fs_set_dir (d : dir) (m : option (gmap string node)) (s : FS) : FS :=
  match d with
  | REQUESTS_DIR => mkFS m (responses s)
  | RESPONSES_DIR => mkFS (requests s) m
  end.

Definition fs_lookup (p : fpath) (s : FS) : option node :=
  match fs_dir p.1 s with
  | Some m => m !! p.2
  | None => None
  end.

Definition JSON_parse (c : content) : result json :=
  match c with
  | Json j => Ok j
  | Empty | Truncated => Throw SyntaxError
  end.

(** [`${filePath}.lock`] and [`${responseFile}.done`] *)
Definition lock_of (p : fpath) : fpath := (p.1, p.2 +:+ ".lock").
Definition done_of (p : fpath) : fpath := (p.1, p.2 +:+ ".done").

(** ** The semaphore of the worker *)

(** [class Semaphore]; a queued [resolve] is known by the task it resumes. *)
Module Semaphore.

Record t : Type := mk {
  maxConcurrent : Z;
  current : Z;
  queue : list nat
}.

Definition new (maxConcurrent : Z) : t := mk maxConcurrent 0 [].

(** [acquire()], called by [task]: [true] when the slot is granted at once,
    [false] when the task is parked on the queue. *)
Definition acquire (task : nat) (s : t) : bool * t :=
  if current s <? maxConcurrent s
  then (true, mk (maxConcurrent s) (current s + 1) (queue s))
  else (false, mk (maxConcurrent s) (current s) (queue s ++ [task])).

(** [release()]: the task it resumes, if any. *)
Definition release (s : t) : option nat * t :=
  match queue s with
  | resolve :: rest => (Some resolve, mk (maxConcurrent s) (current s) rest)
  | [] => (None, mk (maxConcurrent s) (current s - 1) [])
  end.

(** A history of calls on one semaphore, and the number of slots handed
    out (by a granting [acquire] or to a task resumed by [release]) and not
    yet released. *)
Inductive op : Type :=
| Acquire (task : nat)
| Release.

Definition step (o : op) (s : t) : t :=
  match o with
  | Acquire task => (acquire task s).2
  | Release => (release s).2
  end.

Definition handed (o : op) (s : t) : Z :=
  match o with
  | Acquire task => if (acquire task s).1 then 1 else 0
  | Release => (if (release s).1 is Some _ then 1 else 0) - 1
  end.

Fixpoint run (ops : list op) (s : t) (held : Z) : t * Z :=
  match ops with
  | [] => (s, held)
  | o :: ops' => run ops' (step o s) (held + handed o s)
  end.

End Semaphore.

(** ** Process state and the monad of [async] code *)

Inductive Event : Type :=
| EvCall (request : json) (attempt : nat)   (* one axios call *)
| EvSleep (ms : Z).                         (* one setTimeout wait *)

Record State : Type := mkState {
  st_fs : FS;                   (* the shared folder *)
  st_now : Z;                   (* Date.now() *)
  st_trace : list Event;        (* calls and waits so far, oldest first *)
  st_processed : list string;   (* the worker's processedFiles, oldest first *)
  st_sem : Semaphore.t          (* the worker's semaphore of the current batch *)
}.

Definition set_fs (f : FS) (s : State) : State :=
  mkState f (st_now s) (st_trace s) (st_processed s) (st_sem s).
Definition set_processed (l : list string) (s : State) : State :=
  mkState (st_fs s) (st_now s) (st_trace s) l (st_sem s).
Definition set_sem (m : Semaphore.t) (s : State) : State :=
  mkState (st_fs s) (st_now s) (st_trace s) (st_processed s) m.

Definition M (A : Type) : Type := State → result A * State.

#[global] Instance M_ret : MRet M := λ A a s, (Ok a, s).
#[global] Instance M_bind : MBind M := λ A B f m s,
  match m s with
  | (Ok a, s') => f a s'
  | (Throw e, s') => (Throw e, s')
  end.

Definition throw {A} (e : Error) : M A := λ s, (Throw e, s).

(** [try { m } catch (error) { h error }] *)
Definition try_catch {A} (m : M A) (h : Error → M A) : M A := λ s,
  match m s with
  | (Ok a, s') => (Ok a, s')
  | (Throw e, s') => h e s'
  end.

(** [try { m } finally { f }] *)
Definition try_finally {A B} (m : M A) (f : M B) : M A := λ s,
  match m s with
  | (r, s') =>
      match f s' with
      | (Ok _, s'') => (r, s'')
      | (Throw e, s'') => (Throw e, s'')
      end
  end.

(** [p.catch(() => v)] *)
Definition catch_default {A} (m : M A) (v : A) : M A :=
  try_catch m (λ _, mret v).

(** A pure step that may throw, and a pure update of the state. *)
Definition of_result {A} (r : result A) : M A := λ s, (r, s).
Definition modify (f : State → State) : M unit := λ s, (Ok tt, f s).

Definition put_fs (f : FS) : M unit := λ s, (Ok tt, set_fs f s).
Definition Date_now : M Z := λ s, (Ok (st_now s), s).
Definition emit (e : Event) : M unit := λ s,
  (Ok tt, mkState (st_fs s) (st_now s) (st_trace s ++ [e]) (st_processed s) (st_sem s)).

(** ** The [fs.promises] calls the program uses *)

Module fs.

(** [fs.writeFile(p, c)]: flag 'w', create or truncate. *)
Definition writeFile (p : fpath) (c : content) : M unit := λ s,
  match fs_dir p.1 (st_fs s) with
  | None => (Throw ENOENT, s)
  | Some m =>
      match m !! p.2 with
      | Some Directory => (Throw EISDIR, s)
      | _ => put_fs (fs_set_dir p.1 (Some (<[p.2 := File c]> m)) (st_fs s)) s
      end
  end.

(** [fs.writeFile(p, c, { flag: 'wx' })]: fails if the name exists. *)
Definition writeFile_wx (p : fpath) (c : content) : M unit := λ s,
  match fs_dir p.1 (st_fs s) with
  | None => (Throw ENOENT, s)
  | Some m =>
      match m !! p.2 with
      | Some _ => (Throw EEXIST, s)
      | None => put_fs (fs_set_dir p.1 (Some (<[p.2 := File c]> m)) (st_fs s)) s
      end
  end.

Definition readFile (p : fpath) : M content := λ s,
  match fs_lookup p (st_fs s) with
  | None => (Throw ENOENT, s)
  | Some Directory => (Throw EISDIR, s)
  | Some (File c) => (Ok c, s)
  end.

Definition unlink (p : fpath) : M unit := λ s,
  match fs_dir p.1 (st_fs s) with
  | None => (Throw ENOENT, s)
  | Some m =>
      match m !! p.2 with
      | None => (Throw ENOENT, s)
      | Some Directory => (Throw EISDIR, s)
      | Some (File _) => put_fs (fs_set_dir p.1 (Some (delete p.2 m)) (st_fs s)) s
      end
  end.

(** [fs.access(p)] resolves iff the name exists. *)
Definition access (p : fpath) : M unit := λ s,
  match fs_lookup p (st_fs s) with
  | None => (Throw ENOENT, s)
  | Some _ => (Ok tt, s)
  end.

Definition access_dir (d : dir) : M unit := λ s,
  match fs_dir d (st_fs s) with
  | None => (Throw ENOENT, s)
  | Some _ => (Ok tt, s)
  end.

(** [fs.readdir(d)]: the names in the directory, in the store's order. *)
Definition readdir (d : dir) : M (list string) := λ s,
  match fs_dir d (st_fs s) with
  | None => (Throw ENOENT, s)
  | Some m => (Ok (map fst (map_to_list m)), s)
  end.

(** [fs.rm(d, { recursive: true, force: true })] *)
Definition rm (d : dir) : M unit := λ s,
  put_fs (fs_set_dir d None (st_fs s)) s.

(** [fs.mkdir(d, { recursive: true })] *)
Definition mkdir (d : dir) : M unit := λ s,
  match fs_dir d (st_fs s) with
  | None => put_fs (fs_set_dir d (Some ∅) (st_fs s)) s
  | Some _ => (Ok tt, s)
  end.

End fs.

(** Time that passes while a call is awaited: [Date.now()] moves on. *)
Definition elapse (ms : Z) : M unit := λ s,
  (Ok tt, mkState (st_fs s) (st_now s + ms) (st_trace s) (st_processed s) (st_sem s)).

(** [await new Promise(resolve => setTimeout(resolve, ms))] *)
Definition sleep (ms : Z) : M unit := λ s,
  (Ok tt, mkState (st_fs s) (st_now s + ms) (st_trace s ++ [EvSleep ms])
                  (st_processed s) (st_sem s)).

(** ** The worker: [rdp-rest-proxy/proxy.js] *)

(** One resolved or rejected axios call.  With [validateStatus: () => true]
    every HTTP status resolves; only transport failures reject. *)
Inductive AxiosOutcome : Type :=
| Resolved (status : Z) (headers data : json)
| Rejected (message : string).

Module Worker.

Definition POLL_INTERVAL : Z := 50.
Definition BATCH_SIZE : nat := 20.
Definition MAX_CONCURRENT_REQUESTS : Z := 40.
Definition MAX_RETRIES : nat := 3.
Definition MAX_PROCESSED_FILES : nat := 1000.

Definition lockFile (filePath : fpath) : M bool :=
  let lockPath := lock_of filePath in
  try_catch (fs.writeFile lockPath Empty;; mret true) (λ _, mret false).

Definition unlockFile (filePath : fpath) : M bool :=
  let lockPath := lock_of filePath in
  try_catch (fs.unlink lockPath;; mret true) (λ _, mret false).

Definition checkDirs : M bool :=
  try_catch (fs.access_dir REQUESTS_DIR;; fs.access_dir RESPONSES_DIR;; mret true)
            (λ _, mret false).

(** [rm] with [force] (and [.catch]) and [mkdir] with [recursive] do not
    fail on this store, so the [catch] arm, which ends in [process.exit(1)],
    is not reached. *)
Definition initializeDirs : M unit :=
  catch_default (fs.rm REQUESTS_DIR) tt;;
  catch_default (fs.rm RESPONSES_DIR) tt;;
  fs.mkdir REQUESTS_DIR;;
  fs.mkdir RESPONSES_DIR.

(** [v.k] and [v.k = x] in sloppy mode: [null] has no properties, a
    primitive has none of the names used here and ignores assignment. *)
Definition get_prop (v : json) (k : string) : M (option json) :=
  match v with
  | JNull => throw TypeError
  | JObj l => mret (assoc_get k l)
  | _ => mret None
  end.

Definition set_prop (v : json) (k : string) (x : json) : M json :=
  match v with
  | JNull => throw TypeError
  | JObj l => mret (JObj (assoc_set k x l))
  | _ => mret v
  end.

Definition is_pending (status : option json) : bool :=
  match status with
  | Some (JStr s) => String.eqb s "pending"
  | _ => false
  end.

(** The Set [processedFiles], in insertion order. *)
Definition set_has (f : string) (l : list string) : bool := bool_decide (f ∈ l).
Definition set_add (l : list string) (f : string) : list string :=
  if set_has f l then l else l ++ [f].

Definition sem_acquire (task : nat) : M bool := λ s,
  let '(granted, m) := Semaphore.acquire task (st_sem s) in (Ok granted, set_sem m s).
Definition sem_release : M unit := λ s,
  (Ok tt, set_sem (Semaphore.release (st_sem s)).2 s).

(** [newFiles.slice(i, i + BATCH_SIZE)] for [i = 0, BATCH_SIZE, ...]; the
    fuel bounds the number of slices by the number of files. *)
Fixpoint batches_of (fuel : nat) (newFiles : list string) : list (list string) :=
  match fuel, newFiles with
  | _, [] => []
  | O, _ => []
  | S fuel', _ => take BATCH_SIZE newFiles :: batches_of fuel' (drop BATCH_SIZE newFiles)
  end.

Section WithTarget.

(** The target service as axios sees it: the outcome of the call made for a
    request record at a given value of [retries]. *)
Variable axios : json → nat → AxiosOutcome.

(** [while (retries < MAX_RETRIES && !response)], by recursion on
    [remaining = MAX_RETRIES - retries]; yields [response] and [lastError]. *)
Fixpoint retry_loop (requestData : json) (remaining retries : nat)
    (lastError : option Error) : M (option (Z * json * json) * option Error) :=
  match remaining with
  | O => mret (None, lastError)
  | S remaining' =>
      emit (EvCall requestData retries);;
      match axios requestData retries with
      | Resolved status headers data => mret (Some (status, headers, data), lastError)
      | Rejected msg =>
          let retries := S retries in
          (if (retries <? MAX_RETRIES)%nat
           then sleep (1000 * Z.of_nat retries) else mret tt);;
          retry_loop requestData remaining' retries (Some (JsError msg))
      end
  end.

(** The block [// Write response]: the Response Record and then its
    completion marker, under the lock of the response file. *)
Definition write_response (requestData : json) (status : Z) (headers data : json)
  : M unit :=
  id ← get_prop requestData "id";
  let responseFile := (RESPONSES_DIR, template id +:+ ".json") in
  let doneFile := done_of responseFile in
  now ← Date_now;
  let responseData := JObj [("statusCode", JNum status); ("headers", headers);
                            ("body", data); ("timestamp", JNum now)] in
  locked ← lockFile responseFile;
  (if negb locked then throw (JsError "Could not lock response file") else mret tt);;
  try_finally
    (fs.writeFile responseFile (Json responseData);;
     fs.writeFile doneFile Empty)
    (unlockFile responseFile).

(** The inner [try] block of the task, from reading the request to the
    status update. *)
Definition process (requestFile : fpath) : M unit :=
  raw ← fs.readFile requestFile;
  requestData ← of_result (JSON_parse raw);
  status ← get_prop requestData "status";
  if negb (is_pending status) then mret tt else
  r ← retry_loop requestData MAX_RETRIES 0 None;
  match r with
  | (None, lastError) =>
      throw (default (JsError "Max retries exceeded") lastError)
  | (Some (status, headers, data), _) =>
      write_response requestData status headers data;;
      requestData ← set_prop requestData "status" (JStr "completed");
      fs.writeFile requestFile (Json requestData)
  end.

(** The [catch (error)] block of the task. *)
Definition on_error (file : string) (requestFile : fpath) (error : Error) : M unit :=
  let responseFile := (RESPONSES_DIR, replace ".json" EmptyString file +:+ ".json") in
  now ← Date_now;
  let errorResponse :=
    JObj [("statusCode", JNum 500); ("headers", JObj []);
          ("body", JObj [("error", JStr "Internal Server Error");
                         ("message", JStr (message error))]);
          ("timestamp", JNum now)] in
  fs.writeFile responseFile (Json errorResponse);;
  raw ← fs.readFile requestFile;
  requestData ← of_result (JSON_parse raw);
  requestData ← set_prop requestData "status" (JStr "error");
  fs.writeFile requestFile (Json requestData).

(** The outer [try] block of the task: lock the request file, process it,
    unlock it. *)
Definition claim (file : string) : M unit :=
  let requestFile := (REQUESTS_DIR, file) in
  locked ← lockFile requestFile;
  if negb locked then mret tt else
  try_finally
    (try_catch (process requestFile) (on_error file requestFile))
    (unlockFile requestFile).

(** The same body in two parts, for a handler that takes its turn while the
    task is under way.  The first part ends when the block [// Write response]
    is done: the Response Record and its marker are filed and the response
    file is unlocked; it yields the request when it got that far.  The second
    part is what the task does from there on: the status update, with the
    [catch] and [finally] blocks around it. *)
Definition process_publish (requestFile : fpath) : M (option json) :=
  raw ← fs.readFile requestFile;
  requestData ← of_result (JSON_parse raw);
  status ← get_prop requestData "status";
  if negb (is_pending status) then mret None else
  r ← retry_loop requestData MAX_RETRIES 0 None;
  match r with
  | (None, lastError) =>
      throw (default (JsError "Max retries exceeded") lastError)
  | (Some (status, headers, data), _) =>
      write_response requestData status headers data;;
      mret (Some requestData)
  end.

Definition process_settle (requestFile : fpath) (requestData : json) : M unit :=
  requestData ← set_prop requestData "status" (JStr "completed");
  fs.writeFile requestFile (Json requestData).

Definition claim_publish (file : string) : M (option json) :=
  let requestFile := (REQUESTS_DIR, file) in
  locked ← lockFile requestFile;
  if negb locked then mret None else process_publish requestFile.

Definition claim_settle (file : string) (requestData : json) : M unit :=
  let requestFile := (REQUESTS_DIR, file) in
  try_finally
    (try_catch (process_settle requestFile requestData) (on_error file requestFile))
    (unlockFile requestFile).

(** The callback of [batch.map] after [await semaphore.acquire()]. *)
Definition task (file : string) : M unit :=
  try_finally (claim file) sem_release.

(** Every callback runs up to its first suspension, [await semaphore.acquire()],
    when [batch.map] calls it. *)
Fixpoint acquire_all (batch : list string) (task0 : nat) : M unit :=
  match batch with
  | [] => mret tt
  | _ :: rest => sem_acquire task0;; acquire_all rest (S task0)
  end.

(** [Promise.all]: every task runs to its end, in the order of the batch;
    the result is the first rejection, if any. *)
Fixpoint run_tasks (batch : list string) : M unit :=
  match batch with
  | [] => mret tt
  | file :: rest => λ s,
      match task file s with
      | (Ok _, s') => run_tasks rest s'
      | (Throw e, s') => (Throw e, (run_tasks rest s').2)
      end
  end.

Definition run_batch (batch : list string) : M unit :=
  modify (set_sem (Semaphore.new MAX_CONCURRENT_REQUESTS));;
  acquire_all batch 0;;
  run_tasks batch.

Fixpoint run_batches (batches : list (list string)) : M unit :=
  match batches with
  | [] => mret tt
  | batch :: rest => run_batch batch;; run_batches rest
  end.

(** The candidates of a tick. *)
Definition newFiles_of (files processedFiles : list string) : list string :=
  filter (λ f, endsWith f ".json" && negb (endsWith f ".lock")
               && negb (set_has f processedFiles)) files.

(** [processedFiles] after the candidates were added and the oldest
    entries beyond [MAX_PROCESSED_FILES] removed. *)
Definition remember (newFiles processedFiles : list string) : list string :=
  let added := foldl set_add processedFiles newFiles in
  if (MAX_PROCESSED_FILES <? length added)%nat
  then drop (length added - MAX_PROCESSED_FILES) added
  else added.

Definition processRequests : M unit :=
  try_catch
    (files ← fs.readdir REQUESTS_DIR;
     processedFiles ← (λ s, (Ok (st_processed s), s));
     let newFiles := newFiles_of files processedFiles in
     if (length newFiles =? 0)%nat then mret tt else
     modify (set_processed (remember newFiles processedFiles));;
     run_batches (batches_of (length newFiles) newFiles))
    (λ _, mret tt).

(** One firing of the [setInterval] callback with [isProcessing] clear. *)
Definition tick : M unit :=
  dirsExist ← checkDirs;
  if (dirsExist : bool) then processRequests else mret tt.

End WithTarget.

End Worker.

(** ** The submitter and completion waiter *)

(** The part of an Express request the handler reads. *)
Record Request : Type := mkRequest {
  req_method : string;
  originalUrl : string;
  req_headers : json;
  req_body : json
}.

(** What the handler hands to [res.status(..).set(..).send(..)] (or
    [res.status(..).json(..)], with no headers of its own). *)
Record Reply : Type := mkReply {
  res_status : json;
  res_headers : json;
  res_body : json
}.

(** [requestData] as the handler builds it. *)
Definition request_fields (requestId : string) (req : Request) (now : Z)
  : list (string * json) :=
  [("id", JStr requestId); ("method", JStr (req_method req));
   ("path", JStr (originalUrl req)); ("headers", req_headers req);
   ("body", req_body req); ("timestamp", JNum now);
   ("status", JStr "pending")].

Definition requestData_of (requestId : string) (req : Request) (now : Z) : json :=
  JObj (request_fields requestId req now).

(** The head of the handler: build the request object and write the
    Request Record. *)
Definition submit (requestId : string) (req : Request) : M fpath :=
  now ← Date_now;
  let requestData := requestData_of requestId req now in
  let requestFile := (REQUESTS_DIR, requestId +:+ ".json") in
  fs.writeFile requestFile (Json requestData);;
  mret requestFile.

(** [v.k] for a value known to be truthy. *)
Definition prop (v : json) (k : string) : option json :=
  match v with
  | JObj l => assoc_get k l
  | _ => None
  end.

(** [res.status(response.statusCode || 200).set(response.headers || {})
        .send(response.body || {})] *)
Definition send (response : json) : Reply :=
  mkReply (js_or (prop response "statusCode") (JNum 200))
          (js_or (prop response "headers") (JObj []))
          (js_or (prop response "body") (JObj [])).

Definition gateway_timeout (elapsedTime : Z) : Reply :=
  mkReply (JNum 504) (JObj [])
    (JObj [("error", JStr "Gateway Timeout");
           ("message", JStr "Remote client did not respond in time");
           ("elapsedTime", JNum elapsedTime)]).

Definition internal_error (error : Error) : Reply :=
  mkReply (JNum 500) (JObj [])
    (JObj [("error", JStr "Internal Server Error"); ("message", JStr (message error))]).

(** [res.status(500).send({ error: 'Internal Server Error' })] *)
Definition send_failed : Reply :=
  mkReply (JNum 500) (JObj []) (JObj [("error", JStr "Internal Server Error")]).

(** Express is not part of the repository.  What becomes of the chain
    [res.status(..).set(..).send(..)] that a handler runs on the values of a
    Response Record is a function [express] the development is parametric
    in: [None] when the reply is sent, the error when the chain throws.  A
    chain that throws has written nothing, so [res.headersSent] is still
    false.  The replies the handlers make up themselves (their own status,
    no headers, an object as body) are sent. *)
Definition respond (express : Reply → option Error) (reply : Reply) : M unit :=
  match express reply with
  | None => mret tt
  | Some error => throw error
  end.

(** The marker-aware iteration, [unnamed/part_000]. *)
Module Local.

Definition POLL_INTERVAL : Z := 100.
Definition MAX_ATTEMPTS : nat := 300.

(** [process.pid.toString()]; the number plays no part. *)
Definition pid_text : content := Json (JNum 1).

(** In the [catch] arm the name [lockFile] is the function itself (the
    [const] of the [try] block is out of scope), so [path.dirname(lockFile)]
    throws and the retry after ENOENT always ends in [return false]. *)
Definition lockFile (filePath : fpath) : M bool :=
  let lockFile := lock_of filePath in
  try_catch
    (fs.mkdir lockFile.1;;
     fs.writeFile_wx lockFile pid_text;;
     mret true)
    (λ error,
       match error with
       | EEXIST => mret false
       | ENOENT => try_catch (throw TypeError) (λ _, mret false)
       | _ => mret false
       end).

Definition unlockFile (filePath : fpath) : M bool :=
  let lockFile := lock_of filePath in
  try_catch (fs.unlink lockFile;; mret true)
    (λ error,
       match error with
       | ENOENT => mret true
       | _ => mret false
       end).

Definition initializeDirs : M unit :=
  catch_default (fs.rm REQUESTS_DIR) tt;;
  catch_default (fs.rm RESPONSES_DIR) tt;;
  fs.mkdir REQUESTS_DIR;;
  fs.mkdir RESPONSES_DIR.

(** [fs.access(p).then(() => true).catch(() => false)] *)
Definition exists_ (p : fpath) : M bool :=
  catch_default (fs.access p;; mret true) false.

(** The [try] block of one turn of the polling loop: the parsed response
    when [responseFound] gets set. *)
Definition attempt (responseFile : fpath) : M (option json) :=
  try_catch
    (locked ← lockFile responseFile;
     if negb locked then mret None else
     try_finally
       (let doneFile := done_of responseFile in
        doneExists ← exists_ doneFile;
        responseExists ← exists_ responseFile;
        if (doneExists : bool) && responseExists then
          responseData ← fs.readFile responseFile;
          try_catch (response ← of_result (JSON_parse responseData); mret (Some response))
                    (λ _, mret None)
        else mret None)
       (unlockFile responseFile))
    (λ _, mret None).

(** The three [unlink]s of the cleanup, each with [.catch(() => {})]. *)
Definition cleanup (requestFile responseFile : fpath) : M unit :=
  let doneFile := done_of responseFile in
  catch_default (fs.unlink responseFile) tt;;
  catch_default (fs.unlink doneFile) tt;;
  catch_default (fs.unlink requestFile) tt.

Section WithWorld.

(** The surroundings of the handler: what the other role does to the shared
    folder while the handler sleeps for the [attempts]-th time, and the time
    that the store calls of the [attempts]-th turn of the loop take. *)
Variable world : nat → FS → FS.
Variable io_time : nat → Z.
Variable express : Reply → option Error.

Definition pause (attempts : nat) : M unit :=
  sleep POLL_INTERVAL;;
  modify (λ s, set_fs (world attempts (st_fs s)) s).

(** [while (!responseFound && attempts < MAX_ATTEMPTS)], by recursion on
    [remaining = MAX_ATTEMPTS - attempts]. *)
Fixpoint wait_loop (responseFile : fpath) (remaining attempts : nat) : M (option json) :=
  match remaining with
  | O => mret None
  | S remaining' =>
      found ← attempt responseFile;
      elapse (io_time attempts);;
      match found with
      | Some response => mret (Some response)
      | None => pause attempts;; wait_loop responseFile remaining' (S attempts)
      end
  end.

(** [app.all('*', async (req, res) => ...)] with [requestId = uuidv4()].
    When the chain that sends the response throws, the handler answers
    [send_failed] and returns; the files are cleaned up only after the
    response was sent. *)
Definition app_all (requestId : string) (req : Request) : M Reply :=
  try_catch
    (requestFile ← submit requestId req;
     let responseFile := (RESPONSES_DIR, requestId +:+ ".json") in
     startTime ← Date_now;
     found ← wait_loop responseFile MAX_ATTEMPTS 0;
     match found with
     | Some response =>
         if truthy response then
           let reply := send response in
           sent ← try_catch (respond express reply;; mret true) (λ _, mret false);
           if (sent : bool) then
             cleanup requestFile responseFile;;
             mret reply
           else mret send_failed
         else
           now ← Date_now; mret (gateway_timeout (now - startTime))
     | None =>
         now ← Date_now; mret (gateway_timeout (now - startTime))
     end)
    (λ error, mret (internal_error error)).

End WithWorld.

End Local.

(** The earlier iteration, [local-rest-proxy/proxy.js]. *)
Module LocalOld.

Definition POLL_INTERVAL : Z := 100.
Definition MAX_ATTEMPTS : nat := 300.

Definition lockFile (filePath : fpath) : M bool :=
  let lockPath := lock_of filePath in
  try_catch (fs.writeFile lockPath Empty;; mret true) (λ _, mret false).

Definition unlockFile (filePath : fpath) : M bool :=
  let lockPath := lock_of filePath in
  try_catch (fs.unlink lockPath;; mret true) (λ _, mret false).

Definition initializeDirs : M unit :=
  catch_default (fs.rm REQUESTS_DIR) tt;;
  catch_default (fs.rm RESPONSES_DIR) tt;;
  fs.mkdir REQUESTS_DIR;;
  fs.mkdir RESPONSES_DIR.

(** The [try] block of one turn of the polling loop: the value assigned to
    [response], if any.  An [unlink] that throws is caught by the loop's
    [catch], which only logs, after [response] was assigned. *)
Definition attempt (requestFile responseFile : fpath) : M (option json) :=
  try_catch
    (locked ← lockFile responseFile;
     if negb locked then mret None else
     try_finally
       (responseData ← fs.readFile responseFile;
        response ← of_result (JSON_parse responseData);
        catch_default (fs.unlink responseFile;; fs.unlink requestFile) tt;;
        mret (Some response))
       (unlockFile responseFile))
    (λ _, mret None).

Section WithWorld.

Variable world : nat → FS → FS.
Variable io_time : nat → Z.
Variable express : Reply → option Error.

Definition pause (attempts : nat) : M unit :=
  sleep POLL_INTERVAL;;
  modify (λ s, set_fs (world attempts (st_fs s)) s).

(** [while (!response && attempts < MAX_ATTEMPTS)] *)
Fixpoint wait_loop (requestFile responseFile : fpath) (remaining attempts : nat)
  : M (option json) :=
  match remaining with
  | O => mret None
  | S remaining' =>
      found ← attempt requestFile responseFile;
      elapse (io_time attempts);;
      match found with
      | Some response =>
          if truthy response then mret (Some response)
          else pause attempts;; wait_loop requestFile responseFile remaining' (S attempts)
      | None => pause attempts;; wait_loop requestFile responseFile remaining' (S attempts)
      end
  end.

(** The [catch] arm of the handler, which a chain that throws while it
    sends the response reaches too: both records are unlinked, errors
    ignored, before the 500 reply. *)
Definition app_all (requestId : string) (req : Request) : M Reply :=
  let requestFile := (REQUESTS_DIR, requestId +:+ ".json") in
  let responseFile := (RESPONSES_DIR, requestId +:+ ".json") in
  try_catch
    (submit requestId req;;
     startTime ← Date_now;
     found ← wait_loop requestFile responseFile MAX_ATTEMPTS 0;
     match found with
     | Some response =>
         let reply := send response in
         respond express reply;;
         mret reply
     | None => now ← Date_now; mret (gateway_timeout (now - startTime))
     end)
    (λ error,
       catch_default (fs.unlink requestFile) tt;;
       catch_default (fs.unlink responseFile) tt;;
       mret (internal_error error)).

End WithWorld.

End LocalOld.

(** ** Sample data *)

Definition dquote : string := String "034"%char EmptyString.

(** The request and the target's answer of the round-trip scenario. *)
Definition widget_request : Request :=
  mkRequest "GET" "/widgets/42" (JObj []) JNull.
Definition widget_headers : json := JObj [("content-type", JStr "application/json")].
Definition widget_body : json := JStr ("{" +:+ dquote +:+ "id" +:+ dquote +:+ ":42}").

Definition empty_fs : FS := mkFS (Some ∅) (Some ∅).

(** A store holding one pending Request Record, [requests/a.json]. *)
Definition fs_a : FS :=
  mkFS (Some {[ "a.json" := File (Json (requestData_of "a" widget_request 0)) ]}) (Some ∅).

(** The same store with the lock path of [a.json] taken by a directory, so
    that the worker's [lockFile] fails on it. *)
Definition fs_blocked : FS :=
  mkFS (Some (<[ "a.json.lock" := Directory ]>
                {[ "a.json" := File (Json (requestData_of "a" widget_request 0)) ]}))
       (Some ∅).

(** A store in which the worker has written the Response Record of [a] but
    not yet its Completion Marker. *)
Definition fs_unmarked : FS :=
  mkFS (Some {[ "a.json" := File (Json (requestData_of "a" widget_request 0)) ]})
       (Some {[ "a.json" :=
                  File (Json (JObj [("statusCode", JNum 200); ("headers", widget_headers);
                                    ("body", widget_body); ("timestamp", JNum 0)])) ]}).

(** A target that answers every call with the scenario's response, and one
    that is never reachable. *)
Definition widget_axios : json → nat → AxiosOutcome :=
  λ _ _, Resolved 200 widget_headers widget_body.
Definition dead_axios : json → nat → AxiosOutcome :=
  λ _ retries, Rejected ("connect ECONNREFUSED #" +:+ template (Some (JNum (Z.of_nat retries)))).

Definition state_of (f : FS) : State :=
  mkState f 0 [] [] (Semaphore.new Worker.MAX_CONCURRENT_REQUESTS).

(** ** Vocabulary of the statements *)

(** The candidates of the tick that starts in a state. *)
Definition candidates (s : State) : list string :=
  match fs.readdir REQUESTS_DIR s with
  | (Ok files, _) => Worker.newFiles_of files (st_processed s)
  | (Throw _, _) => []
  end.

(** The status a Request Record file holds, if it is one. *)
Definition status_of (n : option node) : option json :=
  match n with
  | Some (File (Json (JObj l))) => assoc_get "status" l
  | _ => None
  end.

(** The shared folder after a name was written or removed. *)
Definition fs_write (p : fpath) (x : node) (f : FS) : FS :=
  match fs_dir p.1 f with
  | Some m => fs_set_dir p.1 (Some (<[p.2 := x]> m)) f
  | None => f
  end.

Definition fs_remove (p : fpath) (f : FS) : FS :=
  match fs_dir p.1 f with
  | Some m => fs_set_dir p.1 (Some (delete p.2 m)) f
  | None => f
  end.

(** The axios calls and the timer waits of a trace. *)
Definition is_call (e : Event) : bool :=
  match e with
  | EvCall _ _ => true
  | EvSleep _ => false
  end.

Definition calls (t : list Event) : nat := length (filter (λ e, is_call e) t).

Definition delays (t : list Event) : list Z :=
  omap (λ e, if e is EvSleep ms then Some ms else None) t.

(** The state after the [catch] arm of a failed call: the backoff wait, if
    another call is due. *)
Definition after_failure (retries : nat) (s : State) : State :=
  if (S retries <? Worker.MAX_RETRIES)%nat
  then (sleep (1000 * Z.of_nat (S retries)) s).2 else s.

(** The Response Record the worker writes for a resolved call. *)
Definition response_record (status : Z) (headers data : json) (now : Z) : json :=
  JObj [("statusCode", JNum status); ("headers", headers);
        ("body", data); ("timestamp", JNum now)].

(** The synthetic failure response of the worker. *)
Definition failure_response (msg : string) (now : Z) : json :=
  JObj [("statusCode", JNum 500); ("headers", JObj []);
        ("body", JObj [("error", JStr "Internal Server Error");
                       ("message", JStr msg)]);
        ("timestamp", JNum now)].

(** How the worker may change what a Request Record file holds: not at all,
    or from a record whose status is [pending] to the same record with status
    [completed] or [error]. *)
Inductive status_step (x y : option node) : Prop :=
| status_same : y = x → status_step x y
| status_final l v :
    x = Some (File (Json (JObj l))) →
    assoc_get "status" l = Some (JStr "pending") →
    v = "completed" ∨ v = "error" →
    y = Some (File (Json (JObj (assoc_set "status" (JStr v) l)))) →
    status_step x y.

(** A file from which the worker gets no record: reading it, parsing it or
    touching its [status] throws. *)
Definition unloadable (x : option node) : Prop :=
  x = None ∨ x = Some Directory ∨ x = Some (File Empty) ∨
  x = Some (File Truncated) ∨ x = Some (File (Json JNull)).

(** A computation moves the status of every request file (any name of the
    requests directory that is not a lock marker) forward. *)
Definition forward {A} (m : M A) : Prop :=
  ∀ s q, q.1 = REQUESTS_DIR → endsWith q.2 ".lock" = false →
    status_step (fs_lookup q (st_fs s)) (fs_lookup q (st_fs (m s).2)).

(** A computation changes the shared folder only, and there only names
    that satisfy [P]. *)
Definition fs_only {A} (m : M A) : Prop :=
  ∀ s, (m s).2 = set_fs (st_fs (m s).2) s.

Definition touches {A} (P : fpath → Prop) (m : M A) : Prop :=
  ∀ s q, ¬ P q → fs_lookup q (st_fs (m s).2) = fs_lookup q (st_fs s).

(** The time the store calls of [count] turns take, from turn [from] on. *)
Fixpoint io_total (io_time : nat → Z) (from count : nat) : Z :=
  match count with
  | O => 0
  | S count' => io_time from + io_total io_time (S from) count'
  end.

(** A computation leaves a component of the process state as it found it,
    whether it returns or throws. *)
Definition keeps {A B} (proj : State → B) (m : M A) : Prop :=
  ∀ s, proj (m s).2 = proj s.

(** Components that belong to the worker's memory, not to the shared folder,
    the clock or the trace. *)
Class InMemory {B} (proj : State → B) : Prop :=
  in_memory : ∀ f n t s, proj (mkState f n t (st_processed s) (st_sem s)) = proj s.

#[global] Instance st_sem_in_memory : InMemory st_sem.
Proof. done. Qed.
#[global] Instance st_processed_in_memory : InMemory st_processed.
Proof. done. Qed.

(** ** Vocabulary of the further properties *)

(** The error with which the worker fails to load a Request Record from a
    file: reading a missing name or a directory, parsing an empty or cut-short
    text, or reaching into [null].  [None] when the file loads. *)
Definition load_error (x : option node) : option Error :=
  match x with
  | None => Some ENOENT
  | Some Directory => Some EISDIR
  | Some (File Empty) | Some (File Truncated) => Some SyntaxError
  | Some (File (Json JNull)) => Some TypeError
  | Some (File (Json _)) => None
  end.

(** An id without a dot, as [uuidv4()] yields them. *)
Fixpoint dot_free (s : string) : bool :=
  match s with
  | EmptyString => true
  | String c s' => negb (Ascii.eqb c ".") && dot_free s'
  end.

(** The names that the tasks of a batch may write or remove. *)
Definition batch_paths (batch : list string) (q : fpath) : Prop :=
  q.1 = RESPONSES_DIR ∨
  ∃ g, g ∈ batch ∧ (q = (REQUESTS_DIR, g) ∨ q = lock_of (REQUESTS_DIR, g)).

(** A lock marker, by its name. *)
Definition is_lock (q : fpath) : Prop := endsWith q.2 ".lock" = true.

(** A computation removes no name of the shared folder but those that
    satisfy [P]. *)
Definition keeps_names {A} (P : fpath → Prop) (m : M A) : Prop :=
  ∀ s q, ¬ P q → is_Some (fs_lookup q (st_fs s)) →
    is_Some (fs_lookup q (st_fs (m s).2)).


(** The tasks that a history of calls parks on the queue of the semaphore,
    and the tasks that its [release]s resume, both in the order of the
    calls. *)
Fixpoint parked (ops : list Semaphore.op) (s : Semaphore.t) : list nat :=
  match ops with
  | [] => []
  | o :: ops' =>
      match o with
      | Semaphore.Acquire task => if (Semaphore.acquire task s).1 then [] else [task]
      | Semaphore.Release => []
      end ++ parked ops' (Semaphore.step o s)
  end.

Fixpoint resumed (ops : list Semaphore.op) (s : Semaphore.t) : list nat :=
  match ops with
  | [] => []
  | o :: ops' =>
      match o with
      | Semaphore.Acquire _ => []
      | Semaphore.Release => option_list (Semaphore.release s).1
      end ++ resumed ops' (Semaphore.step o s)
  end.

(** ** The guard of the polling timer *)

(** [startPolling] of the worker: the flag [isProcessing], and the number of
    callbacks of [setInterval] that are past the guard and have not reached
    their [finally]. *)
Module Polling.

Record t : Type := mk {
  isProcessing : bool;
  inFlight : nat
}.

Definition start : t := mk false 0.

Inductive event : Type :=
| Fires      (* the timer calls the callback, which runs up to its first await *)
| Settles.   (* a callback in flight reaches its [finally] *)

Definition step (e : event) (p : t) : t :=
  match e with
  | Fires => if isProcessing p then p else mk true (S (inFlight p))
  | Settles =>
      match inFlight p with
      | O => p
      | S n => mk false n
      end
  end.

Definition run (events : list event) (p : t) : t := foldl (λ p e, step e p) p events.

End Polling.

(** ** The log filter *)

(** [log(level, message, data)], the same in the three programs. *)
Module Log.

Definition LOG_LEVELS (level : string) : option Z :=
  if String.eqb level "DEBUG" then Some 0
  else if String.eqb level "INFO" then Some 1
  else if String.eqb level "WARN" then Some 2
  else if String.eqb level "ERROR" then Some 3
  else None.

(** [process.env.LOG_LEVEL || 'INFO'] *)
Definition LOG_LEVEL (env : option string) : string :=
  match env with
  | Some v => if String.eqb v EmptyString then "INFO" else v
  | None => "INFO"
  end.

Definition LOG_LEVEL_NUM (env : option string) : option Z := LOG_LEVELS (LOG_LEVEL env).

(** [a >= b] where either side may be [undefined]: then it is [false]. *)
Definition ge (a b : option Z) : bool :=
  match a, b with
  | Some x, Some y => y <=? x
  | _, _ => false
  end.

(** What [console.log] is called with. *)
Inductive line : Type :=
| Message (text : string)
| Data (data : json).

Definition log (env : option string) (timestamp level message : string)
    (data : list (string * json)) : list line :=
  if ge (LOG_LEVELS level) (LOG_LEVEL_NUM env)
  then Message ("[" +:+ timestamp +:+ "] [" +:+ level +:+ "] " +:+ message)
       :: (if (0 <? length data)%nat then [Data (JObj data)] else [])
  else [].

End Log.

(** ** Further sample data *)

(** A store whose only Request Record the worker has already completed. *)
Definition fs_completed : FS :=
  mkFS (Some {[ "a.json" :=
                  File (Json (JObj (assoc_set "status" (JStr "completed")
                                      (request_fields "a" widget_request 0)))) ]})
       (Some ∅).

(** A store whose request file is listed while its text is not yet there. *)
Definition fs_cut : FS := mkFS (Some {[ "a.json" := File Truncated ]}) (Some ∅).

(** Twenty-one request files, none of them flushed yet. *)
Definition backlog_names : list string :=
  ["r00.json"; "r01.json"; "r02.json"; "r03.json"; "r04.json"; "r05.json";
   "r06.json"; "r07.json"; "r08.json"; "r09.json"; "r10.json"; "r11.json";
   "r12.json"; "r13.json"; "r14.json"; "r15.json"; "r16.json"; "r17.json";
   "r18.json"; "r19.json"; "r20.json"].

Definition fs_backlog : FS :=
  mkFS (Some (list_to_map (map (λ n, (n, File Truncated)) backlog_names))) (Some ∅).

(** A store in which the Response Record of [a] and its Completion Marker
    are complete, and a lock marker was left on the response file. *)
Definition fs_stale : FS :=
  mkFS (Some ∅)
       (Some (<[ "a.json.lock" := File Empty ]>
                (<[ "a.json.done" := File Empty ]>
                   {[ "a.json" :=
                        File (Json (response_record 200 widget_headers widget_body 0)) ]}))).

(** A request with a body, and a target that answers it with no content. *)
Definition note_request : Request :=
  mkRequest "POST" "/notes" (JObj [("content-type", JStr "text/plain")]) (JStr "hello").
Definition silent_axios : json → nat → AxiosOutcome :=
  λ _ _, Resolved 204 (JObj []) (JStr EmptyString).

(** A target whose body is a bare number, and an Express that throws when it
    is to send a number as the body. *)
Definition numeric_axios : json → nat → AxiosOutcome :=
  λ _ _, Resolved 200 (JObj []) (JNum 42).
Definition picky_express : Reply → option Error :=
  λ reply, if res_body reply is JNum _ then Some (JsError "Invalid status code") else None.

(** ** The single-file iteration *)

(** The two further programs kept in [local-rest-proxy/proxy.js]: a handler
    and a worker that exchange all requests through one file,
    [requests.json], and all responses through another, [responses.json],
    each holding one object keyed by the request ids.  The ids are UUIDs, so
    the fields of these objects are enumerated in the order of their
    insertion. *)
Module Single.

Inductive file : Type := REQUESTS_FILE | RESPONSES_FILE.

(** The shared folder: what each of the two files holds, if it exists. *)
Record Folder : Type := mkFolder {
  requests_json : option content;
  responses_json : option content
}.

Definition get_file (f : file) (d : Folder) : option content :=
  match f with
  | REQUESTS_FILE => requests_json d
  | RESPONSES_FILE => responses_json d
  end.

Definition set_file (f : file) (c : content) (d : Folder) : Folder :=
  match f with
  | REQUESTS_FILE => mkFolder (Some c) (responses_json d)
  | RESPONSES_FILE => mkFolder (requests_json d) (Some c)
  end.

Record State : Type := mkState {
  st_folder : option Folder;          (* [None]: the shared folder is not accessible *)
  st_now : Z;                         (* Date.now() *)
  st_trace : list Event;              (* calls and waits so far, oldest first *)
  filesInitialized : bool;            (* the worker's flags of [checkFiles] *)
  initializationAttempted : bool
}.

Definition set_folder (d : option Folder) (s : State) : State :=
  mkState d (st_now s) (st_trace s) (filesInitialized s) (initializationAttempted s).
Definition set_flags (initialized attempted : bool) (s : State) : State :=
  mkState (st_folder s) (st_now s) (st_trace s) initialized attempted.

Definition M (A : Type) : Type := State → result A * State.

#[global] Instance M_ret : MRet M := λ A a s, (Ok a, s).
#[global] Instance M_bind : MBind M := λ A B f m s,
  match m s with
  | (Ok a, s') => f a s'
  | (Throw e, s') => (Throw e, s')
  end.

Definition throw {A} (e : Error) : M A := λ s, (Throw e, s).
Definition of_result {A} (r : result A) : M A := λ s, (r, s).
Definition modify (f : State → State) : M unit := λ s, (Ok tt, f s).
Definition get {A} (proj : State → A) : M A := λ s, (Ok (proj s), s).

(** [try { m } catch (error) { h error }] *)
Definition try_catch {A} (m : M A) (h : Error → M A) : M A := λ s,
  match m s with
  | (Ok a, s') => (Ok a, s')
  | (Throw e, s') => h e s'
  end.

Definition emit (e : Event) : M unit :=
  modify (λ s, mkState (st_folder s) (st_now s) (st_trace s ++ [e])
                 (filesInitialized s) (initializationAttempted s)).

(** [await new Promise(resolve => setTimeout(resolve, ms))] *)
Definition sleep (ms : Z) : M unit :=
  modify (λ s, mkState (st_folder s) (st_now s + ms) (st_trace s ++ [EvSleep ms])
                 (filesInitialized s) (initializationAttempted s)).

(** [fs.access(SHARED_FOLDER_PATH)], and the calls on the two files. *)
Definition access_folder : M unit := λ s,
  match st_folder s with
  | Some _ => (Ok tt, s)
  | None => (Throw ENOENT, s)
  end.

Definition access (f : file) : M unit := λ s,
  match st_folder s with
  | Some d => if get_file f d is Some _ then (Ok tt, s) else (Throw ENOENT, s)
  | None => (Throw ENOENT, s)
  end.

Definition readFile (f : file) : M content := λ s,
  match st_folder s with
  | Some d => if get_file f d is Some c then (Ok c, s) else (Throw ENOENT, s)
  | None => (Throw ENOENT, s)
  end.

Definition writeFile (f : file) (c : content) : M unit := λ s,
  match st_folder s with
  | Some d => (Ok tt, set_folder (Some (set_file f c d)) s)
  | None => (Throw ENOENT, s)
  end.

(** [!data.trim()]: the text is empty or white space. *)
Definition blank (c : content) : bool :=
  match c with
  | Empty => true
  | Json _ | Truncated => false
  end.

(** [v[k]], [v[k] = x] and [delete v[k]] for a request id [k], in sloppy
    mode: [null] has no properties; a primitive has no property of such a
    name, ignores the assignment and the deletion. *)
Definition js_get (v : json) (k : string) : result (option json) :=
  match v with
  | JNull => Throw TypeError
  | JObj l => Ok (assoc_get k l)
  | _ => Ok None
  end.

Definition js_set (v : json) (k : string) (x : json) : result json :=
  match v with
  | JNull => Throw TypeError
  | JObj l => Ok (JObj (assoc_set k x l))
  | _ => Ok v
  end.

Fixpoint assoc_delete (k : string) (l : list (string * json)) : list (string * json) :=
  match l with
  | [] => []
  | (k', v) :: l' => if String.eqb k k' then l' else (k', v) :: assoc_delete k l'
  end.

Definition js_delete (v : json) (k : string) : result json :=
  match v with
  | JNull => Throw TypeError
  | JObj l => Ok (JObj (assoc_delete k l))
  | _ => Ok v
  end.

(** The characters of a string, each with its index as a key. *)
Fixpoint string_entries (i : nat) (s : string) : list (string * json) :=
  match s with
  | EmptyString => []
  | String c s' =>
      (template (Some (JNum (Z.of_nat i))), JStr (String c EmptyString))
      :: string_entries (S i) s'
  end.

(** [Object.entries(v)] *)
Definition Object_entries (v : json) : result (list (string * json)) :=
  match v with
  | JNull => Throw TypeError
  | JObj l => Ok l
  | JStr s => Ok (string_entries 0 s)
  | JBool _ | JNum _ => Ok []
  end.

(** [Object.keys(req).length > 0] *)
Definition has_keys (req : json) : result bool :=
  match Object_entries req with
  | Ok l => Ok (0 <? length l)%nat
  | Throw e => Throw e
  end.

(** [entries.filter(([_, req]) => Object.keys(req).length > 0)]: the
    callback throws on an entry that is [null]. *)
Fixpoint filter_pending (entries : list (string * json))
  : result (list (string * json)) :=
  match entries with
  | [] => Ok []
  | (requestId, req) :: rest =>
      match has_keys req with
      | Throw e => Throw e
      | Ok keep =>
          match filter_pending rest with
          | Throw e => Throw e
          | Ok rest' => Ok (if keep then (requestId, req) :: rest' else rest')
          end
      end
  end.

(** The text of a file as an object: [{}] for a blank text. *)
Definition parse_or_empty (data : content) : M json :=
  if blank data then mret (JObj []) else of_result (JSON_parse data).

(** *** The handler: [app.all('/api/*', ...)] *)

Definition MAX_ATTEMPTS : nat := 60.
Definition POLL_INTERVAL : Z := 500.

(** [initializeFiles]: a file that exists is left as it is.  The outer
    [catch] ends the process. *)
Definition ensure (f : file) : M unit :=
  try_catch (access f) (λ _, writeFile f (Json (JObj []))).

Definition initializeFiles : M unit :=
  ensure REQUESTS_FILE;; ensure RESPONSES_FILE.

Definition requestData_of (requestId : string) (req : Request) (now : Z) : json :=
  JObj [("id", JStr requestId); ("method", JStr (req_method req));
        ("path", JStr (replace "/api" EmptyString (originalUrl req)));
        ("headers", req_headers req); ("body", req_body req);
        ("timestamp", JNum now)].

(** The head of the handler: the request is added to the object of
    [requests.json]; a file that cannot be read or parsed counts as [{}]. *)
Definition submit (requestId : string) (req : Request) : M unit :=
  now ← get st_now;
  let requestData := requestData_of requestId req now in
  requests ← try_catch (data ← readFile REQUESTS_FILE; parse_or_empty data)
                       (λ _, mret (JObj []));
  requests ← of_result (js_set requests requestId requestData);
  writeFile REQUESTS_FILE (Json requests).

(** What follows [response = responses[requestId]] in a turn of the loop:
    the response and the request are taken out of their files. *)
Definition take_out (requestId : string) (responses : json) : M unit :=
  responses ← of_result (js_delete responses requestId);
  writeFile RESPONSES_FILE (Json responses);;
  raw ← readFile REQUESTS_FILE;
  requests ← of_result (JSON_parse raw);
  requests ← of_result (js_delete requests requestId);
  writeFile REQUESTS_FILE (Json requests).

(** The [try] block of one turn of the polling loop: the value assigned to
    [response], if any.  What throws after the assignment is caught by the
    loop's [catch], which only logs. *)
Definition attempt (requestId : string) : M (option json) :=
  try_catch
    (responsesData ← readFile RESPONSES_FILE;
     responses ← parse_or_empty responsesData;
     found ← of_result (js_get responses requestId);
     match found with
     | Some response =>
         if truthy response
         then try_catch (take_out requestId responses) (λ _, mret tt);;
              mret (Some response)
         else mret None
     | None => mret None
     end)
    (λ _, mret None).

Definition gateway_timeout : Reply :=
  mkReply (JNum 504) (JObj [])
    (JObj [("error", JStr "Gateway Timeout");
           ("message", JStr "Remote client did not respond in time")]).

(** The chain [res.status(..).set(..).send(..)], as [respond] above. *)
Definition respond (express : Reply → option Error) (reply : Reply) : M unit :=
  match express reply with
  | None => mret tt
  | Some error => throw error
  end.

Section WithWorld.

(** What the worker does to the shared folder while the handler sleeps for
    the [attempts]-th time. *)
Variable world : nat → option Folder → option Folder.
Variable express : Reply → option Error.

Definition pause (attempts : nat) : M unit :=
  sleep POLL_INTERVAL;;
  modify (λ s, set_folder (world attempts (st_folder s)) s).

(** [while (!response && attempts < 60)] *)
Fixpoint wait_loop (requestId : string) (remaining attempts : nat) : M (option json) :=
  match remaining with
  | O => mret None
  | S remaining' =>
      found ← attempt requestId;
      match found with
      | Some response => mret (Some response)
      | None => pause attempts;; wait_loop requestId remaining' (S attempts)
      end
  end.

Definition app_api (requestId : string) (req : Request) : M Reply :=
  try_catch
    (submit requestId req;;
     found ← wait_loop requestId MAX_ATTEMPTS 0;
     match found with
     | Some response =>
         let reply := send response in
         respond express reply;;
         mret reply
     | None => mret gateway_timeout
     end)
    (λ error, mret (internal_error error)).

End WithWorld.

(** *** The worker: [checkFiles] and [processRequests] *)

(** [checkFiles]; the flag [isFirstCheck] decides about a log line only. *)
Definition checkFiles : M bool :=
  try_catch
    (accessible ← try_catch (access_folder;; mret true) (λ _, mret false);
     if negb accessible then mret false else
     initialized ← get filesInitialized;
     attempted ← get initializationAttempted;
     if negb initialized && negb attempted then
       modify (λ s, set_flags (filesInitialized s) true s);;
       try_catch
         (ensure REQUESTS_FILE;;
          ensure RESPONSES_FILE;;
          modify (λ s, set_flags true (initializationAttempted s) s);;
          mret true)
         (λ _, modify (λ s, set_flags (filesInitialized s) false s);; mret false)
     else mret true)
    (λ _, mret false).

Definition response_of (status : Z) (headers data : json) (now : Z) : json :=
  JObj [("statusCode", JNum status); ("headers", headers);
        ("body", data); ("timestamp", JNum now)].

Definition error_response (msg : string) (now : Z) : json :=
  JObj [("statusCode", JNum 500); ("headers", JObj []);
        ("body", JObj [("error", JStr "Internal Server Error");
                       ("message", JStr msg)]);
        ("timestamp", JNum now)].

(** The two writes that end either arm of the loop body: the response goes
    into [responses.json] first, then the request becomes [{}].  Assigning
    to the key a second time, in the [catch] arm, gives the same object as
    assigning to it once. *)
Definition settle (requests responses : json) (requestId : string) (response : json)
  : M unit :=
  responses ← of_result (js_set responses requestId response);
  writeFile RESPONSES_FILE (Json responses);;
  requests ← of_result (js_set requests requestId (JObj []));
  writeFile REQUESTS_FILE (Json requests).

Section WithTarget.

(** The target service as axios sees it: the outcome of the one call made
    for a request. *)
Variable axios : json → AxiosOutcome.

(** The body of the [for] loop; both arms end in [break]. *)
Definition forward (requests responses : json) (requestId : string) (request : json)
  : M unit :=
  try_catch
    (emit (EvCall request 0);;
     match axios request with
     | Rejected msg => throw (JsError msg)
     | Resolved status headers data =>
         now ← get st_now;
         settle requests responses requestId (response_of status headers data now)
     end)
    (λ error,
       now ← get st_now;
       settle requests responses requestId (error_response (message error) now)).

Definition processRequests : M unit :=
  try_catch
    (data ← try_catch (data ← readFile REQUESTS_FILE;
                       mret (Some (if blank data then Json (JObj []) else data)))
                      (λ _, mret None);
     match data with
     | None => mret tt
     | Some data =>
         requests ← try_catch (requests ← of_result (JSON_parse data);
                               mret (Some requests))
                              (λ _, mret None);
         match requests with
         | None => mret tt
         | Some requests =>
             entries ← of_result (Object_entries requests);
             pendingRequests ← of_result (filter_pending entries);
             match pendingRequests with
             | [] => mret tt
             | (requestId, request) :: _ =>
                 responses ← try_catch
                                (responseData ← readFile RESPONSES_FILE;
                                 parse_or_empty responseData)
                                (λ _, mret (JObj []));
                 forward requests responses requestId request
             end
         end
     end)
    (λ _, mret tt).

(** One firing of the [setInterval] callback with [isProcessing] clear. *)
Definition tick : M unit :=
  filesExist ← checkFiles;
  if (filesExist : bool) then processRequests else mret tt.

End WithTarget.

End Single.

(** *** Reading the two files of the single-file iteration *)

(** The object that a program takes a file to hold when it reads it
    leniently: [{}] when the file is missing, blank or does not parse. *)
Definition object_read (c : option content) : json :=
  match c with
  | Some c =>
      if Single.blank c then JObj []
      else match JSON_parse c with
           | Ok j => j
           | Throw _ => JObj []
           end
  | None => JObj []
  end.

Definition responses_read (d : Single.Folder) : json :=
  object_read (Single.responses_json d).

(** The Response Record that the worker of the single-file iteration makes
    of the outcome of its call. *)
Definition outcome_record (o : AxiosOutcome) (now : Z) : json :=
  match o with
  | Resolved status headers data => Single.response_of status headers data now
  | Rejected msg => Single.error_response msg now
  end.

(** No response for an id is to be had from the shared folder. *)
Definition no_response (requestId : string) (folder : option Single.Folder) : Prop :=
  match folder with
  | None => True
  | Some d =>
      match Single.js_get (responses_read d) requestId with
      | Ok (Some response) => truthy response = false
      | Ok None | Throw _ => True
      end
  end.

(** A program adds at most [n] events to the trace. *)
Definition adds {A} (n : nat) (m : Single.M A) : Prop :=
  ∀ s, ∃ t, Single.st_trace (m s).2 = (Single.st_trace s ++ t)%list ∧ (length t ≤ n)%nat.

(** Sample states of the single-file iteration. *)
Definition single_state (d : option Single.Folder) : Single.State :=
  Single.mkState d 0 [] false false.
Definition folder_new : Single.Folder := Single.mkFolder None None.
Definition folder_ready : Single.Folder :=
  Single.mkFolder (Some (Json (JObj []))) (Some (Json (JObj []))).
Definition folder_half : Single.Folder :=
  Single.mkFolder (Some (Json (JObj [("a", JObj [("id", JStr "a")])]))) None.
Definition folder_two : Single.Folder :=
  Single.mkFolder
    (Some (Json (JObj [("a", JObj []); ("b", JObj [("id", JStr "b")]);
                       ("c", JObj [("id", JStr "c")])])))
    (Some Empty).
Definition refusing_axios : json → AxiosOutcome := λ _, Rejected "connect ECONNREFUSED".

(** ** The tasks of the worker across batches and ticks *)

(** [processRequests] awaits the tasks of a batch with [Promise.all], and the
    callback of [setInterval] awaits [processRequests].  [Worker.run_tasks]
    above runs the tasks of a batch one after the other, each to its end.
    Here the tasks are under way together: a task is started, holds its slot
    while its body runs and ends at a moment of its own.  Of the body only
    the end is kept, fulfilled or rejected. *)
Module Pool.

Inductive phase : Type :=
| Parked      (* on the queue of the semaphore of its batch *)
| Running     (* past [await semaphore.acquire()], before [semaphore.release()] *)
| Fulfilled
| Rejected.

(** A task is known by its place in the list of all tasks. *)
Record task : Type := mkTask {
  file : string;
  batch_of : nat;     (* its batch, which is also the place of its semaphore *)
  phase_of : phase
}.

Record t : Type := mk {
  isProcessing : bool;
  semaphores : list Semaphore.t;   (* one per batch started so far, oldest first *)
  tasks : list task;               (* every task started so far, oldest first *)
  later : list (list string)       (* the batches of the tick under way still to start *)
}.

Definition start : t := mk false [] [] [].

Definition set_phase (ph : phase) (x : task) : task :=
  mkTask (file x) (batch_of x) ph.

Definition is_running (x : task) : bool :=
  if phase_of x is Running then true else false.

Definition is_fulfilled (x : task) : bool :=
  if phase_of x is Fulfilled then true else false.

Definition in_batch (b : nat) (x : task) : bool := (batch_of x =? b)%nat.

Fixpoint count (P : task → bool) (ts : list task) : nat :=
  match ts with
  | [] => 0
  | x :: ts' => (if P x then 1 else 0) + count P ts'
  end.

(** The tasks that hold a slot, of whichever semaphore. *)
Definition running (p : t) : nat := count is_running (tasks p).

(** [batch.map(async (file) => { await semaphore.acquire(); ... })]: every
    callback runs up to its [acquire]. *)
Fixpoint spawn (batch : list string) (b : nat) (sem : Semaphore.t) (ts : list task)
  : Semaphore.t * list task :=
  match batch with
  | [] => (sem, ts)
  | file :: rest =>
      let '(granted, sem') := Semaphore.acquire (length ts) sem in
      spawn rest b sem' (ts ++ [mkTask file b (if (granted : bool) then Running else Parked)])
  end.

(** The top of [for (const batch of batches)]: the next batch gets a
    semaphore of its own and its tasks are started.  When no batch is left,
    [processRequests] returns and the [finally] of the timer's callback
    clears [isProcessing].  (A batch is never empty.) *)
Definition next_batch (batches : list (list string)) (p : t) : t :=
  match batches with
  | [] => mk false (semaphores p) (tasks p) []
  | batch :: rest =>
      let '(sem, ts) := spawn batch (length (semaphores p))
                          (Semaphore.new Worker.MAX_CONCURRENT_REQUESTS) (tasks p) in
      mk true (semaphores p ++ [sem]) ts rest
  end.

Inductive event : Type :=
| Fires (newFiles : list string)    (* the timer fires; a tick that passes the
                                       guard finds these candidates *)
| Ends (i : nat) (fulfilled : bool). (* the body of task [i] is over *)

Definition fires (newFiles : list string) (p : t) : t :=
  if isProcessing p then p
  else if (length newFiles =? 0)%nat then p
  else next_batch (Worker.batches_of (length newFiles) newFiles) p.

(** The end of a task: its [finally] releases the semaphore of its batch,
    which resumes the task parked first, and its promise is settled.  When
    the tick that started the task still awaits its batch, [Promise.all] is
    rejected by the first rejection, which ends [processRequests] in its
    [catch] and the tick in its [finally], and is fulfilled when the last
    task of the batch is. *)
Definition ends (i : nat) (fulfilled : bool) (p : t) : t :=
  match tasks p !! i with
  | Some x =>
      let b := batch_of x in
      match phase_of x, semaphores p !! b with
      | Running, Some sem =>
          let '(resumed, sem') := Semaphore.release sem in
          let ts := alter (set_phase (if fulfilled then Fulfilled else Rejected)) i
                          (tasks p) in
          let ts := if resumed is Some j then alter (set_phase Running) j ts else ts in
          let sems := <[b := sem']> (semaphores p) in
          if isProcessing p && (S b =? length (semaphores p))%nat then
            if fulfilled then
              if forallb (λ y, negb (in_batch b y) || is_fulfilled y) ts
              then next_batch (later p) (mk true sems ts [])
              else mk true sems ts (later p)
            else mk false sems ts []
          else mk (isProcessing p) sems ts (later p)
      | _, _ => p
      end
  | None => p
  end.

Definition step (e : event) (p : t) : t :=
  match e with
  | Fires newFiles => fires newFiles p
  | Ends i fulfilled => ends i fulfilled p
  end.

Definition run (events : list event) (p : t) : t := foldl (λ p e, step e p) p events.

End Pool.

(** Names of request files, numbered from [from]. *)
Definition numbered (from count : nat) : list string :=
  map (λ k, template (Some (JNum (Z.of_nat k))) +:+ ".json") (seq from count).

(** Three ticks that find twenty candidates each; of the first and of the
    second batch the first task is rejected while the others are under way. *)
Definition overlapping : list Pool.event :=
  [Pool.Fires (numbered 0 20); Pool.Ends 0 false;
   Pool.Fires (numbered 20 20); Pool.Ends 20 false;
   Pool.Fires (numbered 40 20)].

(** No task of the run is rejected. *)
Definition peaceful (events : list Pool.event) : Prop :=
  ∀ i, Pool.Ends i false ∉ events.

(** What holds of the semaphores and the tasks at every moment of a run:
    every task belongs to a batch that was started and none is parked; the
    semaphore of a batch has its capacity, an empty queue and as many slots
    out as tasks of the batch are running; a batch has at most [BATCH_SIZE]
    tasks. *)
Definition slots_match (sems : list Semaphore.t) (ts : list Pool.task) : Prop :=
  (∀ i x, ts !! i = Some x →
     (Pool.batch_of x < length sems)%nat ∧ Pool.phase_of x ≠ Pool.Parked) ∧
  (∀ b sem, sems !! b = Some sem →
     Semaphore.maxConcurrent sem = Worker.MAX_CONCURRENT_REQUESTS ∧
     Semaphore.queue sem = [] ∧
     Semaphore.current sem
     = Z.of_nat (Pool.count (λ x, Pool.in_batch b x && Pool.is_running x) ts)) ∧
  (∀ b, (Pool.count (Pool.in_batch b) ts ≤ Worker.BATCH_SIZE)%nat).

Definition small (batch : list string) : Prop := (length batch ≤ Worker.BATCH_SIZE)%nat.

(** The tasks that run are those of the batch that the tick under way
    awaits. *)
Definition one_batch (p : Pool.t) : Prop :=
  ∀ i x, Pool.tasks p !! i = Some x → Pool.is_running x = true →
    Pool.isProcessing p = true ∧ S (Pool.batch_of x) = length (Pool.semaphores p).

(** * Properties *)

(** ** Running monadic code *)

Ltac unfold_m :=
  unfold catch_default in *;
  unfold mbind, mret, M_bind, M_ret, try_catch, try_finally,
    throw, of_result, modify, put_fs, Date_now, emit in *.

Lemma fs_lookup_empty p : fs_lookup p empty_fs = None.
Proof. destruct p as [[] n]; apply lookup_empty. Qed.

Lemma set_fs_id s : set_fs (st_fs s) s = s.
Proof. by destruct s. Qed.

Lemma fs_dir_set_dir d d' m s :
  fs_dir d (fs_set_dir d' m s) = if decide (d = d') then m else fs_dir d s.
Proof. by destruct d, d', s. Qed.

(** ** Startup: both namespaces are wiped *)

Lemma Worker_initializeDirs_eq s :
  Worker.initializeDirs s = (Ok tt, set_fs empty_fs s).
Proof. by destruct s as [[rq rs] ? ? ? ?]. Qed.

Lemma Local_initializeDirs_eq s :
  Local.initializeDirs s = (Ok tt, set_fs empty_fs s).
Proof. by destruct s as [[rq rs] ? ? ? ?]. Qed.

Lemma LocalOld_initializeDirs_eq s :
  LocalOld.initializeDirs s = (Ok tt, set_fs empty_fs s).
Proof. by destruct s as [[rq rs] ? ? ? ?]. Qed.

(** C10. Whatever the shared folder holds when a role starts, its
    [initializeDirs] returns normally and leaves the requests and the
    responses directories existing and empty: every Request Record, Response
    Record, lock marker and completion marker that was there is gone, and
    nothing else of the process state changes. *)
Theorem C10_initializeDirs_wipes_store (s : State) :
  let wiped (r : result unit * State) :=
    r.1 = Ok tt ∧
    requests (st_fs r.2) = Some ∅ ∧ responses (st_fs r.2) = Some ∅ ∧
    (∀ p, fs_lookup p (st_fs r.2) = None) ∧
    r.2 = set_fs (st_fs r.2) s in
  wiped (Worker.initializeDirs s) ∧
  wiped (LocalOld.initializeDirs s) ∧
  wiped (Local.initializeDirs s).
Proof.
  intros wiped.
  rewrite Worker_initializeDirs_eq, LocalOld_initializeDirs_eq, Local_initializeDirs_eq.
  assert (wiped (Ok tt, set_fs empty_fs s)) as H; [|done].
  repeat split; try done. intros p; apply fs_lookup_empty.
Qed.

(** ** The file-system calls, one state at a time *)

Lemma writeFile_ok p c s m :
  fs_dir p.1 (st_fs s) = Some m → m !! p.2 ≠ Some Directory →
  fs.writeFile p c s
  = (Ok tt, set_fs (fs_set_dir p.1 (Some (<[p.2 := File c]> m)) (st_fs s)) s).
Proof.
  intros Hd Hn. unfold fs.writeFile. rewrite Hd.
  destruct (m !! p.2) as [[]|]; done.
Qed.

Lemma writeFile_ENOENT p c s :
  fs_dir p.1 (st_fs s) = None → fs.writeFile p c s = (Throw ENOENT, s).
Proof. intros Hd. unfold fs.writeFile. by rewrite Hd. Qed.

Lemma writeFile_EISDIR p c s :
  fs_lookup p (st_fs s) = Some Directory → fs.writeFile p c s = (Throw EISDIR, s).
Proof.
  unfold fs_lookup, fs.writeFile. destruct (fs_dir p.1 (st_fs s)); [|done].
  by intros ->.
Qed.

Lemma writeFile_wx_ok p c s m :
  fs_dir p.1 (st_fs s) = Some m → m !! p.2 = None →
  fs.writeFile_wx p c s
  = (Ok tt, set_fs (fs_set_dir p.1 (Some (<[p.2 := File c]> m)) (st_fs s)) s).
Proof. intros Hd Hn. unfold fs.writeFile_wx. by rewrite Hd, Hn. Qed.

Lemma readFile_ok p s c :
  fs_lookup p (st_fs s) = Some (File c) → fs.readFile p s = (Ok c, s).
Proof. unfold fs.readFile. by intros ->. Qed.

Lemma readFile_ENOENT p s :
  fs_lookup p (st_fs s) = None → fs.readFile p s = (Throw ENOENT, s).
Proof. unfold fs.readFile. by intros ->. Qed.

Lemma unlink_ok p s m c :
  fs_dir p.1 (st_fs s) = Some m → m !! p.2 = Some (File c) →
  fs.unlink p s = (Ok tt, set_fs (fs_set_dir p.1 (Some (delete p.2 m)) (st_fs s)) s).
Proof. intros Hd Hn. unfold fs.unlink. by rewrite Hd, Hn. Qed.

Lemma unlink_ENOENT p s :
  fs_lookup p (st_fs s) = None → fs.unlink p s = (Throw ENOENT, s).
Proof.
  unfold fs_lookup, fs.unlink. destruct (fs_dir p.1 (st_fs s)); [|done].
  by intros ->.
Qed.

(** An [unlink] touches no other name, whether it succeeds or throws. *)
Lemma unlink_frame p s q :
  q ≠ p → fs_lookup q (st_fs (fs.unlink p s).2) = fs_lookup q (st_fs s).
Proof.
  intros Hq. unfold fs.unlink, fs_lookup.
  destruct (fs_dir p.1 (st_fs s)) as [m|] eqn:Hd; [|done].
  destruct (m !! p.2) as [[]|]; try done. cbn.
  rewrite fs_dir_set_dir. case_decide as Hpq; [|done].
  rewrite <- Hpq in Hd. rewrite Hd. apply lookup_delete_ne.
  intros Hn. apply Hq. destruct p, q; simpl in *; congruence.
Qed.

(** ** The lock primitive *)

(** The exclusive variant returns [true] exactly when the marker was absent,
    and then it is this call that creates it. *)
Lemma Local_lockFile_free p s :
  fs_lookup (lock_of p) (st_fs s) = None →
  ∃ s', Local.lockFile p s = (Ok true, s') ∧
        fs_lookup (lock_of p) (st_fs s') = Some (File Local.pid_text) ∧
        ∀ q, q ≠ lock_of p → fs_lookup q (st_fs s') = fs_lookup q (st_fs s).
Proof.
  destruct p as [d n]. intros Hfree.
  unfold Local.lockFile, fs.mkdir, fs.writeFile_wx. unfold_m.
  unfold fs_lookup, lock_of in *. cbn in *.
  destruct (fs_dir d (st_fs s)) as [m|] eqn:Hd; cbn.
  - rewrite Hd, Hfree. eexists; split; [done|]. cbn.
    rewrite fs_dir_set_dir, decide_True by done. split; [apply lookup_insert_eq|].
    intros [d' n'] Hq. cbn. rewrite fs_dir_set_dir. case_decide as Hql; [|done].
    subst d'. rewrite Hd. apply lookup_insert_ne. congruence.
  - rewrite fs_dir_set_dir, decide_True by done. rewrite lookup_empty.
    eexists; split; [done|]. cbn.
    rewrite !fs_dir_set_dir, decide_True by done. split; [apply lookup_insert_eq|].
    intros [d' n'] Hq. cbn. rewrite !fs_dir_set_dir. case_decide as Hql; [|done].
    subst d'. rewrite Hd. rewrite lookup_insert_ne; [apply lookup_empty|]. congruence.
Qed.

Lemma Local_lockFile_held p s x :
  fs_lookup (lock_of p) (st_fs s) = Some x →
  Local.lockFile p s = (Ok false, s).
Proof.
  destruct p as [d n]. intros Hheld.
  unfold Local.lockFile, fs.mkdir, fs.writeFile_wx. unfold_m.
  unfold fs_lookup, lock_of in *. cbn in *.
  destruct (fs_dir d (st_fs s)) as [m|] eqn:Hd; [|done].
  by rewrite Hd, Hheld.
Qed.

Lemma Local_lockFile_exclusive p s :
  (Local.lockFile p s).1 = Ok true ↔ fs_lookup (lock_of p) (st_fs s) = None.
Proof.
  split.
  - destruct (fs_lookup (lock_of p) (st_fs s)) eqn:Hl; [|done].
    by rewrite (Local_lockFile_held _ _ _ Hl).
  - intros Hl. by destruct (Local_lockFile_free _ _ Hl) as (s' & -> & _).
Qed.

(** The worker's variant opens the marker with flag 'w': a marker that is
    already there is truncated and the call still returns [true]. *)
Lemma Worker_lockFile_held p s m c :
  fs_dir p.1 (st_fs s) = Some m → m !! (p.2 +:+ ".lock") = Some (File c) →
  Worker.lockFile p s
  = (Ok true, set_fs (fs_set_dir p.1 (Some (<[p.2 +:+ ".lock" := File Empty]> m)) (st_fs s)) s).
Proof.
  intros Hd Hl. unfold Worker.lockFile. unfold_m.
  rewrite (writeFile_ok (lock_of p) Empty s m); [done|done|].
  cbn. by rewrite Hl.
Qed.

(** C1 (the worker's lock is not exclusive). On a store with one pending
    Request Record, the worker's [lockFile] on that record returns [true]
    and creates the marker; a second call, made while the marker is still
    there, returns [true] again; and a marker created by the exclusive
    variant is overwritten by the worker's call, which also returns [true]. *)
Theorem C1_worker_lockFile_acquires_held_lock :
  let p := (REQUESTS_DIR, "a.json") in
  let first := Worker.lockFile p (state_of fs_a) in
  let second := Worker.lockFile p first.2 in
  let owned := Local.lockFile p (state_of fs_a) in
  let over := Worker.lockFile p owned.2 in
  fs_lookup (lock_of p) fs_a = None ∧
  first.1 = Ok true ∧
  fs_lookup (lock_of p) (st_fs first.2) = Some (File Empty) ∧
  second.1 = Ok true ∧
  owned.1 = Ok true ∧
  fs_lookup (lock_of p) (st_fs owned.2) = Some (File Local.pid_text) ∧
  over.1 = Ok true ∧
  fs_lookup (lock_of p) (st_fs over.2) = Some (File Empty).
Proof. vm_compute. repeat split. Qed.

(** ** Release and cleanup *)

Lemma Local_unlockFile_absent p s :
  fs_lookup (lock_of p) (st_fs s) = None → Local.unlockFile p s = (Ok true, s).
Proof.
  intros Hl. unfold Local.unlockFile. unfold_m. by rewrite unlink_ENOENT.
Qed.

Lemma Worker_unlockFile_absent p s :
  fs_lookup (lock_of p) (st_fs s) = None → Worker.unlockFile p s = (Ok false, s).
Proof.
  intros Hl. unfold Worker.unlockFile. unfold_m. by rewrite unlink_ENOENT.
Qed.

Lemma LocalOld_unlockFile_absent p s :
  fs_lookup (lock_of p) (st_fs s) = None → LocalOld.unlockFile p s = (Ok false, s).
Proof.
  intros Hl. unfold LocalOld.unlockFile. unfold_m. by rewrite unlink_ENOENT.
Qed.

(** [fs.unlink(p).catch(() => {})] never throws. *)
Lemma unlink_caught p s :
  catch_default (fs.unlink p) tt s = (Ok tt, (fs.unlink p s).2).
Proof. unfold_m. by destruct (fs.unlink p s) as [[[]|e] s']. Qed.

Lemma unlink_caught_absent p s :
  fs_lookup p (st_fs s) = None → catch_default (fs.unlink p) tt s = (Ok tt, s).
Proof. intros Hp. unfold_m. by rewrite unlink_ENOENT. Qed.

Lemma Local_cleanup_eq rq rs s :
  Local.cleanup rq rs s
  = (Ok tt, (fs.unlink rq (fs.unlink (done_of rs) (fs.unlink rs s).2).2).2).
Proof.
  unfold Local.cleanup. unfold mbind, M_bind.
  by rewrite !unlink_caught.
Qed.

(** C8. Releasing a lock whose marker is absent returns normally in every
    variant of [unlockFile] (with [true] in the marker-aware iteration, with
    [false] in the worker and the earlier iteration) and changes nothing.  The
    waiter's cleanup returns normally on every store, touches no name other
    than the Response Record, its Completion Marker and the Request Record,
    and when these three are already absent it leaves the whole state as it
    was. *)
Theorem C8_release_and_cleanup_idempotent :
  (∀ p s, fs_lookup (lock_of p) (st_fs s) = None →
     Local.unlockFile p s = (Ok true, s) ∧
     Worker.unlockFile p s = (Ok false, s) ∧
     LocalOld.unlockFile p s = (Ok false, s)) ∧
  (∀ rq rs s,
     (Local.cleanup rq rs s).1 = Ok tt ∧
     ∀ q, q ≠ rs → q ≠ done_of rs → q ≠ rq →
       fs_lookup q (st_fs (Local.cleanup rq rs s).2) = fs_lookup q (st_fs s)) ∧
  (∀ rq rs s,
     fs_lookup rs (st_fs s) = None → fs_lookup (done_of rs) (st_fs s) = None →
     fs_lookup rq (st_fs s) = None →
     Local.cleanup rq rs s = (Ok tt, s)).
Proof.
  split; [|split].
  - intros p s Hl. by rewrite Local_unlockFile_absent, Worker_unlockFile_absent,
      LocalOld_unlockFile_absent.
  - intros rq rs s. rewrite Local_cleanup_eq. split; [done|].
    intros q H1 H2 H3. cbn. by rewrite !unlink_frame.
  - intros rq rs s H1 H2 H3. unfold Local.cleanup. unfold mbind, M_bind.
    rewrite unlink_caught_absent by done.
    rewrite unlink_caught_absent by done.
    by rewrite unlink_caught_absent.
Qed.

Lemma C8_witness :
  (fs_lookup (lock_of (REQUESTS_DIR, "a.json")) (st_fs (state_of fs_a)) = None ∧
   Local.unlockFile (REQUESTS_DIR, "a.json") (state_of fs_a) = (Ok true, state_of fs_a)) ∧
  (fs_lookup (RESPONSES_DIR, "a.json") (st_fs (state_of empty_fs)) = None ∧
   Local.cleanup (REQUESTS_DIR, "a.json") (RESPONSES_DIR, "a.json") (state_of empty_fs)
   = (Ok tt, state_of empty_fs)).
Proof.
  destruct C8_release_and_cleanup_idempotent as (Hunlock & _ & Hclean).
  split; split; [reflexivity| |reflexivity|].
  - apply (Hunlock (REQUESTS_DIR, "a.json") (state_of fs_a)). reflexivity.
  - apply (Hclean (REQUESTS_DIR, "a.json") (RESPONSES_DIR, "a.json") (state_of empty_fs));
      reflexivity.
Defined.

(** ** What the worker's code leaves alone *)

Create HintDb keeps discriminated.

Section Keeps.
Context {B : Type} (proj : State → B) `{!InMemory proj}.

Lemma keeps_ret {A} (a : A) : keeps proj (mret a).
Proof. done. Qed.

Lemma keeps_throw {A} e : keeps proj (throw e : M A).
Proof. done. Qed.

Lemma keeps_of_result {A} (r : result A) : keeps proj (of_result r).
Proof. done. Qed.

Lemma keeps_bind {A C} (m : M A) (f : A → M C) :
  keeps proj m → (∀ a, keeps proj (f a)) → keeps proj (m ≫= f).
Proof.
  intros Hm Hf s. unfold mbind, M_bind. specialize (Hm s).
  destruct (m s) as [[a|e] s']; cbn in *; [|done]. by rewrite Hf.
Qed.

Lemma keeps_try_catch {A} (m : M A) h :
  keeps proj m → (∀ e, keeps proj (h e)) → keeps proj (try_catch m h).
Proof.
  intros Hm Hh s. unfold try_catch. specialize (Hm s).
  destruct (m s) as [[a|e] s']; cbn in *; [done|]. by rewrite Hh.
Qed.

Lemma keeps_try_finally {A C} (m : M A) (f : M C) :
  keeps proj m → keeps proj f → keeps proj (try_finally m f).
Proof.
  intros Hm Hf s. unfold try_finally. specialize (Hm s).
  destruct (m s) as [r s']. specialize (Hf s').
  destruct (f s') as [[c|e] s'']; cbn in *; congruence.
Qed.

Lemma keeps_set_fs f s : proj (set_fs f s) = proj s.
Proof. apply in_memory. Qed.

Lemma keeps_writeFile p c : keeps proj (fs.writeFile p c).
Proof.
  intros s. unfold fs.writeFile, put_fs.
  destruct (fs_dir p.1 (st_fs s)) as [m|]; [|done].
  destruct (m !! p.2) as [[]|]; try done; apply keeps_set_fs.
Qed.

Lemma keeps_writeFile_wx p c : keeps proj (fs.writeFile_wx p c).
Proof.
  intros s. unfold fs.writeFile_wx, put_fs.
  destruct (fs_dir p.1 (st_fs s)) as [m|]; [|done].
  destruct (m !! p.2) as [[]|]; try done; apply keeps_set_fs.
Qed.

Lemma keeps_readFile p : keeps proj (fs.readFile p).
Proof.
  intros s. unfold fs.readFile. by destruct (fs_lookup p (st_fs s)) as [[]|].
Qed.

Lemma keeps_unlink p : keeps proj (fs.unlink p).
Proof.
  intros s. unfold fs.unlink, put_fs.
  destruct (fs_dir p.1 (st_fs s)) as [m|]; [|done].
  destruct (m !! p.2) as [[]|]; try done; apply keeps_set_fs.
Qed.

Lemma keeps_readdir d : keeps proj (fs.readdir d).
Proof. intros s. unfold fs.readdir. by destruct (fs_dir d (st_fs s)). Qed.

Lemma keeps_access_dir d : keeps proj (fs.access_dir d).
Proof. intros s. unfold fs.access_dir. by destruct (fs_dir d (st_fs s)). Qed.

Lemma keeps_Date_now : keeps proj Date_now.
Proof. done. Qed.

Lemma keeps_emit e : keeps proj (emit e).
Proof. intros s. apply in_memory. Qed.

Lemma keeps_sleep ms : keeps proj (sleep ms).
Proof. intros s. apply in_memory. Qed.

End Keeps.

#[global] Hint Resolve keeps_ret keeps_throw keeps_of_result keeps_writeFile
  keeps_writeFile_wx keeps_readFile keeps_unlink keeps_readdir keeps_access_dir
  keeps_Date_now keeps_emit keeps_sleep : keeps.

(** Break a computation into its parts, down to the calls the hints know. *)
Ltac keeps_step :=
  first
    [ apply keeps_bind; [|intros ?]
    | apply keeps_try_catch; [|intros ?]
    | apply keeps_try_finally
    | match goal with
      | |- keeps _ (match ?x with _ => _ end) => destruct x
      | |- keeps _ (if ?b then _ else _) => destruct b
      | |- keeps _ (let _ := _ in _) => cbv zeta
      end
    | solve [eauto with keeps typeclass_instances] ].

Ltac solve_keeps := repeat keeps_step.

Section KeepsWorker.
Context {B : Type} (proj : State → B) `{!InMemory proj}.
Variable axios : json → nat → AxiosOutcome.

Lemma keeps_Worker_lockFile p : keeps proj (Worker.lockFile p).
Proof. unfold Worker.lockFile. solve_keeps. Qed.

Lemma keeps_Worker_unlockFile p : keeps proj (Worker.unlockFile p).
Proof. unfold Worker.unlockFile. solve_keeps. Qed.

Lemma keeps_get_prop v k : keeps proj (Worker.get_prop v k).
Proof. unfold Worker.get_prop. solve_keeps. Qed.

Lemma keeps_set_prop v k x : keeps proj (Worker.set_prop v k x).
Proof. unfold Worker.set_prop. solve_keeps. Qed.

Lemma keeps_retry_loop rd remaining retries lastError :
  keeps proj (Worker.retry_loop axios rd remaining retries lastError).
Proof.
  revert retries lastError.
  induction remaining as [|remaining IH]; intros retries lastError; cbn.
  - solve_keeps.
  - apply keeps_bind; [eauto with keeps|intros _].
    destruct (axios rd retries); [solve_keeps|].
    apply keeps_bind; [solve_keeps|intros _]. apply IH.
Qed.

#[local] Hint Resolve keeps_Worker_lockFile keeps_Worker_unlockFile keeps_get_prop
  keeps_set_prop keeps_retry_loop : keeps.

Lemma keeps_write_response rd st h d :
  keeps proj (Worker.write_response rd st h d).
Proof. unfold Worker.write_response. solve_keeps. Qed.

#[local] Hint Resolve keeps_write_response : keeps.

Lemma keeps_process rf : keeps proj (Worker.process axios rf).
Proof. unfold Worker.process. solve_keeps. Qed.

Lemma keeps_on_error file rf e : keeps proj (Worker.on_error file rf e).
Proof. unfold Worker.on_error. solve_keeps. Qed.

#[local] Hint Resolve keeps_process keeps_on_error : keeps.

Lemma keeps_claim file : keeps proj (Worker.claim axios file).
Proof. unfold Worker.claim. solve_keeps. Qed.

End KeepsWorker.

#[global] Hint Resolve keeps_Worker_lockFile keeps_Worker_unlockFile
  keeps_process keeps_on_error keeps_claim : keeps.

(** ** The semaphore *)

Lemma Semaphore_run_invariant ops s held :
  held = Semaphore.current s →
  Semaphore.current s ≤ Semaphore.maxConcurrent s →
  let r := Semaphore.run ops s held in
  r.2 = Semaphore.current r.1 ∧
  Semaphore.current r.1 ≤ Semaphore.maxConcurrent r.1 ∧
  Semaphore.maxConcurrent r.1 = Semaphore.maxConcurrent s.
Proof.
  revert s held. induction ops as [|o ops IH]; intros s held Hheld Hle; cbn.
  - done.
  - destruct (IH (Semaphore.step o s) (held + Semaphore.handed o s)) as (H1 & H2 & H3).
    + destruct o as [task|]; cbn; unfold Semaphore.acquire, Semaphore.release.
      * destruct (Z.ltb_spec (Semaphore.current s) (Semaphore.maxConcurrent s));
          cbn; lia.
      * destruct (Semaphore.queue s); cbn; lia.
    + destruct o as [task|]; cbn; unfold Semaphore.acquire, Semaphore.release.
      * destruct (Z.ltb_spec (Semaphore.current s) (Semaphore.maxConcurrent s));
          cbn; lia.
      * destruct (Semaphore.queue s); cbn; lia.
    + repeat split; [done|done|]. rewrite H3.
      destruct o as [task|]; cbn; unfold Semaphore.acquire, Semaphore.release.
      * by destruct (Semaphore.current s <? Semaphore.maxConcurrent s).
      * by destruct (Semaphore.queue s).
Qed.

(** The slots still out are returned by as many [release]s. *)
Lemma Semaphore_release_all n s :
  0 ≤ Semaphore.current s →
  Z.of_nat n = Semaphore.current s + Z.of_nat (length (Semaphore.queue s)) →
  let s' := Nat.iter n (λ m, (Semaphore.release m).2) s in
  Semaphore.current s' = 0 ∧ Semaphore.queue s' = [].
Proof.
  revert s. induction n as [|n IH]; intros s Hpos Hn.
  - cbn. destruct (Semaphore.queue s); cbn in *; [|lia]. split; [lia|done].
  - rewrite Nat.iter_succ_r. apply IH; unfold Semaphore.release;
      destruct (Semaphore.queue s); cbn in *; lia.
Qed.

Lemma task_sem axios file s :
  st_sem (Worker.task axios file s).2 = (Semaphore.release (st_sem s)).2.
Proof.
  unfold Worker.task, try_finally.
  pose proof (keeps_claim st_sem axios file s) as Hbody.
  destruct (Worker.claim axios file s) as [r s']. cbn in *. by rewrite Hbody.
Qed.

Lemma run_tasks_sem axios batch s :
  st_sem (Worker.run_tasks axios batch s).2
  = Nat.iter (length batch) (λ m, (Semaphore.release m).2) (st_sem s).
Proof.
  revert s. induction batch as [|file batch IH]; intros s; [done|].
  cbn [Worker.run_tasks length]. rewrite Nat.iter_succ_r, <- (task_sem axios file).
  destruct (Worker.task axios file s) as [[[]|e] s']; cbn; apply IH.
Qed.

Lemma acquire_all_sem batch task0 s :
  0 ≤ Semaphore.current (st_sem s) →
  let s' := (Worker.acquire_all batch task0 s).2 in
  (Worker.acquire_all batch task0 s).1 = Ok tt ∧
  0 ≤ Semaphore.current (st_sem s') ∧
  Semaphore.current (st_sem s') + Z.of_nat (length (Semaphore.queue (st_sem s')))
  = Semaphore.current (st_sem s) + Z.of_nat (length (Semaphore.queue (st_sem s)))
    + Z.of_nat (length batch).
Proof.
  revert task0 s. induction batch as [|file batch IH]; intros task0 s Hpos.
  - cbn. split; [done|]. lia.
  - cbn [Worker.acquire_all]. unfold mbind, M_bind, Worker.sem_acquire.
    destruct (Semaphore.acquire task0 (st_sem s)) as [granted m] eqn:Hacq.
    assert (0 ≤ Semaphore.current m ∧
            Semaphore.current m + Z.of_nat (length (Semaphore.queue m))
            = Semaphore.current (st_sem s)
              + Z.of_nat (length (Semaphore.queue (st_sem s))) + 1) as [Hm1 Hm2].
    { unfold Semaphore.acquire in Hacq.
      destruct (Semaphore.current (st_sem s) <? Semaphore.maxConcurrent (st_sem s));
        inversion Hacq; subst; cbn; rewrite ?length_app; cbn; lia. }
    destruct (IH (S task0) (set_sem m s)) as (H1 & H2 & H3); [done|].
    split; [done|]. split; [done|].
    rewrite H3. cbn [length st_sem set_sem]. lia.
Qed.

Lemma run_batch_sem axios batch s :
  let sem := st_sem (Worker.run_batch axios batch s).2 in
  Semaphore.current sem = 0 ∧ Semaphore.queue sem = [].
Proof.
  intros sem. subst sem.
  set (s0 := set_sem (Semaphore.new Worker.MAX_CONCURRENT_REQUESTS) s).
  assert ((Worker.run_batch axios batch s).2
          = (Worker.run_tasks axios batch (Worker.acquire_all batch 0 s0).2).2) as ->.
  { unfold Worker.run_batch, modify, mbind, M_bind. fold s0.
    destruct (acquire_all_sem batch 0%nat s0) as (Hok & _); [done|].
    destruct (Worker.acquire_all batch 0 s0) as [r s1]. cbn in *. by subst r. }
  destruct (acquire_all_sem batch 0%nat s0) as (_ & Hpos & Hsum); [done|].
  rewrite run_tasks_sem.
  apply Semaphore_release_all; [done|]. cbn in Hsum. lia.
Qed.

(** A batch never holds more names than [BATCH_SIZE], and the tasks of such
    a batch all get their slot at once: nobody is parked. *)
Lemma batches_of_bounded fuel newFiles batch :
  batch ∈ Worker.batches_of fuel newFiles → (length batch ≤ Worker.BATCH_SIZE)%nat.
Proof.
  revert newFiles. induction fuel as [|fuel IH]; intros newFiles.
  - destruct newFiles; cbn; intros H; by apply elem_of_nil in H.
  - destruct newFiles as [|f newFiles]; [cbn; intros H; by apply elem_of_nil in H|].
    cbn [Worker.batches_of]. intros [->|Hin]%elem_of_cons; [|by eapply IH].
    rewrite length_take. lia.
Qed.

Lemma acquire_all_granted batch task0 s :
  Semaphore.queue (st_sem s) = [] →
  Semaphore.current (st_sem s) + Z.of_nat (length batch)
  ≤ Semaphore.maxConcurrent (st_sem s) →
  let sem := st_sem (Worker.acquire_all batch task0 s).2 in
  Semaphore.queue sem = [] ∧
  Semaphore.current sem = Semaphore.current (st_sem s) + Z.of_nat (length batch).
Proof.
  revert task0 s. induction batch as [|file batch IH]; intros task0 s Hq Hle.
  - cbn. split; [done|lia].
  - cbn [Worker.acquire_all]. unfold mbind, M_bind, Worker.sem_acquire, Semaphore.acquire.
    cbn [length] in Hle.
    destruct (Z.ltb_spec (Semaphore.current (st_sem s))
                (Semaphore.maxConcurrent (st_sem s))) as [Hlt|Hge]; [|lia].
    destruct (IH (S task0)
                (set_sem (Semaphore.mk (Semaphore.maxConcurrent (st_sem s))
                            (Semaphore.current (st_sem s) + 1)
                            (Semaphore.queue (st_sem s))) s)) as [H1 H2];
      [done|cbn; lia|].
    split; [done|]. rewrite H2. cbn [length st_sem set_sem Semaphore.current]. lia.
Qed.

(** C9, on a run of the worker in which the tasks that hold a slot outnumber
    the limit.  Three ticks find twenty candidates each.  In the first and in
    the second a task is rejected while the nineteen others of its batch are
    under way: [Promise.all] is rejected, [processRequests] and the tick end,
    and the next tick starts a batch with a semaphore of its own.  No
    semaphore has handed out more slots than its capacity,
    [MAX_CONCURRENT_REQUESTS] = 40, yet 58 tasks hold a slot at the end, each
    of them free to have its call to the target in flight.  A task is
    rejected, for one, when its request file is listed before its text is
    there. *)
Theorem C9_overlapping_batches_exceed_the_limit :
  let p := Pool.run overlapping Pool.start in
  Pool.running p = 58%nat ∧
  Worker.MAX_CONCURRENT_REQUESTS < Z.of_nat (Pool.running p) ∧
  map Semaphore.current (Pool.semaphores p) = [19; 19; 20] ∧
  Forall (λ sem, Semaphore.current sem ≤ Semaphore.maxConcurrent sem) (Pool.semaphores p) ∧
  (Worker.task widget_axios "a.json" (state_of fs_cut)).1 = Throw SyntaxError.
Proof.
  cbv zeta.
  assert (Pool.running (Pool.run overlapping Pool.start) = 58%nat) as ->
    by (vm_compute; reflexivity).
  assert (Pool.semaphores (Pool.run overlapping Pool.start)
          = [Semaphore.mk 40 19 []; Semaphore.mk 40 19 []; Semaphore.mk 40 20 []]) as ->
    by (vm_compute; reflexivity).
  split; [reflexivity|]. split; [reflexivity|]. split; [reflexivity|].
  split; [|vm_compute; reflexivity].
  repeat constructor; cbn [Semaphore.current Semaphore.maxConcurrent]; lia.
Qed.

(** ** Discovery and the recently-seen set *)

Lemma keeps_processed_sem_acquire k : keeps st_processed (Worker.sem_acquire k).
Proof.
  intros s. unfold Worker.sem_acquire.
  by destruct (Semaphore.acquire k (st_sem s)).
Qed.

Lemma keeps_processed_sem_release : keeps st_processed Worker.sem_release.
Proof. done. Qed.

Lemma keeps_processed_task axios file : keeps st_processed (Worker.task axios file).
Proof.
  unfold Worker.task. apply keeps_try_finally;
    [apply keeps_claim, _|apply keeps_processed_sem_release].
Qed.

Lemma keeps_processed_acquire_all batch k :
  keeps st_processed (Worker.acquire_all batch k).
Proof.
  revert k. induction batch as [|f batch IH]; intros k; cbn; [done|].
  apply keeps_bind; [apply keeps_processed_sem_acquire|intros _; apply IH].
Qed.

Lemma keeps_processed_run_tasks axios batch :
  keeps st_processed (Worker.run_tasks axios batch).
Proof.
  induction batch as [|f batch IH]; intros s; cbn; [done|].
  pose proof (keeps_processed_task axios f s) as Ht.
  destruct (Worker.task axios f s) as [[[]|e] s']; cbn in *; by rewrite IH.
Qed.

Lemma keeps_processed_run_batches axios batches :
  keeps st_processed (Worker.run_batches axios batches).
Proof.
  induction batches as [|batch batches IH]; cbn; [done|].
  apply keeps_bind; [|intros _; apply IH].
  unfold Worker.run_batch.
  apply keeps_bind; [done|intros _].
  apply keeps_bind; [apply keeps_processed_acquire_all|intros _].
  apply keeps_processed_run_tasks.
Qed.

(** What a tick does to [processedFiles] is decided before any lock is
    tried: the candidates are added, whatever happens to them afterwards. *)
Lemma processRequests_processed axios s m :
  fs_dir REQUESTS_DIR (st_fs s) = Some m →
  let newFiles := Worker.newFiles_of (map fst (map_to_list m)) (st_processed s) in
  st_processed (Worker.processRequests axios s).2
  = if (length newFiles =? 0)%nat then st_processed s
    else Worker.remember newFiles (st_processed s).
Proof.
  intros Hd newFiles. unfold Worker.processRequests, try_catch.
  unfold mbind at 1, M_bind, fs.readdir. rewrite Hd.
  unfold mbind at 1, M_bind. fold newFiles.
  destruct (length newFiles =? 0)%nat; [done|].
  unfold mbind, M_bind, modify.
  pose proof (keeps_processed_run_batches axios
    (Worker.batches_of (length newFiles) newFiles)
    (set_processed (Worker.remember newFiles (st_processed s)) s)) as Hk.
  destruct (Worker.run_batches _ _ _) as [[[]|e] s']; cbn in *; by rewrite Hk.
Qed.

Lemma set_has_true f l : Worker.set_has f l = true ↔ f ∈ l.
Proof. unfold Worker.set_has. apply bool_decide_eq_true. Qed.

Lemma newFiles_of_not_seen files processedFiles f :
  f ∈ Worker.newFiles_of files processedFiles → f ∉ processedFiles.
Proof.
  unfold Worker.newFiles_of. rewrite list_elem_of_filter. intros [Hf _] Hin.
  apply set_has_true in Hin. rewrite Hin in Hf. rewrite andb_false_r in Hf. done.
Qed.

Lemma seen_not_candidate files processedFiles f :
  f ∈ processedFiles → f ∉ Worker.newFiles_of files processedFiles.
Proof. intros Hin Hf. by apply newFiles_of_not_seen in Hf. Qed.

(** Adding names extends the set at its young end. *)
Lemma foldl_set_add l new :
  ∃ ext, foldl Worker.set_add l new = (l ++ ext)%list ∧
         (length ext ≤ length new)%nat ∧
         ∀ f, f ∈ new → f ∈ l ∨ f ∈ ext.
Proof.
  revert l. induction new as [|x new IH]; intros l; cbn.
  - exists []. rewrite app_nil_r. split; [done|]. split; [done|].
    intros f Hf. by apply elem_of_nil in Hf.
  - destruct (IH (Worker.set_add l x)) as (ext & Heq & Hlen & Hin).
    unfold Worker.set_add in *. destruct (Worker.set_has x l) eqn:Hx.
    + exists ext. split; [done|]. split; [lia|].
      intros f [->|Hf]%elem_of_cons; [left; by apply set_has_true|by apply Hin].
    + exists (x :: ext). rewrite Heq, <- app_assoc. split; [done|].
      split; [cbn; lia|].
      intros f [->|Hf]%elem_of_cons; [right; left|].
      destruct (Hin f Hf) as [[Hl| ->%list_elem_of_singleton]%elem_of_app|He];
        [by left|right; left|right; by right].
Qed.

Lemma remember_keeps_candidates new l f :
  (length new ≤ Worker.MAX_PROCESSED_FILES)%nat →
  f ∈ new → f ∉ l → f ∈ Worker.remember new l.
Proof.
  intros Hlen Hf Hl. unfold Worker.remember.
  destruct (foldl_set_add l new) as (ext & -> & Hext & Hin).
  assert (f ∈ ext) as Hfe by (destruct (Hin f Hf); done).
  destruct (_ <? _)%nat; [|apply elem_of_app; by right].
  rewrite length_app, drop_app_le by lia.
  apply elem_of_app; by right.
Qed.

(** C6, as the code has it. Every name that a tick lists as a candidate is
    in the recently-seen set when the tick is over (provided the tick had at
    most [MAX_PROCESSED_FILES] candidates), whatever its lock attempt and its
    processing came to; and a name that is in the set is not a candidate of a
    tick, whatever the requests directory holds: a record that was listed once
    is not listed again while its name stays in the set. *)
Theorem C6_listed_once_then_skipped axios s m :
  fs_dir REQUESTS_DIR (st_fs s) = Some m →
  let newFiles := Worker.newFiles_of (map fst (map_to_list m)) (st_processed s) in
  (length newFiles ≤ Worker.MAX_PROCESSED_FILES)%nat →
  let s1 := (Worker.processRequests axios s).2 in
  ∀ f, f ∈ newFiles →
    f ∈ st_processed s1 ∧
    ∀ files2, f ∉ Worker.newFiles_of files2 (st_processed s1).
Proof.
  intros Hd newFiles Hlen s1 f Hf.
  assert (f ∈ st_processed s1) as Hseen.
  { unfold s1. rewrite (processRequests_processed axios s m Hd). fold newFiles.
    destruct newFiles as [|x l] eqn:Hnew; [by apply elem_of_nil in Hf|].
    cbn [length Nat.eqb]. rewrite <- Hnew in *.
    apply remember_keeps_candidates; [done|done|].
    by apply (newFiles_of_not_seen (map fst (map_to_list m))). }
  split; [done|]. intros files2. by apply seen_not_candidate.
Qed.

Lemma C6_witness :
  "a.json" ∈ st_processed (Worker.processRequests widget_axios (state_of fs_a)).2 ∧
  ∀ files2,
    "a.json" ∉ Worker.newFiles_of files2
                 (st_processed (Worker.processRequests widget_axios (state_of fs_a)).2).
Proof.
  apply (C6_listed_once_then_skipped widget_axios (state_of fs_a)
           {[ "a.json" := File (Json (requestData_of "a" widget_request 0)) ]}).
  - reflexivity.
  - vm_compute. lia.
  - vm_compute. left.
Defined.

(** C6 fails as stated. The record [a.json] is listed by a first tick, its
    lock cannot be taken, and after the tick it is still there and still
    [pending]; yet it is not a candidate of the next tick.  Even with the lock
    path free again the next tick does nothing at all, while the same tick
    started with an empty recently-seen set calls the target: whether the
    pending record is dispatched depends on the set. *)
Lemma C6_counterexample :
  let rq := (REQUESTS_DIR, "a.json") in
  let s0 := state_of fs_blocked in
  let s1 := (Worker.tick widget_axios s0).2 in
  let s1' := set_fs fs_a s1 in
  ("a.json" ∈ candidates s0 ∧
   (Worker.lockFile rq s0).1 = Ok false ∧
   fs_lookup rq (st_fs s1) = fs_lookup rq (st_fs s0) ∧
   status_of (fs_lookup rq (st_fs s1)) = Some (JStr "pending")) ∧
  ("a.json" ∉ candidates s1) ∧
  (Worker.tick widget_axios s1' = (Ok tt, s1') ∧
   status_of (fs_lookup rq (st_fs s1')) = Some (JStr "pending")) ∧
  (st_trace (Worker.tick widget_axios (set_processed [] s1')).2
   = [EvCall (requestData_of "a" widget_request 0) 0] ∧
   status_of (fs_lookup rq (st_fs (Worker.tick widget_axios (set_processed [] s1')).2))
   = Some (JStr "completed")).
Proof.
  repeat split; try (vm_compute; reflexivity).
  - vm_compute. left.
  - vm_compute. apply not_elem_of_nil.
Qed.

(** ** Names and lookups *)

Lemma append_inj_l (s a b : string) : s +:+ a = s +:+ b → a = b.
Proof. induction s as [|c s IH]; cbn; [done|]. intros [=]. auto. Qed.

Lemma append_cons c (s a : string) : String c s +:+ a = String c (s +:+ a).
Proof. done. Qed.

Lemma append_nil_r (s : string) : s +:+ EmptyString = s.
Proof. induction s as [|c s IH]; [done|]. by rewrite append_cons, IH. Qed.

Lemma append_ne_self (s a : string) : a ≠ EmptyString → s ≠ s +:+ a.
Proof.
  intros Ha Heq. apply Ha. apply (append_inj_l s).
  by rewrite <- Heq, append_nil_r.
Qed.

Lemma lock_of_ne p : lock_of p ≠ p.
Proof.
  destruct p as [d n]. unfold lock_of. cbn. intros [=Heq].
  by apply (append_ne_self n ".lock").
Qed.

Lemma done_of_ne p : done_of p ≠ p.
Proof.
  destruct p as [d n]. unfold done_of. cbn. intros [=Heq].
  by apply (append_ne_self n ".done").
Qed.

Lemma lock_of_ne_done_of p : lock_of p ≠ done_of p.
Proof.
  destruct p as [d n]. unfold lock_of, done_of. cbn. intros [=Heq].
  by apply append_inj_l in Heq.
Qed.

Lemma fs_dir_write d p x f : is_Some (fs_dir d (fs_write p x f)) ↔ is_Some (fs_dir d f).
Proof.
  unfold fs_write. destruct (fs_dir p.1 f) eqn:Hd; [|done].
  rewrite fs_dir_set_dir. case_decide; [|done]. subst. rewrite Hd.
  split; intros _; by eexists.
Qed.

Lemma fs_dir_remove d p f : is_Some (fs_dir d (fs_remove p f)) ↔ is_Some (fs_dir d f).
Proof.
  unfold fs_remove. destruct (fs_dir p.1 f) eqn:Hd; [|done].
  rewrite fs_dir_set_dir. case_decide; [|done]. subst. rewrite Hd.
  split; intros _; by eexists.
Qed.

Lemma fs_lookup_write_eq p x f :
  is_Some (fs_dir p.1 f) → fs_lookup p (fs_write p x f) = Some x.
Proof.
  intros [m Hd]. unfold fs_lookup, fs_write. rewrite Hd.
  rewrite fs_dir_set_dir, decide_True by done. apply lookup_insert_eq.
Qed.

Lemma fs_lookup_write_ne q p x f :
  q ≠ p → fs_lookup q (fs_write p x f) = fs_lookup q f.
Proof.
  intros Hq. unfold fs_lookup, fs_write.
  destruct (fs_dir p.1 f) as [m|] eqn:Hd; [|done].
  rewrite fs_dir_set_dir. case_decide as Hqp; [|done].
  rewrite Hqp, Hd. apply lookup_insert_ne.
  intros Hn. apply Hq. destruct p, q; simpl in *; congruence.
Qed.

Lemma fs_lookup_remove_eq p f : fs_lookup p (fs_remove p f) = None.
Proof.
  unfold fs_lookup, fs_remove. destruct (fs_dir p.1 f) as [m|] eqn:Hd.
  - rewrite fs_dir_set_dir, decide_True by done. apply lookup_delete_eq.
  - by rewrite Hd.
Qed.

Lemma fs_lookup_remove_ne q p f :
  q ≠ p → fs_lookup q (fs_remove p f) = fs_lookup q f.
Proof.
  intros Hq. unfold fs_lookup, fs_remove.
  destruct (fs_dir p.1 f) as [m|] eqn:Hd; [|done].
  rewrite fs_dir_set_dir. case_decide as Hqp; [|done].
  rewrite Hqp, Hd. apply lookup_delete_ne.
  intros Hn. apply Hq. destruct p, q; simpl in *; congruence.
Qed.

Lemma fs_lookup_is_Some_dir p f x :
  fs_lookup p f = Some x → is_Some (fs_dir p.1 f).
Proof. unfold fs_lookup. destruct (fs_dir p.1 f); [by eexists|done]. Qed.

(** The calls again, in terms of the store they leave. *)
Lemma writeFile_run p c s :
  is_Some (fs_dir p.1 (st_fs s)) → fs_lookup p (st_fs s) ≠ Some Directory →
  fs.writeFile p c s = (Ok tt, set_fs (fs_write p (File c) (st_fs s)) s).
Proof.
  intros [m Hd] Hn. unfold fs_lookup in Hn. rewrite Hd in Hn.
  rewrite (writeFile_ok p c s m Hd Hn). unfold fs_write. by rewrite Hd.
Qed.

Lemma writeFile_wx_run p c s :
  is_Some (fs_dir p.1 (st_fs s)) → fs_lookup p (st_fs s) = None →
  fs.writeFile_wx p c s = (Ok tt, set_fs (fs_write p (File c) (st_fs s)) s).
Proof.
  intros [m Hd] Hn. unfold fs_lookup in Hn. rewrite Hd in Hn.
  rewrite (writeFile_wx_ok p c s m Hd Hn). unfold fs_write. by rewrite Hd.
Qed.

Lemma unlink_run p s c :
  fs_lookup p (st_fs s) = Some (File c) →
  fs.unlink p s = (Ok tt, set_fs (fs_remove p (st_fs s)) s).
Proof.
  intros Hn. unfold fs_lookup in Hn.
  destruct (fs_dir p.1 (st_fs s)) as [m|] eqn:Hd; [|done].
  rewrite (unlink_ok p s m c Hd Hn). unfold fs_remove. by rewrite Hd.
Qed.

Lemma mkdir_run d s :
  is_Some (fs_dir d (st_fs s)) → fs.mkdir d s = (Ok tt, s).
Proof. intros [m Hd]. unfold fs.mkdir. by rewrite Hd. Qed.

Lemma Worker_lockFile_run p s :
  is_Some (fs_dir p.1 (st_fs s)) →
  fs_lookup (lock_of p) (st_fs s) ≠ Some Directory →
  Worker.lockFile p s
  = (Ok true, set_fs (fs_write (lock_of p) (File Empty) (st_fs s)) s).
Proof.
  intros Hd Hl. unfold Worker.lockFile. unfold_m.
  by rewrite writeFile_run.
Qed.

Lemma Worker_lockFile_fails p s :
  fs_lookup (lock_of p) (st_fs s) = Some Directory →
  Worker.lockFile p s = (Ok false, s).
Proof.
  intros Hl. unfold Worker.lockFile. unfold_m. by rewrite writeFile_EISDIR.
Qed.

Lemma Worker_unlockFile_run p s c :
  fs_lookup (lock_of p) (st_fs s) = Some (File c) →
  Worker.unlockFile p s
  = (Ok true, set_fs (fs_remove (lock_of p) (st_fs s)) s).
Proof.
  intros Hl. unfold Worker.unlockFile. unfold_m.
  by rewrite (unlink_run _ _ c).
Qed.

(** ** Retry and backoff *)

Lemma calls_cons_call rd k t : calls (EvCall rd k :: t) = S (calls t).
Proof. done. Qed.

Lemma calls_cons_sleep ms t : calls (EvSleep ms :: t) = calls t.
Proof. done. Qed.

Lemma delays_cons_call rd k t : delays (EvCall rd k :: t) = delays t.
Proof. done. Qed.

Lemma delays_cons_sleep ms t : delays (EvSleep ms :: t) = ms :: delays t.
Proof. done. Qed.

(** One turn of the loop. *)
Lemma retry_loop_step axios rd remaining retries lastError s :
  Worker.retry_loop axios rd (S remaining) retries lastError s
  = match axios rd retries with
    | Resolved status headers data =>
        (Ok (Some (status, headers, data), lastError), (emit (EvCall rd retries) s).2)
    | Rejected msg =>
        Worker.retry_loop axios rd remaining (S retries) (Some (JsError msg))
          (after_failure retries (emit (EvCall rd retries) s).2)
    end.
Proof.
  cbn [Worker.retry_loop]. unfold mbind at 1, M_bind, emit, after_failure.
  destruct (axios rd retries); [done|].
  by destruct (S retries <? Worker.MAX_RETRIES)%nat.
Qed.

(** Whatever the target does, a run of the retry loop returns, makes at most
    [remaining] calls, leaves the store alone, and waits for
    [1000 * retries] milliseconds after each failure but the last, with
    [retries] counting up: the waits never decrease. *)
Lemma retry_loop_trace axios rd remaining retries lastError s :
  let r := Worker.retry_loop axios rd remaining retries lastError s in
  ∃ t res,
    r.1 = Ok res ∧
    st_trace r.2 = (st_trace s ++ t)%list ∧
    (calls t ≤ remaining)%nat ∧
    StronglySorted Z.le (delays t) ∧
    Forall (λ d, 1000 * (Z.of_nat retries + 1) ≤ d) (delays t) ∧
    st_fs r.2 = st_fs s.
Proof.
  revert retries lastError s.
  induction remaining as [|remaining IH]; intros retries lastError s; cbn zeta.
  - exists [], (None, lastError). rewrite app_nil_r.
    split; [done|]. split; [done|]. split; [done|].
    split; [constructor|]. split; [constructor|done].
  - rewrite retry_loop_step. destruct (axios rd retries) as [st h d|msg].
    + exists [EvCall rd retries], (Some (st, h, d), lastError).
      split; [done|]. split; [done|].
      split; [change (calls [EvCall rd retries]) with 1%nat; lia|].
      split; [constructor|]. split; [constructor|done].
    + destruct (IH (S retries) (Some (JsError msg))
                  (after_failure retries ((emit (EvCall rd retries) s).2)))
        as (t & res & Hres & Htr & Hcalls & Hsorted & Hlow & Hfs).
      unfold after_failure in *.
      destruct (S retries <? Worker.MAX_RETRIES)%nat.
      * exists (EvCall rd retries :: EvSleep (1000 * Z.of_nat (S retries)) :: t), res.
        split; [done|]. split; [rewrite Htr; cbn; by rewrite <- !app_assoc|].
        rewrite calls_cons_call, calls_cons_sleep, delays_cons_call, delays_cons_sleep.
        split; [lia|]. split; [|split; [|by rewrite Hfs]].
        -- constructor; [done|]. eapply Forall_impl; [exact Hlow|]. cbn. intros; lia.
        -- constructor; [lia|]. eapply Forall_impl; [exact Hlow|]. cbn. intros; lia.
      * exists (EvCall rd retries :: t), res.
        split; [done|]. split; [rewrite Htr; cbn; by rewrite <- !app_assoc|].
        rewrite calls_cons_call, delays_cons_call.
        split; [lia|]. split; [done|]. split; [|by rewrite Hfs].
        eapply Forall_impl; [exact Hlow|]. cbn. intros; lia.
Qed.

(** Running a sequence one call at a time. *)
Lemma bind_ok {A C} (m : M A) (k : A → M C) s a s' :
  m s = (Ok a, s') → (m ≫= k) s = k a s'.
Proof. intros H. unfold mbind, M_bind. by rewrite H. Qed.

Lemma bind_throw {A C} (m : M A) (k : A → M C) s e s' :
  m s = (Throw e, s') → (m ≫= k) s = (Throw e, s').
Proof. intros H. unfold mbind, M_bind. by rewrite H. Qed.

Lemma retry_loop_exhausted axios rd s m0 m1 m2 :
  axios rd 0%nat = Rejected m0 → axios rd 1%nat = Rejected m1 →
  axios rd 2%nat = Rejected m2 →
  Worker.retry_loop axios rd Worker.MAX_RETRIES 0 None s
  = (Ok (None, Some (JsError m2)),
     mkState (st_fs s) (st_now s + 3000)
       (st_trace s ++ [EvCall rd 0; EvSleep 1000; EvCall rd 1; EvSleep 2000;
                       EvCall rd 2])
       (st_processed s) (st_sem s)).
Proof.
  intros H0 H1 H2. unfold Worker.MAX_RETRIES.
  rewrite retry_loop_step, H0, retry_loop_step, H1, retry_loop_step, H2.
  cbn. rewrite <- !app_assoc. cbn. do 2 f_equal. lia.
Qed.

#[local] Arguments fs_write : simpl never.
#[local] Arguments fs_remove : simpl never.
#[local] Arguments fs_lookup : simpl never.
#[local] Arguments fs_dir : simpl never.

Lemma process_exhausted axios rq s l m0 m1 m2 :
  fs_lookup rq (st_fs s) = Some (File (Json (JObj l))) →
  assoc_get "status" l = Some (JStr "pending") →
  axios (JObj l) 0%nat = Rejected m0 → axios (JObj l) 1%nat = Rejected m1 →
  axios (JObj l) 2%nat = Rejected m2 →
  Worker.process axios rq s
  = (Throw (JsError m2),
     mkState (st_fs s) (st_now s + 3000)
       (st_trace s ++ [EvCall (JObj l) 0; EvSleep 1000; EvCall (JObj l) 1;
                       EvSleep 2000; EvCall (JObj l) 2])
       (st_processed s) (st_sem s)).
Proof.
  intros Hrq Hst H0 H1 H2. unfold Worker.process.
  erewrite bind_ok; [|by apply readFile_ok].
  erewrite bind_ok; [|reflexivity].
  erewrite bind_ok; [|reflexivity].
  rewrite Hst. cbn [Worker.is_pending negb String.eqb Ascii.eqb Bool.eqb].
  erewrite bind_ok; [|by apply (retry_loop_exhausted _ _ _ m0 m1 m2)].
  reflexivity.
Qed.

Lemma try_catch_ok {A} (m : M A) h s a s' :
  m s = (Ok a, s') → try_catch m h s = (Ok a, s').
Proof. intros H. unfold try_catch. by rewrite H. Qed.

Lemma try_catch_throw {A} (m : M A) h s e s' :
  m s = (Throw e, s') → try_catch m h s = h e s'.
Proof. intros H. unfold try_catch. by rewrite H. Qed.

Lemma path_dir_ne (d d' : dir) (n n' : string) : d ≠ d' → (d, n) ≠ (d', n').
Proof. congruence. Qed.

Ltac path_ne :=
  first [ assumption | apply not_eq_sym; assumption
        | apply lock_of_ne | apply done_of_ne | apply lock_of_ne_done_of
        | apply not_eq_sym;
          first [ apply lock_of_ne | apply done_of_ne | apply lock_of_ne_done_of ]
        | apply path_dir_ne; discriminate
        | let Heq := fresh in
          intros Heq; apply (f_equal fst) in Heq; cbn in Heq; discriminate ].

Ltac fs_simp :=
  repeat first
    [ rewrite fs_lookup_write_eq
    | rewrite fs_lookup_remove_eq
    | rewrite fs_lookup_write_ne by path_ne
    | rewrite fs_lookup_remove_ne by path_ne
    | rewrite fs_dir_write
    | rewrite fs_dir_remove ].

Lemma on_error_run file rq e s l :
  fs_lookup rq (st_fs s) = Some (File (Json (JObj l))) →
  rq.1 = REQUESTS_DIR →
  is_Some (fs_dir RESPONSES_DIR (st_fs s)) →
  let rs := (RESPONSES_DIR, replace ".json" EmptyString file +:+ ".json") in
  fs_lookup rs (st_fs s) ≠ Some Directory →
  Worker.on_error file rq e s
  = (Ok tt,
     set_fs (fs_write rq (File (Json (JObj (assoc_set "status" (JStr "error") l))))
               (fs_write rs (File (Json (failure_response (message e) (st_now s))))
                  (st_fs s))) s).
Proof.
  intros Hrq Hdir Hrs rs Hnd. unfold Worker.on_error. fold rs.
  erewrite bind_ok; [|reflexivity].
  erewrite bind_ok; [|by apply writeFile_run].
  assert (rq ≠ rs) as Hne by (destruct rq; cbn in *; subst; by apply path_dir_ne).
  erewrite bind_ok; [|apply readFile_ok; cbn; fs_simp; exact Hrq].
  erewrite bind_ok; [|reflexivity].
  erewrite bind_ok; [|reflexivity].
  rewrite writeFile_run; cbn; fs_simp.
  - by destruct s.
  - by eapply fs_lookup_is_Some_dir.
  - by rewrite Hrq.
Qed.

Lemma claim_exhausted axios file s l m0 m1 m2 :
  let rq := (REQUESTS_DIR, file) in
  let rs := (RESPONSES_DIR, replace ".json" EmptyString file +:+ ".json") in
  fs_lookup rq (st_fs s) = Some (File (Json (JObj l))) →
  assoc_get "status" l = Some (JStr "pending") →
  fs_lookup (lock_of rq) (st_fs s) ≠ Some Directory →
  is_Some (fs_dir RESPONSES_DIR (st_fs s)) →
  fs_lookup rs (st_fs s) ≠ Some Directory →
  axios (JObj l) 0%nat = Rejected m0 → axios (JObj l) 1%nat = Rejected m1 →
  axios (JObj l) 2%nat = Rejected m2 →
  Worker.claim axios file s
  = (Ok tt,
     mkState
       (fs_remove (lock_of rq)
          (fs_write rq (File (Json (JObj (assoc_set "status" (JStr "error") l))))
             (fs_write rs (File (Json (failure_response m2 (st_now s + 3000))))
                (fs_write (lock_of rq) (File Empty) (st_fs s)))))
       (st_now s + 3000)
       (st_trace s ++ [EvCall (JObj l) 0; EvSleep 1000; EvCall (JObj l) 1;
                       EvSleep 2000; EvCall (JObj l) 2])
       (st_processed s) (st_sem s)).
Proof.
  intros rq rs Hrq Hst Hlock Hdir Hrs H0 H1 H2.
  assert (is_Some (fs_dir REQUESTS_DIR (st_fs s))) as Hrd
    by (by apply (fs_lookup_is_Some_dir rq _ _ Hrq)).
  assert (rs ≠ lock_of rq) as Hne1 by (by apply path_dir_ne).
  unfold Worker.claim. fold rq.
  erewrite bind_ok; [|by apply Worker_lockFile_run].
  cbn [negb]. unfold try_finally.
  erewrite try_catch_throw;
    [|apply (process_exhausted _ _ _ l m0 m1 m2); cbn; fs_simp; done].
  rewrite (on_error_run _ _ _ _ l); [|cbn; fs_simp; done..].
  erewrite Worker_unlockFile_run; [done|].
  cbn. fs_simp; [done|done].
Qed.

Lemma assoc_get_set_eq k v l : assoc_get k (assoc_set k v l) = Some v.
Proof.
  induction l as [|[k' v'] l IH]; cbn.
  - by rewrite String.eqb_refl.
  - destruct (String.eqb k k') eqn:Hk; cbn; [by rewrite String.eqb_refl|].
    by rewrite Hk.
Qed.

(** C5. For every target, the retry loop returns after at most
    [MAX_RETRIES] calls and its waits never decrease.  When the three calls
    made for a pending Request Record all fail at transport level, the task
    makes exactly [MAX_RETRIES] calls, waits 1000 ms and then 2000 ms between
    them, and returns normally having written a Response Record with
    [statusCode] 500 whose body carries the message of the last failure; the
    record's status is [error] and its lock is released. *)
Theorem C5_retry_exhaustion_writes_failure :
  (∀ axios rd s,
     let r := Worker.retry_loop axios rd Worker.MAX_RETRIES 0 None s in
     ∃ t res, r.1 = Ok res ∧ st_trace r.2 = (st_trace s ++ t)%list ∧
              (calls t ≤ Worker.MAX_RETRIES)%nat ∧ Sorted Z.le (delays t)) ∧
  (∀ axios file s l m0 m1 m2,
     let rq := (REQUESTS_DIR, file) in
     let rs := (RESPONSES_DIR, replace ".json" EmptyString file +:+ ".json") in
     fs_lookup rq (st_fs s) = Some (File (Json (JObj l))) →
     assoc_get "status" l = Some (JStr "pending") →
     fs_lookup (lock_of rq) (st_fs s) ≠ Some Directory →
     is_Some (fs_dir RESPONSES_DIR (st_fs s)) →
     fs_lookup rs (st_fs s) ≠ Some Directory →
     axios (JObj l) 0%nat = Rejected m0 →
     axios (JObj l) 1%nat = Rejected m1 →
     axios (JObj l) 2%nat = Rejected m2 →
     let r := Worker.task axios file s in
     r.1 = Ok tt ∧
     (∃ t, st_trace r.2 = (st_trace s ++ t)%list ∧
           calls t = Worker.MAX_RETRIES ∧ delays t = [1000; 2000]) ∧
     fs_lookup rs (st_fs r.2)
     = Some (File (Json (failure_response m2 (st_now r.2)))) ∧
     status_of (fs_lookup rq (st_fs r.2)) = Some (JStr "error") ∧
     fs_lookup (lock_of rq) (st_fs r.2) = None).
Proof.
  split.
  - intros axios rd s r.
    destruct (retry_loop_trace axios rd Worker.MAX_RETRIES 0 None s)
      as (t & res & Hres & Htr & Hcalls & Hsorted & _).
    exists t, res. repeat split; try done. by apply StronglySorted_Sorted.
  - intros axios file s l m0 m1 m2 rq rs Hrq Hst Hlock Hdir Hrs H0 H1 H2 r.
    assert (rs ≠ lock_of rq) as Hne1 by (by apply path_dir_ne).
    assert (rs ≠ rq) as Hne2 by (by apply path_dir_ne).
    assert (is_Some (fs_dir RESPONSES_DIR
              (fs_write (lock_of rq) (File Empty) (st_fs s)))) as Hdir'
      by (by apply fs_dir_write).
    assert (is_Some (fs_dir REQUESTS_DIR (st_fs s))) as Hrd
      by (by apply (fs_lookup_is_Some_dir rq _ _ Hrq)).
    subst r. unfold Worker.task, try_finally.
    rewrite (claim_exhausted axios file s l m0 m1 m2) by done.
    cbn [fst snd Worker.sem_release st_fs st_trace st_now set_sem].
    split; [done|]. split; [eexists; split; [reflexivity|done]|].
    fold rq rs. split; [|split].
    + fs_simp; [done|done].
    + fs_simp; [|exact Hrd].
      cbn. by rewrite assoc_get_set_eq.
    + by fs_simp.
Qed.

Lemma C5_witness :
  let r := Worker.task dead_axios "a.json" (state_of fs_a) in
  r.1 = Ok tt ∧
  fs_lookup (RESPONSES_DIR, "a.json") (st_fs r.2)
  = Some (File (Json (failure_response "connect ECONNREFUSED #2" 3000))).
Proof.
  destruct (proj2 C5_retry_exhaustion_writes_failure dead_axios "a.json"
              (state_of fs_a) (request_fields "a" widget_request 0)
              "connect ECONNREFUSED #0" "connect ECONNREFUSED #1"
              "connect ECONNREFUSED #2")
    as (Hok & _ & Hresp & _); try reflexivity; try (vm_compute; congruence).
  - by eexists.
  - split; [exact Hok|exact Hresp].
Defined.

(** ** What a computation may touch *)

Create HintDb frame discriminated.

Lemma set_fs_set_fs f g s : set_fs f (set_fs g s) = set_fs f s.
Proof. done. Qed.

Lemma fs_only_step s s1 s2 :
  s1 = set_fs (st_fs s1) s → s2 = set_fs (st_fs s2) s1 → s2 = set_fs (st_fs s2) s.
Proof. destruct s, s1, s2. unfold set_fs. cbn. congruence. Qed.

Section Frame.
Context (P : fpath → Prop).

Lemma fs_only_ret {A} (a : A) : fs_only (mret a).
Proof. intros s. by destruct s. Qed.

Lemma fs_only_throw {A} e : fs_only (throw e : M A).
Proof. intros s. by destruct s. Qed.

Lemma fs_only_of_result {A} (r : result A) : fs_only (of_result r).
Proof. intros s. by destruct s. Qed.

Lemma fs_only_bind {A C} (m : M A) (f : A → M C) :
  fs_only m → (∀ a, fs_only (f a)) → fs_only (m ≫= f).
Proof.
  intros Hm Hf s. unfold mbind, M_bind. specialize (Hm s).
  destruct (m s) as [[a|e] s']; cbn in *; [|done].
  apply (fs_only_step s s'); [exact Hm|apply Hf].
Qed.

Lemma fs_only_try_catch {A} (m : M A) h :
  fs_only m → (∀ e, fs_only (h e)) → fs_only (try_catch m h).
Proof.
  intros Hm Hh s. unfold try_catch. specialize (Hm s).
  destruct (m s) as [[a|e] s']; cbn in *; [done|].
  apply (fs_only_step s s'); [exact Hm|apply Hh].
Qed.

Lemma fs_only_try_finally {A C} (m : M A) (f : M C) :
  fs_only m → fs_only f → fs_only (try_finally m f).
Proof.
  intros Hm Hf s. unfold try_finally. specialize (Hm s).
  destruct (m s) as [r s']. specialize (Hf s').
  destruct (f s') as [[c|e] s'']; cbn in *;
    apply (fs_only_step s s'); done.
Qed.

Lemma fs_only_writeFile p c : fs_only (fs.writeFile p c).
Proof.
  intros s. unfold fs.writeFile, put_fs.
  destruct (fs_dir p.1 (st_fs s)) as [m|]; [|by destruct s].
  destruct (m !! p.2) as [[]|]; by destruct s.
Qed.

Lemma fs_only_writeFile_wx p c : fs_only (fs.writeFile_wx p c).
Proof.
  intros s. unfold fs.writeFile_wx, put_fs.
  destruct (fs_dir p.1 (st_fs s)) as [m|]; [|by destruct s].
  destruct (m !! p.2) as [[]|]; by destruct s.
Qed.

Lemma fs_only_readFile p : fs_only (fs.readFile p).
Proof.
  intros s. unfold fs.readFile.
  destruct (fs_lookup p (st_fs s)) as [[]|]; by destruct s.
Qed.

Lemma fs_only_unlink p : fs_only (fs.unlink p).
Proof.
  intros s. unfold fs.unlink, put_fs.
  destruct (fs_dir p.1 (st_fs s)) as [m|]; [|by destruct s].
  destruct (m !! p.2) as [[]|]; by destruct s.
Qed.

Lemma fs_only_access p : fs_only (fs.access p).
Proof.
  intros s. unfold fs.access. destruct (fs_lookup p (st_fs s)); by destruct s.
Qed.

Lemma fs_only_mkdir d : fs_only (fs.mkdir d).
Proof.
  intros s. unfold fs.mkdir, put_fs. destruct (fs_dir d (st_fs s)); by destruct s.
Qed.

Lemma touches_ret {A} (a : A) : touches P (mret a).
Proof. done. Qed.

Lemma touches_throw {A} e : touches P (throw e : M A).
Proof. done. Qed.

Lemma touches_of_result {A} (r : result A) : touches P (of_result r).
Proof. done. Qed.

Lemma touches_bind {A C} (m : M A) (f : A → M C) :
  touches P m → (∀ a, touches P (f a)) → touches P (m ≫= f).
Proof.
  intros Hm Hf s q Hq. unfold mbind, M_bind. specialize (Hm s q Hq).
  destruct (m s) as [[a|e] s']; cbn in *; [|done]. by rewrite Hf.
Qed.

Lemma touches_try_catch {A} (m : M A) h :
  touches P m → (∀ e, touches P (h e)) → touches P (try_catch m h).
Proof.
  intros Hm Hh s q Hq. unfold try_catch. specialize (Hm s q Hq).
  destruct (m s) as [[a|e] s']; cbn in *; [done|]. by rewrite Hh.
Qed.

Lemma touches_try_finally {A C} (m : M A) (f : M C) :
  touches P m → touches P f → touches P (try_finally m f).
Proof.
  intros Hm Hf s q Hq. unfold try_finally. specialize (Hm s q Hq).
  destruct (m s) as [r s']. specialize (Hf s' q Hq).
  destruct (f s') as [[c|e] s'']; cbn in *; congruence.
Qed.

Lemma touches_writeFile p c : P p → touches P (fs.writeFile p c).
Proof.
  intros Hp s q Hq. assert (q ≠ p) as Hne by (by intros ->).
  unfold fs.writeFile, put_fs.
  destruct (fs_dir p.1 (st_fs s)) as [m|] eqn:Hd; [|done].
  destruct (m !! p.2) as [[]|]; try done; cbn;
    rewrite <- (fs_lookup_write_ne q p (File c) (st_fs s) Hne);
    unfold fs_write; by rewrite Hd.
Qed.

Lemma touches_writeFile_wx p c : P p → touches P (fs.writeFile_wx p c).
Proof.
  intros Hp s q Hq. assert (q ≠ p) as Hne by (by intros ->).
  unfold fs.writeFile_wx, put_fs.
  destruct (fs_dir p.1 (st_fs s)) as [m|] eqn:Hd; [|done].
  destruct (m !! p.2) as [[]|]; try done; cbn;
    rewrite <- (fs_lookup_write_ne q p (File c) (st_fs s) Hne);
    unfold fs_write; by rewrite Hd.
Qed.

Lemma touches_unlink p : P p → touches P (fs.unlink p).
Proof.
  intros Hp s q Hq. apply unlink_frame. by intros ->.
Qed.

Lemma touches_readFile p : touches P (fs.readFile p).
Proof.
  intros s q _. unfold fs.readFile. by destruct (fs_lookup p (st_fs s)) as [[]|].
Qed.

Lemma touches_access p : touches P (fs.access p).
Proof.
  intros s q _. unfold fs.access. by destruct (fs_lookup p (st_fs s)).
Qed.

Lemma touches_mkdir d : touches P (fs.mkdir d).
Proof.
  intros s q _. unfold fs.mkdir, put_fs.
  destruct (fs_dir d (st_fs s)) as [m|] eqn:Hd; [done|]. cbn.
  unfold fs_lookup. rewrite fs_dir_set_dir. case_decide as Hqd; [|done].
  rewrite Hqd, Hd. apply lookup_empty.
Qed.

Lemma touches_Date_now : touches P Date_now.
Proof. done. Qed.

Lemma touches_emit e : touches P (emit e).
Proof. done. Qed.

Lemma touches_sleep ms : touches P (sleep ms).
Proof. done. Qed.

End Frame.

#[global] Hint Resolve fs_only_ret fs_only_throw fs_only_of_result
  fs_only_writeFile fs_only_writeFile_wx fs_only_readFile fs_only_unlink
  fs_only_access fs_only_mkdir : frame.
#[global] Hint Resolve touches_ret touches_throw touches_of_result
  touches_readFile touches_access touches_mkdir touches_Date_now touches_emit
  touches_sleep : frame.

Ltac frame_step side :=
  first
    [ apply fs_only_bind; [|intros ?]
    | apply fs_only_try_catch; [|intros ?]
    | apply fs_only_try_finally
    | apply touches_bind; [|intros ?]
    | apply touches_try_catch; [|intros ?]
    | apply touches_try_finally
    | apply touches_writeFile; solve [side]
    | apply touches_writeFile_wx; solve [side]
    | apply touches_unlink; solve [side]
    | match goal with
      | |- fs_only (match ?x with _ => _ end) => destruct x
      | |- fs_only (if ?b then _ else _) => destruct b
      | |- touches _ (match ?x with _ => _ end) => destruct x
      | |- touches _ (if ?b then _ else _) => destruct b
      end
    | solve [eauto with frame] ].

Ltac solve_frame side := repeat (frame_step side).

Lemma fs_only_Local_attempt rs : fs_only (Local.attempt rs).
Proof.
  unfold Local.attempt, Local.lockFile, Local.unlockFile, Local.exists_, catch_default.
  solve_frame idtac.
Qed.

Lemma touches_Local_attempt rs : touches (λ q, q = lock_of rs) (Local.attempt rs).
Proof.
  unfold Local.attempt, Local.lockFile, Local.unlockFile, Local.exists_, catch_default.
  solve_frame ltac:(reflexivity).
Qed.

(** ** Waiting for a response that does not come *)

Lemma Local_exists_absent p s :
  fs_lookup p (st_fs s) = None → Local.exists_ p s = (Ok false, s).
Proof.
  intros Hp. unfold Local.exists_, fs.access. unfold_m. by rewrite Hp.
Qed.

Lemma Local_exists_total p s : ∃ b, Local.exists_ p s = (Ok b, s).
Proof.
  unfold Local.exists_, fs.access. unfold_m.
  destruct (fs_lookup p (st_fs s)); by eexists.
Qed.

Lemma Local_unlockFile_total p s : ∃ b s', Local.unlockFile p s = (Ok b, s').
Proof.
  unfold Local.unlockFile. unfold_m.
  destruct (fs.unlink (lock_of p) s) as [[[]|[]] s']; by eexists _, _.
Qed.

(** Without its marker a response is not even looked at. *)
Lemma Local_attempt_no_marker rs s :
  fs_lookup (done_of rs) (st_fs s) = None → (Local.attempt rs s).1 = Ok None.
Proof.
  intros Hdone. unfold Local.attempt, try_catch.
  destruct (fs_lookup (lock_of rs) (st_fs s)) as [x|] eqn:Hlock.
  - erewrite bind_ok; [|by eapply Local_lockFile_held]. done.
  - destruct (Local_lockFile_free rs s Hlock) as (s1 & Hrun & _ & Hframe).
    erewrite bind_ok; [|exact Hrun]. cbn [negb]. unfold try_finally.
    erewrite bind_ok; cycle 1.
    { apply Local_exists_absent. rewrite Hframe; [done|]. apply not_eq_sym, lock_of_ne_done_of. }
    destruct (Local_exists_total rs s1) as [b Hb].
    erewrite bind_ok; [|exact Hb]. cbn [andb]. unfold mret, M_ret.
    destruct (Local_unlockFile_total rs s1) as (b' & s2 & ->). done.
Qed.

Lemma io_total_nonneg io_time from count :
  (∀ k, 0 ≤ io_time k) → 0 ≤ io_total io_time from count.
Proof.
  intros Hio. revert from. induction count as [|count IH]; intros from; cbn; [done|].
  specialize (Hio from). specialize (IH (S from)). lia.
Qed.

Lemma Local_wait_loop_timeout world io_time rs remaining attempts s :
  fs_lookup (done_of rs) (st_fs s) = None →
  (∀ k f, fs_lookup (done_of rs) f = None → fs_lookup (done_of rs) (world k f) = None) →
  let r := Local.wait_loop world io_time rs remaining attempts s in
  r.1 = Ok None ∧
  st_now r.2 = st_now s + Local.POLL_INTERVAL * Z.of_nat remaining
               + io_total io_time attempts remaining ∧
  st_trace r.2 = (st_trace s ++ replicate remaining (EvSleep Local.POLL_INTERVAL))%list.
Proof.
  intros Hdone Hworld. revert attempts s Hdone.
  induction remaining as [|remaining IH]; intros attempts s Hdone.
  - cbn. rewrite app_nil_r. split; [done|]. split; [lia|done].
  - cbn zeta. cbn [Local.wait_loop].
    pose proof (Local_attempt_no_marker rs s Hdone) as Hnone.
    pose proof (fs_only_Local_attempt rs s) as Honly.
    pose proof (touches_Local_attempt rs s (done_of rs)) as Hframe.
    destruct (Local.attempt rs s) as [r1 s1] eqn:Hatt.
    cbn in Hnone, Honly, Hframe. subst r1.
    erewrite bind_ok; [|exact Hatt].
    unfold Local.pause, elapse, sleep, modify, mbind, M_bind.
    match goal with |- context [Local.wait_loop _ _ _ _ _ ?s2] =>
      destruct (IH (S attempts) s2) as (H1 & H2 & H3)
    end.
    { cbn. apply Hworld. rewrite Hframe; [done|]. apply not_eq_sym, lock_of_ne_done_of. }
    split; [done|]. rewrite H2, H3. cbn [st_now st_trace io_total].
    rewrite Honly. cbn [st_now st_trace set_fs]. split; [lia|].
    by rewrite <- app_assoc.
Qed.

Lemma LocalOld_lockFile_total p s : ∃ b s', LocalOld.lockFile p s = (Ok b, s').
Proof.
  unfold LocalOld.lockFile. unfold_m.
  destruct (fs.writeFile (lock_of p) Empty s) as [[[]|e] s']; by eexists _, _.
Qed.

Lemma LocalOld_unlockFile_total p s : ∃ b s', LocalOld.unlockFile p s = (Ok b, s').
Proof.
  unfold LocalOld.unlockFile. unfold_m.
  destruct (fs.unlink (lock_of p) s) as [[[]|e] s']; by eexists _, _.
Qed.

Lemma touches_LocalOld_lockFile p : touches (λ q, q = lock_of p) (LocalOld.lockFile p).
Proof. unfold LocalOld.lockFile. solve_frame ltac:(reflexivity). Qed.

Lemma touches_LocalOld_unlockFile p : touches (λ q, q = lock_of p) (LocalOld.unlockFile p).
Proof. unfold LocalOld.unlockFile. solve_frame ltac:(reflexivity). Qed.

Lemma fs_only_LocalOld_attempt rq rs : fs_only (LocalOld.attempt rq rs).
Proof.
  unfold LocalOld.attempt, LocalOld.lockFile, LocalOld.unlockFile, catch_default.
  solve_frame idtac.
Qed.

(** Without a Response Record the earlier waiter finds nothing and leaves
    the record absent. *)
Lemma LocalOld_attempt_absent rq rs s :
  fs_lookup rs (st_fs s) = None →
  let r := LocalOld.attempt rq rs s in
  r.1 = Ok None ∧ fs_lookup rs (st_fs r.2) = None.
Proof.
  intros Habs. unfold LocalOld.attempt, try_catch.
  destruct (LocalOld_lockFile_total rs s) as (b & s1 & Hlock).
  pose proof (touches_LocalOld_lockFile rs s rs (not_eq_sym (lock_of_ne rs))) as H1.
  rewrite Hlock in H1. cbn in H1.
  erewrite bind_ok; [|exact Hlock].
  destruct b; cbn [negb]; [|unfold mret, M_ret; cbn [fst snd]; by rewrite H1].
  unfold try_finally.
  erewrite bind_throw; [|apply readFile_ENOENT; by rewrite H1].
  destruct (LocalOld_unlockFile_total rs s1) as (b' & s2 & Hunlock).
  pose proof (touches_LocalOld_unlockFile rs s1 rs (not_eq_sym (lock_of_ne rs))) as H2.
  rewrite Hunlock in *. unfold mret, M_ret. cbn [fst snd] in *. by rewrite H2, H1.
Qed.

Lemma LocalOld_wait_loop_timeout world io_time rq rs remaining attempts s :
  fs_lookup rs (st_fs s) = None →
  (∀ k f, fs_lookup rs f = None → fs_lookup rs (world k f) = None) →
  let r := LocalOld.wait_loop world io_time rq rs remaining attempts s in
  r.1 = Ok None ∧
  st_now r.2 = st_now s + LocalOld.POLL_INTERVAL * Z.of_nat remaining
               + io_total io_time attempts remaining ∧
  st_trace r.2 = (st_trace s ++ replicate remaining (EvSleep LocalOld.POLL_INTERVAL))%list.
Proof.
  intros Habs Hworld. revert attempts s Habs.
  induction remaining as [|remaining IH]; intros attempts s Habs.
  - cbn. rewrite app_nil_r. split; [done|]. split; [lia|done].
  - cbn zeta. cbn [LocalOld.wait_loop].
    destruct (LocalOld_attempt_absent rq rs s Habs) as [Hnone Habs'].
    pose proof (fs_only_LocalOld_attempt rq rs s) as Honly.
    destruct (LocalOld.attempt rq rs s) as [r1 s1] eqn:Hatt.
    cbn in Hnone, Honly, Habs'. subst r1.
    erewrite bind_ok; [|exact Hatt].
    unfold LocalOld.pause, elapse, sleep, modify, mbind, M_bind.
    match goal with |- context [LocalOld.wait_loop _ _ _ _ _ _ ?s2] =>
      destruct (IH (S attempts) s2) as (H1 & H2 & H3)
    end.
    { cbn. by apply Hworld. }
    split; [done|]. rewrite H2, H3. cbn [st_now st_trace io_total].
    rewrite Honly. cbn [st_now st_trace set_fs]. split; [lia|].
    by rewrite <- app_assoc.
Qed.

Lemma submit_run requestId req s :
  let rq := (REQUESTS_DIR, requestId +:+ ".json") in
  is_Some (fs_dir REQUESTS_DIR (st_fs s)) →
  fs_lookup rq (st_fs s) ≠ Some Directory →
  submit requestId req s
  = (Ok rq, set_fs (fs_write rq (File (Json (requestData_of requestId req (st_now s))))
                      (st_fs s)) s).
Proof.
  intros rq Hd Hn. unfold submit. fold rq.
  erewrite bind_ok; [|reflexivity].
  erewrite bind_ok; [|by apply writeFile_run]. done.
Qed.

(** C7, as the code has it. On a shared folder that accepts the Request
    Record, if no Response Record appears (earlier iteration) or no Completion
    Marker appears (marker-aware iteration) for the id, the handler returns
    normally with status 504 and an [elapsedTime], after exactly
    [MAX_ATTEMPTS] turns of the polling loop, each followed by one wait of
    [POLL_INTERVAL].  The [elapsedTime] is the deadline
    [POLL_INTERVAL * MAX_ATTEMPTS] (30000 ms) plus the time that the store
    calls of the turns took: never less than the deadline. *)
Theorem C7_timeout_after_all_attempts world io_time express requestId req s :
  let rq := (REQUESTS_DIR, requestId +:+ ".json") in
  let rs := (RESPONSES_DIR, requestId +:+ ".json") in
  let deadline := LocalOld.POLL_INTERVAL * Z.of_nat LocalOld.MAX_ATTEMPTS in
  let elapsed := deadline + io_total io_time 0 LocalOld.MAX_ATTEMPTS in
  is_Some (fs_dir REQUESTS_DIR (st_fs s)) →
  fs_lookup rq (st_fs s) ≠ Some Directory →
  (∀ k, 0 ≤ io_time k) →
  deadline = 30000 ∧ deadline ≤ elapsed ∧
  (fs_lookup rs (st_fs s) = None →
   (∀ k f, fs_lookup rs f = None → fs_lookup rs (world k f) = None) →
   let r := LocalOld.app_all world io_time express requestId req s in
   r.1 = Ok (gateway_timeout elapsed) ∧
   st_trace r.2
   = (st_trace s ++ replicate LocalOld.MAX_ATTEMPTS (EvSleep LocalOld.POLL_INTERVAL))%list) ∧
  (fs_lookup (done_of rs) (st_fs s) = None →
   (∀ k f, fs_lookup (done_of rs) f = None → fs_lookup (done_of rs) (world k f) = None) →
   let r := Local.app_all world io_time express requestId req s in
   r.1 = Ok (gateway_timeout elapsed) ∧
   st_trace r.2
   = (st_trace s ++ replicate Local.MAX_ATTEMPTS (EvSleep Local.POLL_INTERVAL))%list).
Proof.
  intros rq rs deadline elapsed Hd Hn Hio.
  assert (rs ≠ rq) as Hne by (by apply path_dir_ne).
  assert (done_of rs ≠ rq) as Hne' by (by apply path_dir_ne).
  split; [done|]. split.
  { pose proof (io_total_nonneg io_time 0 LocalOld.MAX_ATTEMPTS Hio). unfold elapsed. lia. }
  split.
  - intros Habs Hworld r. subst r. unfold LocalOld.app_all, try_catch. fold rq rs.
    erewrite bind_ok; [|by apply submit_run].
    erewrite bind_ok; [|reflexivity].
    set (s1 := set_fs _ s).
    destruct (LocalOld_wait_loop_timeout world io_time rq rs LocalOld.MAX_ATTEMPTS 0 s1)
      as (H1 & H2 & H3);
      [unfold s1; cbn [st_fs set_fs]; by rewrite fs_lookup_write_ne|done|].
    destruct (LocalOld.wait_loop world io_time rq rs LocalOld.MAX_ATTEMPTS 0 s1)
      as [r1 s2] eqn:Hloop.
    cbn [fst snd] in H1, H2, H3. subst r1.
    erewrite bind_ok; [|exact Hloop].
    unfold Date_now, mbind, M_bind, mret, M_ret. cbn [fst snd].
    split; [|done]. do 2 f_equal. rewrite H2. unfold s1, elapsed, deadline.
    cbn [st_now set_fs]. lia.
  - intros Habs Hworld r. subst r. unfold Local.app_all, try_catch. fold rq rs.
    erewrite bind_ok; [|by apply submit_run].
    erewrite bind_ok; [|reflexivity].
    set (s1 := set_fs _ s).
    destruct (Local_wait_loop_timeout world io_time rs Local.MAX_ATTEMPTS 0 s1)
      as (H1 & H2 & H3);
      [unfold s1; cbn [st_fs set_fs]; by rewrite fs_lookup_write_ne|done|].
    destruct (Local.wait_loop world io_time rs Local.MAX_ATTEMPTS 0 s1)
      as [r1 s2] eqn:Hloop.
    cbn [fst snd] in H1, H2, H3. subst r1.
    erewrite bind_ok; [|exact Hloop].
    unfold Date_now, mbind, M_bind, mret, M_ret. cbn [fst snd].
    split; [|done]. do 2 f_equal. rewrite H2. unfold s1, elapsed, deadline.
    cbn [st_now set_fs].
    change Local.POLL_INTERVAL with LocalOld.POLL_INTERVAL.
    change Local.MAX_ATTEMPTS with LocalOld.MAX_ATTEMPTS. lia.
Qed.

Lemma C7_witness :
  let r := Local.app_all (λ _ f, f) (λ _, 0) (λ _, None) "a" widget_request (state_of empty_fs) in
  r.1 = Ok (gateway_timeout 30000).
Proof.
  destruct (C7_timeout_after_all_attempts (λ _ f, f) (λ _, 0) (λ _, None) "a" widget_request
              (state_of empty_fs)) as (_ & _ & _ & Hnew).
  - by eexists.
  - vm_compute. congruence.
  - intros k. lia.
  - destruct Hnew as [Hreply _]; [reflexivity|intros k f Hf; exact Hf|].
    exact Hreply.
Defined.

(** C7 fails as stated. When every turn of the polling loop spends one
    millisecond in its store calls, the handler of either iteration answers
    504 with an [elapsedTime] of 30300 ms, more than one poll interval past
    the deadline of 30000 ms. *)
Lemma C7_counterexample :
  let old := LocalOld.app_all (λ _ f, f) (λ _, 1) (λ _, None) "a" widget_request (state_of empty_fs) in
  let new := Local.app_all (λ _ f, f) (λ _, 1) (λ _, None) "a" widget_request (state_of empty_fs) in
  old.1 = Ok (gateway_timeout 30300) ∧
  new.1 = Ok (gateway_timeout 30300) ∧
  ¬ (30000 - LocalOld.POLL_INTERVAL ≤ 30300 ≤ 30000 + LocalOld.POLL_INTERVAL).
Proof.
  split; [vm_compute; reflexivity|]. split; [vm_compute; reflexivity|].
  unfold LocalOld.POLL_INTERVAL. lia.
Qed.

(** ** The status of a Request Record *)

Lemma status_step_trans x y z : status_step x y → status_step y z → status_step x z.
Proof.
  intros [->|l v Hx Hp Hv Hy] [->|l' v' Hy' Hp' Hv' Hz].
  - by apply status_same.
  - by apply (status_final _ _ l' v').
  - by apply (status_final _ _ l v).
  - rewrite Hy in Hy'. injection Hy' as <-.
    rewrite assoc_get_set_eq in Hp'. destruct Hv as [->| ->]; discriminate.
Qed.

Lemma endsWith_append s suffix : endsWith (s +:+ suffix) suffix = true.
Proof.
  induction s as [|c s IH].
  - change (EmptyString +:+ suffix) with suffix.
    destruct suffix; [done|]. cbn [endsWith]. by rewrite String.eqb_refl.
  - rewrite append_cons. cbn [endsWith]. rewrite IH. by destruct (String.eqb _ _).
Qed.

Lemma not_lock_name q f :
  endsWith q.2 ".lock" = false → q ≠ lock_of (q.1, f).
Proof.
  intros Hq Heq. rewrite Heq in Hq. unfold lock_of in Hq. cbn [fst snd] in Hq.
  by rewrite endsWith_append in Hq.
Qed.

Lemma readFile_state p s : (fs.readFile p s).2 = s.
Proof. unfold fs.readFile. by destruct (fs_lookup p (st_fs s)) as [[]|]. Qed.

Lemma touches_Worker_lockFile p : touches (λ q, q = lock_of p) (Worker.lockFile p).
Proof. unfold Worker.lockFile. solve_frame ltac:(reflexivity). Qed.

Lemma touches_Worker_unlockFile p : touches (λ q, q = lock_of p) (Worker.unlockFile p).
Proof. unfold Worker.unlockFile. solve_frame ltac:(reflexivity). Qed.

Lemma touches_mono {A} (P Q : fpath → Prop) (m : M A) :
  (∀ q, P q → Q q) → touches P m → touches Q m.
Proof. intros HPQ Hm s q Hq. apply Hm. intros HP. by apply Hq, HPQ. Qed.

Lemma touches_retry_loop P axios rd remaining retries lastError :
  touches P (Worker.retry_loop axios rd remaining retries lastError).
Proof.
  revert retries lastError.
  induction remaining as [|remaining IH]; intros retries lastError; cbn.
  - solve_frame idtac.
  - apply touches_bind; [eauto with frame|intros _].
    destruct (axios rd retries); [solve_frame idtac|].
    apply touches_bind; [solve_frame idtac|intros _]. apply IH.
Qed.

Lemma touches_get_prop P v k : touches P (Worker.get_prop v k).
Proof. unfold Worker.get_prop. solve_frame idtac. Qed.

Lemma touches_set_prop P v k x : touches P (Worker.set_prop v k x).
Proof. unfold Worker.set_prop. solve_frame idtac. Qed.

#[local] Hint Resolve touches_retry_loop touches_get_prop touches_set_prop : frame.

Lemma touches_write_response rd st h d :
  touches (λ q, q.1 = RESPONSES_DIR) (Worker.write_response rd st h d).
Proof.
  unfold Worker.write_response, Worker.lockFile, Worker.unlockFile.
  solve_frame ltac:(reflexivity).
Qed.

Lemma is_pending_true st : Worker.is_pending st = true → st = Some (JStr "pending").
Proof.
  destruct st as [[]|]; cbn; try done. intros H. by apply String.eqb_eq in H as ->.
Qed.

Lemma readFile_EISDIR p s :
  fs_lookup p (st_fs s) = Some Directory → fs.readFile p s = (Throw EISDIR, s).
Proof. unfold fs.readFile. by intros ->. Qed.

Lemma process_status axios rq s :
  let r := Worker.process axios rq s in
  let x := fs_lookup rq (st_fs s) in
  let y := fs_lookup rq (st_fs r.2) in
  rq.1 = REQUESTS_DIR →
  match r.1 with
  | Ok _ => status_step x y
  | Throw _ =>
      y = x ∧
      (unloadable x ∨
       ∃ l, x = Some (File (Json (JObj l))) ∧
            assoc_get "status" l = Some (JStr "pending"))
  end.
Proof.
  intros r x y Hdir. subst r x y. unfold Worker.process.
  destruct (fs_lookup rq (st_fs s)) as [[c|]|] eqn:Hx.
  - erewrite bind_ok; [|by apply readFile_ok]. destruct c as [|j|].
    + erewrite bind_throw; [|reflexivity]. cbn. rewrite Hx.
      split; [done|]. left. unfold unloadable. auto.
    + erewrite bind_ok; [|reflexivity].
      destruct j as [|b|n|str|l];
        try (erewrite bind_ok; [|reflexivity]; cbn; rewrite Hx; by apply status_same).
      * erewrite bind_throw; [|reflexivity]. cbn. rewrite Hx.
        split; [done|]. left. unfold unloadable. auto 6.
      * erewrite bind_ok; [|reflexivity].
        destruct (Worker.is_pending (assoc_get "status" l)) eqn:Hp; cbn [negb];
          [|cbn; rewrite Hx; by apply status_same].
        apply is_pending_true in Hp.
        destruct (retry_loop_trace axios (JObj l) Worker.MAX_RETRIES 0 None s)
          as (t & res & Hres & _ & _ & _ & _ & Hfs).
        destruct (Worker.retry_loop axios (JObj l) Worker.MAX_RETRIES 0 None s)
          as [r1 s2] eqn:Hloop.
        cbn [fst snd] in Hres, Hfs. subst r1.
        erewrite bind_ok; [|exact Hloop].
        destruct res as [[[[st h] d]|] lastError].
        -- pose proof (touches_write_response (JObj l) st h d s2 rq) as Hframe.
           destruct (Worker.write_response (JObj l) st h d s2) as [[[]|e] s3] eqn:Hresp.
           ++ erewrite bind_ok; [|exact Hresp].
              erewrite bind_ok; [|reflexivity].
              cbn [snd] in Hframe. rewrite Hfs in Hframe.
              rewrite writeFile_run; cbn [fst snd st_fs set_fs].
              ** rewrite fs_lookup_write_eq.
                 { apply (status_final _ _ l "completed"); auto. }
                 apply (fs_lookup_is_Some_dir rq _ (File (Json (JObj l)))).
                 rewrite Hframe; [done|]. rewrite Hdir. discriminate.
              ** apply (fs_lookup_is_Some_dir rq _ (File (Json (JObj l)))).
                 rewrite Hframe; [done|]. rewrite Hdir. discriminate.
              ** rewrite Hframe; [by rewrite Hx|]. rewrite Hdir. discriminate.
           ++ erewrite bind_throw; [|exact Hresp]. cbn [fst snd] in *.
              rewrite Hframe, Hfs; [|rewrite Hdir; discriminate].
              split; [done|]. right. by exists l.
        -- cbn. rewrite Hfs, Hx. split; [done|]. right. by exists l.
    + erewrite bind_throw; [|reflexivity]. cbn. rewrite Hx.
      split; [done|]. left. unfold unloadable. auto 6.
  - erewrite bind_throw; [|by apply readFile_EISDIR]. cbn. rewrite Hx.
    split; [done|]. left. unfold unloadable. auto.
  - erewrite bind_throw; [|by apply readFile_ENOENT]. cbn. rewrite Hx.
    split; [done|]. left. unfold unloadable. auto.
Qed.

Lemma unloadable_read {C} (k : json → M C) rq s :
  unloadable (fs_lookup rq (st_fs s)) →
  ∃ e, (raw ← fs.readFile rq; requestData ← of_result (JSON_parse raw);
        requestData ← Worker.set_prop requestData "status" (JStr "error");
        k requestData) s = (Throw e, s).
Proof.
  intros Hun. unfold mbind, M_bind, fs.readFile, of_result. cbv beta.
  destruct Hun as [->|[->|[->|[->| ->]]]]; cbn; by eexists.
Qed.

Lemma on_error_status file rq e s :
  let r := Worker.on_error file rq e s in
  let x := fs_lookup rq (st_fs s) in
  let y := fs_lookup rq (st_fs r.2) in
  rq.1 = REQUESTS_DIR →
  (unloadable x → y = x) ∧
  (∀ l, x = Some (File (Json (JObj l))) →
        y = x ∨ y = Some (File (Json (JObj (assoc_set "status" (JStr "error") l))))).
Proof.
  intros r x y Hdir. subst r x y. unfold Worker.on_error.
  erewrite bind_ok; [|reflexivity].
  set (rs := (RESPONSES_DIR, _)). set (resp := Json _).
  assert (rq ≠ rs) as Hne by (intros Heq; rewrite Heq in Hdir; discriminate).
  pose proof (touches_writeFile (λ q, q = rs) rs resp eq_refl s rq Hne) as Hframe.
  destruct (fs.writeFile rs resp s) as [[[]|e'] s1] eqn:Hwrite; cbn [snd] in Hframe.
  - erewrite bind_ok; [|exact Hwrite]. split.
    + intros Hun. rewrite <- Hframe in Hun.
      destruct (unloadable_read (λ rd, fs.writeFile rq (Json rd)) rq s1 Hun) as [e' ->].
      done.
    + intros l Hx. rewrite Hx in Hframe.
      erewrite bind_ok; [|by apply readFile_ok].
      erewrite bind_ok; [|reflexivity].
      erewrite bind_ok; [|reflexivity].
      rewrite writeFile_run; cbn [fst snd st_fs set_fs].
      * right. rewrite fs_lookup_write_eq; [done|].
        by apply (fs_lookup_is_Some_dir rq _ _ Hframe).
      * by apply (fs_lookup_is_Some_dir rq _ _ Hframe).
      * by rewrite Hframe.
  - erewrite bind_throw; [|exact Hwrite]. cbn [snd]. split; [done|]. intros l _. by left.
Qed.

Lemma Worker_lockFile_total p s : ∃ b s', Worker.lockFile p s = (Ok b, s').
Proof.
  unfold Worker.lockFile. unfold_m.
  destruct (fs.writeFile (lock_of p) Empty s) as [[[]|e] s']; by eexists _, _.
Qed.

Lemma Worker_unlockFile_total p s : ∃ b s', Worker.unlockFile p s = (Ok b, s').
Proof.
  unfold Worker.unlockFile. unfold_m.
  destruct (fs.unlink (lock_of p) s) as [[[]|e] s']; by eexists _, _.
Qed.

(** What a claim does to the request file it is made for. *)
Lemma claim_status axios file s :
  let rq := (REQUESTS_DIR, file) in
  status_step (fs_lookup rq (st_fs s))
              (fs_lookup rq (st_fs (Worker.claim axios file s).2)).
Proof.
  intros rq. unfold Worker.claim. fold rq.
  destruct (Worker_lockFile_total rq s) as (b & s1 & Hlock).
  pose proof (touches_Worker_lockFile rq s rq (not_eq_sym (lock_of_ne rq))) as H1.
  rewrite Hlock in H1. cbn [snd] in H1.
  erewrite bind_ok; [|exact Hlock].
  destruct b; cbn [negb]; [|apply status_same; by rewrite <- H1].
  unfold try_finally, try_catch.
  pose proof (process_status axios rq s1 eq_refl) as Hproc. cbn zeta in Hproc.
  destruct (Worker.process axios rq s1) as [[[]|e] s2]; cbn [fst snd] in Hproc.
  - destruct (Worker_unlockFile_total rq s2) as (b' & s3 & Hunlock).
    pose proof (touches_Worker_unlockFile rq s2 rq (not_eq_sym (lock_of_ne rq))) as H2.
    rewrite Hunlock in *. cbn [snd] in *. by rewrite H2, <- H1.
  - destruct Hproc as [Hsame Hcase].
    pose proof (on_error_status file rq e s2 eq_refl) as [Hun Hpend]. cbn zeta in *.
    destruct (Worker.on_error file rq e s2) as [r3 s3].
    destruct (Worker_unlockFile_total rq s3) as (b' & s4 & Hunlock).
    pose proof (touches_Worker_unlockFile rq s3 rq (not_eq_sym (lock_of_ne rq))) as H2.
    rewrite Hunlock in *. cbn [snd] in *.
    assert (status_step (fs_lookup rq (st_fs s)) (fs_lookup rq (st_fs s4))) as Hstep.
    { rewrite H2, <- H1. rewrite Hsame in Hun, Hpend.
      destruct Hcase as [Hcase|(l & Hl & Hp)].
      - apply status_same. by apply Hun.
      - destruct (Hpend l Hl) as [Hy|Hy]; [by apply status_same|].
        apply (status_final _ _ l "error"); auto. }
    by destruct r3.
Qed.

Lemma touches_process axios rq :
  touches (λ q, q = rq ∨ q.1 = RESPONSES_DIR) (Worker.process axios rq).
Proof.
  unfold Worker.process.
  repeat first
    [ apply (touches_mono (λ q, q.1 = RESPONSES_DIR));
        [intros q Hq; by right|apply touches_write_response]
    | frame_step ltac:(by left) ].
Qed.

Lemma touches_on_error file rq e :
  touches (λ q, q = rq ∨ q.1 = RESPONSES_DIR) (Worker.on_error file rq e).
Proof.
  unfold Worker.on_error.
  solve_frame ltac:(first [by left|by right]).
Qed.

Lemma touches_claim axios file :
  let rq := (REQUESTS_DIR, file) in
  touches (λ q, q = rq ∨ q = lock_of rq ∨ q.1 = RESPONSES_DIR)
          (Worker.claim axios file).
Proof.
  intros rq. unfold Worker.claim. fold rq.
  repeat first
    [ apply (touches_mono (λ q, q = lock_of rq));
        [intros q Hq; by right; left
        |first [apply touches_Worker_lockFile|apply touches_Worker_unlockFile]]
    | apply (touches_mono (λ q, q = rq ∨ q.1 = RESPONSES_DIR));
        [intros q [Hq|Hq]; [by left|by right; right]
        |first [apply touches_process|apply touches_on_error]]
    | frame_step idtac ].
Qed.

Lemma forward_still {A} (m : M A) : (∀ s, st_fs (m s).2 = st_fs s) → forward m.
Proof. intros Hm s q _ _. apply status_same. by rewrite Hm. Qed.

Lemma forward_bind {A C} (m : M A) (k : A → M C) :
  forward m → (∀ a, forward (k a)) → forward (m ≫= k).
Proof.
  intros Hm Hk s q H1 H2. unfold mbind, M_bind. specialize (Hm s q H1 H2).
  destruct (m s) as [[a|e] s']; cbn [snd] in *; [|done].
  eapply status_step_trans; [exact Hm|by apply Hk].
Qed.

Lemma forward_try_catch {A} (m : M A) h :
  forward m → (∀ e, forward (h e)) → forward (try_catch m h).
Proof.
  intros Hm Hh s q H1 H2. unfold try_catch. specialize (Hm s q H1 H2).
  destruct (m s) as [[a|e] s']; cbn [snd] in *; [done|].
  eapply status_step_trans; [exact Hm|by apply Hh].
Qed.

Lemma forward_task axios file : forward (Worker.task axios file).
Proof.
  intros s q Hdir Hname. unfold Worker.task, try_finally.
  assert (status_step (fs_lookup q (st_fs s))
            (fs_lookup q (st_fs (Worker.claim axios file s).2))) as Hclaim.
  { destruct (decide (q = (REQUESTS_DIR, file))) as [->|Hne].
    - apply claim_status.
    - apply status_same. apply (touches_claim axios file).
      intros [Hq|[Hq|Hq]]; [done| |by rewrite Hdir in Hq].
      apply (not_lock_name q file Hname). rewrite Hdir. exact Hq. }
  by destruct (Worker.claim axios file s) as [r s'].
Qed.

Lemma forward_run_tasks axios batch : forward (Worker.run_tasks axios batch).
Proof.
  induction batch as [|file batch IH]; intros s q H1 H2; cbn [Worker.run_tasks].
  - by apply status_same.
  - pose proof (forward_task axios file s q H1 H2) as Ht.
    destruct (Worker.task axios file s) as [[[]|e] s']; cbn [snd] in *;
      (eapply status_step_trans; [exact Ht|by apply IH]).
Qed.

Lemma acquire_all_fs batch k s : st_fs (Worker.acquire_all batch k s).2 = st_fs s.
Proof.
  revert k s. induction batch as [|f batch IH]; intros k s; [done|].
  cbn [Worker.acquire_all]. unfold mbind, M_bind, Worker.sem_acquire.
  destruct (Semaphore.acquire k (st_sem s)) as [g m]. by rewrite IH.
Qed.

Lemma forward_run_batches axios batches : forward (Worker.run_batches axios batches).
Proof.
  induction batches as [|batch batches IH]; cbn [Worker.run_batches].
  - by apply forward_still.
  - apply forward_bind; [|intros _; apply IH]. unfold Worker.run_batch.
    apply forward_bind; [by apply forward_still|intros _].
    apply forward_bind; [apply forward_still, acquire_all_fs|intros _].
    apply forward_run_tasks.
Qed.

Lemma forward_tick axios : forward (Worker.tick axios).
Proof.
  unfold Worker.tick. apply forward_bind.
  - apply forward_still. intros s. unfold Worker.checkDirs, fs.access_dir. unfold_m.
    by destruct (fs_dir REQUESTS_DIR (st_fs s)), (fs_dir RESPONSES_DIR (st_fs s)).
  - intros [|]; [|by apply forward_still].
    unfold Worker.processRequests. apply forward_try_catch; [|intros _; by apply forward_still].
    apply forward_bind.
    { apply forward_still. intros s. unfold fs.readdir.
      by destruct (fs_dir REQUESTS_DIR (st_fs s)). }
    intros files. apply forward_bind; [by apply forward_still|intros processedFiles].
    destruct (_ =? _)%nat; [by apply forward_still|].
    apply forward_bind; [by apply forward_still|intros _].
    apply forward_run_batches.
Qed.





(** ** The round trip *)

Lemma string_length_append (a b : string) :
  String.length (a +:+ b) = (String.length a + String.length b)%nat.
Proof. induction a as [|c a IH]; [done|]. rewrite append_cons. cbn. by rewrite IH. Qed.

Lemma endsWith_json_not_lock s : endsWith (s +:+ ".json") ".lock" = false.
Proof.
  induction s as [|c s IH]; [done|].
  rewrite append_cons. cbn [endsWith]. rewrite IH.
  destruct (String.eqb _ _) eqn:Heq; [|done].
  apply String.eqb_eq in Heq. apply (f_equal String.length) in Heq.
  cbn in Heq. rewrite string_length_append in Heq. cbn in Heq. lia.
Qed.

Lemma fs_remove_write_absent p x f :
  fs_lookup p f = None → fs_remove p (fs_write p x f) = f.
Proof.
  unfold fs_lookup, fs_remove, fs_write.
  destruct (fs_dir p.1 f) as [m|] eqn:Hd; [|by rewrite Hd].
  intros Hm. rewrite fs_dir_set_dir, decide_True by done.
  rewrite delete_insert_id by done.
  destruct p as [[] n], f; unfold fs_dir, fs_set_dir in *; cbn in *; congruence.
Qed.

Lemma Local_lockFile_run p s :
  is_Some (fs_dir p.1 (st_fs s)) →
  fs_lookup (lock_of p) (st_fs s) = None →
  Local.lockFile p s
  = (Ok true, set_fs (fs_write (lock_of p) (File Local.pid_text) (st_fs s)) s).
Proof.
  intros Hd Hl. unfold Local.lockFile, try_catch.
  erewrite bind_ok; [|by apply mkdir_run].
  erewrite bind_ok; [|by apply writeFile_wx_run]. done.
Qed.

Lemma Local_unlockFile_run p s c :
  fs_lookup (lock_of p) (st_fs s) = Some (File c) →
  Local.unlockFile p s = (Ok true, set_fs (fs_remove (lock_of p) (st_fs s)) s).
Proof.
  intros Hl. unfold Local.unlockFile, try_catch.
  erewrite bind_ok; [|by eapply unlink_run]. done.
Qed.

Lemma Local_exists_present p s x :
  fs_lookup p (st_fs s) = Some x → Local.exists_ p s = (Ok true, s).
Proof.
  intros Hp. unfold Local.exists_, fs.access. unfold_m. by rewrite Hp.
Qed.

(** A turn of the marker-aware loop on a free lock: it takes the lock,
    looks, and gives the lock back; the store is as before. *)
Lemma Local_attempt_waiting rs s :
  is_Some (fs_dir rs.1 (st_fs s)) →
  fs_lookup (lock_of rs) (st_fs s) = None →
  fs_lookup (done_of rs) (st_fs s) = None →
  Local.attempt rs s = (Ok None, s).
Proof.
  intros Hd Hlock Hdone. unfold Local.attempt, try_catch, try_finally.
  erewrite bind_ok; [|by apply Local_lockFile_run]. cbn [negb].
  erewrite bind_ok; cycle 1.
  { apply Local_exists_absent. cbn [st_fs set_fs].
    rewrite fs_lookup_write_ne; [done|]. apply not_eq_sym, lock_of_ne_done_of. }
  destruct (Local_exists_total rs
              (set_fs (fs_write (lock_of rs) (File Local.pid_text) (st_fs s)) s))
    as [b Hb].
  erewrite bind_ok; [|exact Hb]. cbn [andb]. unfold mret at 1, M_ret at 1.
  erewrite Local_unlockFile_run; cycle 1.
  { cbn [st_fs set_fs]. apply fs_lookup_write_eq. by destruct rs. }
  cbn [st_fs set_fs]. rewrite fs_remove_write_absent by done.
  by rewrite set_fs_set_fs, set_fs_id.
Qed.

Lemma Local_attempt_found rs s j x :
  fs_lookup (lock_of rs) (st_fs s) = None →
  fs_lookup (done_of rs) (st_fs s) = Some x →
  fs_lookup rs (st_fs s) = Some (File (Json j)) →
  Local.attempt rs s = (Ok (Some j), s).
Proof.
  intros Hlock Hdone Hrs. unfold Local.attempt, try_catch, try_finally.
  assert (is_Some (fs_dir rs.1 (st_fs s))) as Hd
    by (by apply (fs_lookup_is_Some_dir rs _ _ Hrs)).
  erewrite bind_ok; [|by apply Local_lockFile_run]. cbn [negb].
  erewrite bind_ok; cycle 1.
  { eapply Local_exists_present. cbn [st_fs set_fs].
    rewrite fs_lookup_write_ne; [done|]. apply not_eq_sym, lock_of_ne_done_of. }
  erewrite bind_ok; cycle 1.
  { eapply Local_exists_present. cbn [st_fs set_fs].
    rewrite fs_lookup_write_ne; [done|]. apply not_eq_sym, lock_of_ne. }
  cbn [andb].
  erewrite bind_ok; cycle 1.
  { apply readFile_ok. cbn [st_fs set_fs].
    rewrite fs_lookup_write_ne; [done|]. apply not_eq_sym, lock_of_ne. }
  erewrite bind_ok; [|reflexivity]. unfold mret at 1, M_ret at 1.
  erewrite Local_unlockFile_run; cycle 1.
  { cbn [st_fs set_fs]. apply fs_lookup_write_eq. by destruct rs. }
  cbn [st_fs set_fs]. rewrite fs_remove_write_absent by done.
  by rewrite set_fs_set_fs, set_fs_id.
Qed.

Lemma write_response_run l id st h d s :
  let rs := (RESPONSES_DIR, id +:+ ".json") in
  assoc_get "id" l = Some (JStr id) →
  is_Some (fs_dir RESPONSES_DIR (st_fs s)) →
  fs_lookup (lock_of rs) (st_fs s) ≠ Some Directory →
  fs_lookup rs (st_fs s) ≠ Some Directory →
  fs_lookup (done_of rs) (st_fs s) ≠ Some Directory →
  Worker.write_response (JObj l) st h d s
  = (Ok tt,
     set_fs (fs_remove (lock_of rs)
               (fs_write (done_of rs) (File Empty)
                  (fs_write rs (File (Json (response_record st h d (st_now s))))
                     (fs_write (lock_of rs) (File Empty) (st_fs s))))) s).
Proof.
  intros rs Hid Hdir Hlock Hrs Hdone. unfold Worker.write_response.
  erewrite bind_ok; [|reflexivity]. rewrite Hid. cbn [template]. fold rs.
  erewrite bind_ok; [|reflexivity].
  erewrite bind_ok; [|by apply Worker_lockFile_run]. cbn [negb].
  erewrite bind_ok; [|reflexivity]. unfold try_finally.
  erewrite bind_ok; cycle 1.
  { apply writeFile_run; cbn [st_fs set_fs]; fs_simp; done. }
  rewrite writeFile_run; cycle 1.
  { cbn [st_fs set_fs]. fs_simp. done. }
  { cbn [st_fs set_fs]. fs_simp. done. }
  erewrite Worker_unlockFile_run; [done|].
  cbn [st_fs set_fs]. fs_simp; done.
Qed.

Lemma claim_resolved axios file s l id st h d :
  let rq := (REQUESTS_DIR, file) in
  let rs := (RESPONSES_DIR, id +:+ ".json") in
  fs_lookup rq (st_fs s) = Some (File (Json (JObj l))) →
  assoc_get "status" l = Some (JStr "pending") →
  assoc_get "id" l = Some (JStr id) →
  fs_lookup (lock_of rq) (st_fs s) ≠ Some Directory →
  is_Some (fs_dir RESPONSES_DIR (st_fs s)) →
  fs_lookup (lock_of rs) (st_fs s) ≠ Some Directory →
  fs_lookup rs (st_fs s) ≠ Some Directory →
  fs_lookup (done_of rs) (st_fs s) ≠ Some Directory →
  axios (JObj l) 0%nat = Resolved st h d →
  Worker.claim axios file s
  = (Ok tt,
     mkState
       (fs_remove (lock_of rq)
          (fs_write rq (File (Json (JObj (assoc_set "status" (JStr "completed") l))))
             (fs_remove (lock_of rs)
                (fs_write (done_of rs) (File Empty)
                   (fs_write rs (File (Json (response_record st h d (st_now s))))
                      (fs_write (lock_of rs) (File Empty)
                         (fs_write (lock_of rq) (File Empty) (st_fs s))))))))
       (st_now s) (st_trace s ++ [EvCall (JObj l) 0])
       (st_processed s) (st_sem s)).
Proof.
  intros rq rs Hrq Hst Hid Hlock Hdir Hrl Hrs Hdone Hax.
  assert (is_Some (fs_dir REQUESTS_DIR (st_fs s))) as Hrd
    by (by apply (fs_lookup_is_Some_dir rq _ _ Hrq)).
  assert (rs ≠ lock_of rq) as Hne1 by (by apply path_dir_ne).
  assert (lock_of rs ≠ lock_of rq) as Hne2 by (by apply path_dir_ne).
  assert (done_of rs ≠ lock_of rq) as Hne3 by (by apply path_dir_ne).
  assert (rq ≠ rs) as Hne4 by (by apply path_dir_ne).
  assert (rq ≠ lock_of rs) as Hne5 by (by apply path_dir_ne).
  assert (rq ≠ done_of rs) as Hne6 by (by apply path_dir_ne).
  assert (lock_of rq ≠ rs) as Hne7 by (by apply path_dir_ne).
  assert (lock_of rq ≠ lock_of rs) as Hne8 by (by apply path_dir_ne).
  assert (lock_of rq ≠ done_of rs) as Hne9 by (by apply path_dir_ne).
  unfold Worker.claim. fold rq.
  erewrite bind_ok; [|by apply Worker_lockFile_run].
  cbn [negb]. unfold try_finally.
  erewrite try_catch_ok; cycle 1.
  { unfold Worker.process.
    erewrite bind_ok; [|apply readFile_ok; cbn [st_fs set_fs]; fs_simp; exact Hrq].
    erewrite bind_ok; [|reflexivity].
    erewrite bind_ok; [|reflexivity].
    rewrite Hst. cbn [Worker.is_pending negb String.eqb Ascii.eqb Bool.eqb].
    erewrite bind_ok; [|unfold Worker.MAX_RETRIES; rewrite retry_loop_step, Hax; reflexivity].
    cbv beta iota.
    erewrite bind_ok; cycle 1.
    { apply (write_response_run l id); cbn [st_fs set_fs emit snd]; fs_simp; done. }
    erewrite bind_ok; [|reflexivity].
    apply writeFile_run; cbn [st_fs set_fs emit snd]; fs_simp; [done|by rewrite Hrq]. }
  erewrite Worker_unlockFile_run; [by destruct s|].
  cbn [st_fs set_fs emit snd]. fs_simp; done.
Qed.

Lemma newFiles_of_single f processedFiles :
  endsWith f ".json" = true → endsWith f ".lock" = false → f ∉ processedFiles →
  Worker.newFiles_of [f] processedFiles = [f].
Proof.
  intros H1 H2 H3. unfold Worker.newFiles_of.
  rewrite filter_cons_True; [done|].
  rewrite H1, H2. cbn. unfold Worker.set_has. by rewrite bool_decide_eq_false_2.
Qed.

Lemma readdir_single s f x :
  fs_dir REQUESTS_DIR (st_fs s) = Some {[ f := x ]} →
  fs.readdir REQUESTS_DIR s = (Ok [f], s).
Proof. intros Hd. unfold fs.readdir. by rewrite Hd, map_to_list_singleton. Qed.

(** A tick of the worker on a store that holds one pending record, fresh to
    the worker, and a target that answers at once. *)
Lemma tick_single axios w requestId req now st h d :
  let f := requestId +:+ ".json" in
  let rq := (REQUESTS_DIR, f) in
  let rs := (RESPONSES_DIR, f) in
  let rd := requestData_of requestId req now in
  st_fs w = fs_write rq (File (Json rd)) empty_fs →
  f ∉ st_processed w →
  axios rd 0%nat = Resolved st h d →
  st_fs (Worker.tick axios w).2
  = fs_remove (lock_of rq)
      (fs_write rq (File (Json (JObj (assoc_set "status" (JStr "completed")
                                        (request_fields requestId req now)))))
         (fs_remove (lock_of rs)
            (fs_write (done_of rs) (File Empty)
               (fs_write rs (File (Json (response_record st h d (st_now w))))
                  (fs_write (lock_of rs) (File Empty)
                     (fs_write (lock_of rq) (File Empty) (st_fs w))))))).
Proof.
  intros f rq rs rd Hfs Hnew Hax.
  assert (fs_dir REQUESTS_DIR (st_fs w) = Some {[ f := File (Json rd) ]}) as Hrd
    by (rewrite Hfs, <- insert_empty; reflexivity).
  assert (is_Some (fs_dir RESPONSES_DIR (st_fs w))) as Hsd
    by (rewrite Hfs; by eexists).
  unfold Worker.tick.
  erewrite bind_ok; cycle 1.
  { unfold Worker.checkDirs, fs.access_dir. unfold_m. rewrite Hrd.
    destruct Hsd as [m ->]. reflexivity. }
  unfold Worker.processRequests, try_catch.
  erewrite bind_ok; [|by eapply readdir_single].
  erewrite bind_ok; [|reflexivity]. cbv beta.
  rewrite newFiles_of_single;
    [|apply endsWith_append|apply endsWith_json_not_lock|done].
  cbn [length Nat.eqb Worker.batches_of take drop Worker.BATCH_SIZE Worker.run_batches].
  erewrite bind_ok; [|reflexivity].
  unfold Worker.run_batch.
  erewrite bind_ok; [|erewrite bind_ok; [|reflexivity]; erewrite bind_ok; [|reflexivity]].
  2:{ unfold modify. cbn [Worker.run_tasks]. unfold Worker.task, try_finally.
      rewrite (claim_resolved axios f _ (request_fields requestId req now)
                 requestId st h d); [reflexivity|..];
        cbn [st_fs set_sem set_processed snd Worker.acquire_all]; try done;
        try (rewrite Hfs; fs_simp; done). }
  cbn. by destruct w.
Qed.

Lemma Local_wait_loop_S world io_time rs remaining attempts :
  Local.wait_loop world io_time rs (S remaining) attempts
  = (found ← Local.attempt rs;
     elapse (io_time attempts);;
     match found with
     | Some response => mret (Some response)
     | None => Local.pause world attempts;;
               Local.wait_loop world io_time rs remaining (S attempts)
     end).
Proof. done. Qed.

Lemma fs_empty_ext f :
  is_Some (fs_dir REQUESTS_DIR f) → is_Some (fs_dir RESPONSES_DIR f) →
  (∀ p, fs_lookup p f = None) → f = empty_fs.
Proof.
  destruct f as [rq rs]. unfold fs_dir, fs_lookup, empty_fs. cbn.
  intros [m1 ->] [m2 ->] Hall. f_equal; f_equal; apply map_empty; intros i.
  - apply (Hall (REQUESTS_DIR, i)).
  - apply (Hall (RESPONSES_DIR, i)).
Qed.

Ltac dir_goal H :=
  repeat first [ apply (proj2 (fs_dir_write _ _ _ _))
               | apply (proj2 (fs_dir_remove _ _ _)) ];
  rewrite H; by eexists.

(** A task that got as far as filing the response goes on as its second
    part says. *)
Lemma claim_split axios file s requestData s1 :
  Worker.claim_publish axios file s = (Ok (Some requestData), s1) →
  Worker.claim axios file s = Worker.claim_settle file requestData s1.
Proof.
  unfold Worker.claim_publish, Worker.claim, Worker.claim_settle, mbind, M_bind.
  destruct (Worker.lockFile (REQUESTS_DIR, file) s) as [[locked|e] s0]; [|done].
  destruct locked; cbn [negb]; [|done].
  unfold try_finally, try_catch, Worker.process, Worker.process_publish,
    Worker.process_settle, mbind, M_bind.
  destruct (fs.readFile (REQUESTS_DIR, file) s0) as [[raw|e] s2]; [|done].
  destruct (of_result (JSON_parse raw) s2) as [[rd|e] s3]; [|done].
  destruct (Worker.get_prop rd "status" s3) as [[status|e] s4]; [|done].
  destruct (negb (Worker.is_pending status)); [done|].
  destruct (Worker.retry_loop axios rd Worker.MAX_RETRIES 0 None s4)
    as [[[[[[st h] d]|] lastError]|e] s5]; [| done | done].
  destruct (Worker.write_response rd st h d s5) as [[[]|e] s6]; [|done].
  intros [= -> ->]. done.
Qed.

(** C3, on the exchange that the claim names: the request [GET /widgets/42]
    with headers [{}] and body [null], which the target answers with status
    200, the header [content-type: application/json] and the body
    [{"id":42}], on an empty shared folder, Express sending what it is given.

    Through the earlier handler, the worker's tick falling into the
    handler's first wait, the caller receives that status, those headers and
    that body and both records are removed, but the Completion Marker stays
    in the responses directory.

    Through the marker-aware handler, when its second turn comes after the
    worker has filed the response and its marker and before the worker
    updates the status of the request, the caller receives the same reply
    and the handler removes the Request Record, the Response Record and the
    marker.  The worker then goes on with its task where it was and writes
    the Request Record back, with status [completed]: it is in the store
    when the exchange is over.  (The two parts of the task, run one after
    the other, are the task.) *)
Theorem C3_round_trip_leaves_records :
  let rq := (REQUESTS_DIR, "abc.json") in
  let rs := (RESPONSES_DIR, "abc.json") in
  let reply := mkReply (JNum 200) widget_headers widget_body in
  let w := state_of empty_fs in
  (let world (k : nat) (store : FS) :=
     match k with
     | O => st_fs (Worker.tick widget_axios (set_fs store w)).2
     | S _ => store
     end in
   let r := LocalOld.app_all world (λ _, 0) (λ _, None) "abc" widget_request
              (state_of empty_fs) in
   r.1 = Ok reply ∧
   fs_lookup rq (st_fs r.2) = None ∧
   fs_lookup rs (st_fs r.2) = None ∧
   fs_lookup (done_of rs) (st_fs r.2) = Some (File Empty)) ∧
  (let world (k : nat) (store : FS) :=
     match k with
     | O => st_fs (Worker.claim_publish widget_axios "abc.json" (set_fs store w)).2
     | S _ => store
     end in
   let r := Local.app_all world (λ _, 0) (λ _, None) "abc" widget_request
              (state_of empty_fs) in
   let submitted := (submit "abc" widget_request (state_of empty_fs)).2 in
   let published := Worker.claim_publish widget_axios "abc.json"
                      (set_fs (st_fs submitted) w) in
   let requestData := requestData_of "abc" widget_request 0 in
   published.1 = Ok (Some requestData) ∧
   r.1 = Ok reply ∧
   fs_lookup rq (st_fs r.2) = None ∧
   fs_lookup rs (st_fs r.2) = None ∧
   fs_lookup (done_of rs) (st_fs r.2) = None ∧
   let settled := Worker.claim_settle "abc.json" requestData
                    (set_fs (st_fs r.2) published.2) in
   settled.1 = Ok tt ∧
   fs_lookup rq (st_fs settled.2)
   = Some (File (Json (JObj (assoc_set "status" (JStr "completed")
                               (request_fields "abc" widget_request 0))))) ∧
   Worker.claim widget_axios "abc.json" (set_fs (st_fs submitted) w)
   = Worker.claim_settle "abc.json" requestData published.2).
Proof.
  intros rq rs reply w. split.
  - vm_compute. repeat split.
  - intros world r submitted published requestData.
    assert (published = (Ok (Some requestData), published.2)) as Hpub
      by (vm_compute; reflexivity).
    split; [by rewrite Hpub|].
    do 4 (split; [vm_compute; reflexivity|]).
    intros settled. do 2 (split; [vm_compute; reflexivity|]).
    apply claim_split. exact Hpub.
Qed.

(** ** Commit order of the response *)

Lemma writeFile_cases p c s :
  fs.writeFile p c s = (Ok tt, set_fs (fs_write p (File c) (st_fs s)) s) ∨
  ∃ e, fs.writeFile p c s = (Throw e, s).
Proof.
  destruct (fs_dir p.1 (st_fs s)) as [m|] eqn:Hd.
  - destruct (fs_lookup p (st_fs s)) as [[x|]|] eqn:Hp.
    + left. apply writeFile_run; [by eexists|by rewrite Hp].
    + right. exists EISDIR. by apply writeFile_EISDIR.
    + left. apply writeFile_run; [by eexists|by rewrite Hp].
  - right. exists ENOENT. by apply writeFile_ENOENT.
Qed.

(** The worker creates the marker only on top of the complete Response
    Record: if a run of [write_response] brings the marker into being, the
    response file holds the whole record when the run is over. *)
Lemma marker_after_response l st h d s :
  let rs := (RESPONSES_DIR, template (assoc_get "id" l) +:+ ".json") in
  let s' := (Worker.write_response (JObj l) st h d s).2 in
  fs_lookup (done_of rs) (st_fs s) = None →
  fs_lookup (done_of rs) (st_fs s') ≠ None →
  fs_lookup rs (st_fs s') = Some (File (Json (response_record st h d (st_now s)))).
Proof.
  intros rs s' Hnone. subst s'. unfold Worker.write_response.
  erewrite bind_ok; [|reflexivity]. fold rs.
  erewrite bind_ok; [|reflexivity].
  destruct (Worker_lockFile_total rs s) as (b & s1 & Hlock).
  pose proof (touches_Worker_lockFile rs s) as Hf1. rewrite Hlock in Hf1. cbn [snd] in Hf1.
  erewrite bind_ok; [|exact Hlock].
  destruct b; cbn [negb].
  2:{ erewrite bind_throw; [|reflexivity]. cbn [snd].
      rewrite Hf1 by path_ne. by rewrite Hnone. }
  erewrite bind_ok; [|reflexivity]. unfold try_finally.
  set (resp := Json _).
  destruct (writeFile_cases rs resp s1) as [Hw1|[e Hw1]].
  - erewrite bind_ok; [|exact Hw1].
    set (s2 := set_fs _ s1).
    destruct (writeFile_cases (done_of rs) Empty s2) as [Hw2|[e Hw2]]; rewrite Hw2.
    + set (s3 := set_fs _ s2).
      destruct (Worker_unlockFile_total rs s3) as (b2 & s4 & Hu).
      pose proof (touches_Worker_unlockFile rs s3) as Hf3.
      rewrite Hu in *. cbn [snd] in *. intros _.
      rewrite Hf3 by path_ne. unfold s3, s2. cbn [st_fs set_fs].
      rewrite fs_lookup_write_ne by path_ne. apply fs_lookup_write_eq.
      destruct (fs_dir rs.1 (st_fs s1)) eqn:Hd; [by eexists|].
      rewrite writeFile_ENOENT in Hw1; done.
    + destruct (Worker_unlockFile_total rs s2) as (b2 & s4 & Hu).
      pose proof (touches_Worker_unlockFile rs s2) as Hf3.
      rewrite Hu in *. cbn [snd] in *.
      rewrite Hf3 by path_ne. unfold s2. cbn [st_fs set_fs].
      rewrite fs_lookup_write_ne by path_ne. rewrite Hf1 by path_ne. by rewrite Hnone.
  - erewrite bind_throw; [|exact Hw1].
    destruct (Worker_unlockFile_total rs s1) as (b2 & s4 & Hu).
    pose proof (touches_Worker_unlockFile rs s1) as Hf3.
    rewrite Hu in *. cbn [snd] in *.
    rewrite Hf3 by path_ne. rewrite Hf1 by path_ne. by rewrite Hnone.
Qed.

(** C2 (the earlier waiter reads without a marker). On a store that holds
    the Response Record of [a] and no Completion Marker, one turn of the
    polling loop of [local-rest-proxy/proxy.js] reads the record, takes it as
    the response and unlinks it, while the marker-aware loop finds nothing.
    The store that the worker leaves after its retries are exhausted is such a
    store: its failure record has no marker, and the earlier waiter reads
    it. *)
Theorem C2_earlier_waiter_reads_unmarked_response :
  let rq := (REQUESTS_DIR, "a.json") in
  let rs := (RESPONSES_DIR, "a.json") in
  let s := state_of fs_unmarked in
  let s1 := (Worker.tick dead_axios (state_of fs_a)).2 in
  (fs_lookup (done_of rs) (st_fs s) = None ∧
   (LocalOld.attempt rq rs s).1
   = Ok (Some (response_record 200 widget_headers widget_body 0)) ∧
   fs_lookup rs (st_fs (LocalOld.attempt rq rs s).2) = None ∧
   (Local.attempt rs s).1 = Ok None) ∧
  (fs_lookup (done_of rs) (st_fs s1) = None ∧
   (LocalOld.attempt rq rs s1).1
   = Ok (Some (failure_response "connect ECONNREFUSED #2" 3000)) ∧
   (Local.attempt rs s1).1 = Ok None).
Proof. vm_compute. repeat split. Qed.

(** * Further properties of the code *)

(** ** Discovery: candidates, the recently-seen set, batches *)

Lemma endsWith_spec s suffix :
  endsWith s suffix = true ↔ ∃ pre, s = pre +:+ suffix.
Proof.
  split.
  - induction s as [|c s IH]; cbn [endsWith].
    + destruct (String.eqb _ _) eqn:Heq; [|done].
      apply String.eqb_eq in Heq. intros _. exists EmptyString. by subst.
    + destruct (String.eqb _ _) eqn:Heq.
      * apply String.eqb_eq in Heq. intros _. exists EmptyString. by subst.
      * intros [pre ->]%IH. exists (String c pre). by rewrite append_cons.
  - intros [pre ->]. apply endsWith_append.
Qed.

Lemma append_length_inj (a b c d : string) :
  a +:+ b = c +:+ d → String.length b = String.length d → b = d.
Proof.
  revert c. induction a as [|x a IH]; intros c Heq Hlen.
  - destruct c as [|y c]; [done|].
    apply (f_equal String.length) in Heq.
    rewrite !string_length_append in Heq. cbn [String.length] in Heq. lia.
  - destruct c as [|y c].
    + apply (f_equal String.length) in Heq.
      rewrite !string_length_append in Heq. cbn [String.length] in Heq. lia.
    + rewrite !append_cons in Heq. injection Heq as _ Heq. by eapply IH.
Qed.

Lemma append_inj_r (a b c : string) : a +:+ c = b +:+ c → a = b.
Proof.
  revert b. induction a as [|x a IH]; intros b Heq.
  - destruct b as [|y b]; [done|].
    apply (f_equal String.length) in Heq.
    rewrite !string_length_append in Heq. cbn [String.length] in Heq. lia.
  - destruct b as [|y b].
    + apply (f_equal String.length) in Heq.
      rewrite !string_length_append in Heq. cbn [String.length] in Heq. lia.
    + rewrite !append_cons in Heq. injection Heq as -> Heq. f_equal. by apply IH.
Qed.

(** A name has one ending of five characters. *)
Lemma endsWith_json_only f suffix :
  endsWith f ".json" = true → String.length suffix = 5%nat → suffix ≠ ".json" →
  endsWith f suffix = false.
Proof.
  intros [pre ->]%endsWith_spec Hlen Hne.
  destruct (endsWith _ suffix) eqn:He; [|done].
  apply endsWith_spec in He as [pre' Heq].
  apply append_length_inj in Heq; [by subst|by rewrite Hlen].
Qed.

Lemma newFiles_of_spec files processedFiles f :
  f ∈ Worker.newFiles_of files processedFiles
  ↔ f ∈ files ∧ endsWith f ".json" = true ∧ f ∉ processedFiles.
Proof.
  unfold Worker.newFiles_of. rewrite list_elem_of_filter.
  rewrite !Is_true_true, !andb_true_iff, !negb_true_iff.
  unfold Worker.set_has. rewrite bool_decide_eq_false.
  split.
  - intros [[[H1 H2] H3] H4]. done.
  - intros (H1 & H2 & H3). repeat split; try done.
    by apply endsWith_json_only.
Qed.

(** X1. The candidates of a tick are exactly the listed names that end in
    [.json] and are not in the recently-seen set, in the order of the
    listing; the test for [.lock] excludes nothing more.  No lock marker and
    no completion marker is ever a candidate. *)
Theorem X1_candidates_are_the_unseen_json_names files processedFiles :
  let newFiles := Worker.newFiles_of files processedFiles in
  (∀ f, f ∈ newFiles ↔ f ∈ files ∧ endsWith f ".json" = true ∧ f ∉ processedFiles) ∧
  (∀ n, ((n +:+ ".lock") ∉ newFiles) ∧ ((n +:+ ".done") ∉ newFiles)) ∧
  newFiles `sublist_of` files.
Proof.
  intros newFiles. split; [apply newFiles_of_spec|]. split.
  - intros n. split; intros (_ & He & _)%newFiles_of_spec.
    + pose proof (endsWith_json_only _ ".lock" He eq_refl) as Hl.
      rewrite endsWith_append in Hl. by discriminate Hl.
    + pose proof (endsWith_json_only _ ".done" He eq_refl) as Hl.
      rewrite endsWith_append in Hl. by discriminate Hl.
  - apply sublist_filter.
Qed.

Lemma set_add_NoDup l f : NoDup l → NoDup (Worker.set_add l f).
Proof.
  intros Hl. unfold Worker.set_add, Worker.set_has.
  case_bool_decide; [done|].
  apply NoDup_app. split; [done|]. split; [|apply NoDup_singleton].
  intros x Hx ->%list_elem_of_singleton. done.
Qed.

Lemma set_add_elem l f x : x ∈ Worker.set_add l f ↔ x ∈ l ∨ x = f.
Proof.
  unfold Worker.set_add, Worker.set_has. case_bool_decide.
  - split; [by left|]. intros [?| ->]; done.
  - rewrite elem_of_app, list_elem_of_singleton. done.
Qed.

Lemma foldl_set_add_NoDup new l : NoDup l → NoDup (foldl Worker.set_add l new).
Proof.
  revert l. induction new as [|f new IH]; intros l Hl; [done|].
  cbn. apply IH. by apply set_add_NoDup.
Qed.

Lemma foldl_set_add_elem new l x :
  x ∈ foldl Worker.set_add l new ↔ x ∈ l ∨ x ∈ new.
Proof.
  revert l. induction new as [|f new IH]; intros l; cbn.
  - rewrite elem_of_nil. tauto.
  - rewrite IH, set_add_elem, elem_of_cons. tauto.
Qed.

Lemma foldl_set_add_fresh new l :
  NoDup new → (∀ f, f ∈ new → f ∉ l) → foldl Worker.set_add l new = (l ++ new)%list.
Proof.
  revert l. induction new as [|f new IH]; intros l Hnd Hfresh; cbn.
  - by rewrite app_nil_r.
  - apply NoDup_cons in Hnd as [Hf Hnd].
    unfold Worker.set_add at 2, Worker.set_has.
    rewrite bool_decide_eq_false_2 by (apply Hfresh; left).
    rewrite IH; [by rewrite <- app_assoc|done|].
    intros g Hg. rewrite elem_of_app, list_elem_of_singleton.
    intros [Hl| ->]; [|done]. eapply Hfresh; [|exact Hl]. by right.
Qed.

(** X2. The recently-seen set stays a set and never holds more than
    [MAX_PROCESSED_FILES] names after a tick has updated it: the names beyond
    that number are evicted oldest first, and what remains are names seen
    before or candidates of this tick.  When one tick has more than
    [MAX_PROCESSED_FILES] candidates, the set afterwards holds exactly the last
    [MAX_PROCESSED_FILES] of them: the earlier candidates are dispatched in
    this tick without being remembered. *)
Theorem X2_recently_seen_set_is_bounded newFiles processedFiles :
  NoDup processedFiles →
  let added := foldl Worker.set_add processedFiles newFiles in
  let r := Worker.remember newFiles processedFiles in
  NoDup r ∧
  (length r ≤ Worker.MAX_PROCESSED_FILES)%nat ∧
  (∀ f, f ∈ r → f ∈ processedFiles ∨ f ∈ newFiles) ∧
  (∃ evicted, added = (evicted ++ r)%list ∧
     length evicted = (length added - Worker.MAX_PROCESSED_FILES)%nat) ∧
  (NoDup newFiles → (∀ f, f ∈ newFiles → f ∉ processedFiles) →
   (Worker.MAX_PROCESSED_FILES < length newFiles)%nat →
   r = drop (length newFiles - Worker.MAX_PROCESSED_FILES) newFiles).
Proof.
  intros Hnd added r.
  assert (NoDup added) as Hadd by (by apply foldl_set_add_NoDup).
  assert (r = drop (length added - Worker.MAX_PROCESSED_FILES) added) as Hr.
  { unfold r, Worker.remember. fold added.
    destruct (Nat.ltb_spec Worker.MAX_PROCESSED_FILES (length added)); [done|].
    replace (length added - Worker.MAX_PROCESSED_FILES)%nat with 0%nat by lia. done. }
  split; [|split; [|split; [|split]]].
  - rewrite Hr. eapply sublist_NoDup; [exact Hadd|apply sublist_drop].
  - rewrite Hr, length_drop. lia.
  - intros f Hf. apply foldl_set_add_elem. fold added.
    rewrite Hr in Hf. eapply subseteq_drop, Hf.
  - exists (take (length added - Worker.MAX_PROCESSED_FILES) added). split.
    + by rewrite Hr, take_drop.
    + rewrite length_take. lia.
  - intros Hnew Hfresh Hlen. rewrite Hr. unfold added.
    rewrite foldl_set_add_fresh by done.
    rewrite length_app, drop_app_ge by lia. f_equal. lia.
Qed.

Lemma X2_witness :
  let r := Worker.remember ["b.json"; "c.json"] ["a.json"; "b.json"] in
  NoDup r ∧ (length r ≤ Worker.MAX_PROCESSED_FILES)%nat.
Proof.
  destruct (X2_recently_seen_set_is_bounded ["b.json"; "c.json"] ["a.json"; "b.json"])
    as (H1 & H2 & _).
  - apply NoDup_cons. split; [|apply NoDup_singleton].
    intros H%list_elem_of_singleton. discriminate H.
  - split; [exact H1|exact H2].
Defined.

Lemma batches_of_cons fuel l :
  l ≠ [] →
  Worker.batches_of (S fuel) l
  = take Worker.BATCH_SIZE l :: Worker.batches_of fuel (drop Worker.BATCH_SIZE l).
Proof. by destruct l. Qed.

Lemma batches_of_partition fuel newFiles :
  (length newFiles ≤ fuel)%nat →
  let batches := Worker.batches_of fuel newFiles in
  concat batches = newFiles ∧
  Forall (λ batch, (0 < length batch ≤ Worker.BATCH_SIZE)%nat) batches ∧
  (Worker.BATCH_SIZE * length batches < length newFiles + Worker.BATCH_SIZE)%nat ∧
  (length newFiles ≤ Worker.BATCH_SIZE * length batches)%nat.
Proof.
  revert newFiles. induction fuel as [|fuel IH]; intros newFiles Hlen.
  - destruct newFiles; [|cbn in Hlen; lia]. cbn.
    repeat split; try done. unfold Worker.BATCH_SIZE; lia.
  - destruct newFiles as [|f rest];
      [cbn; repeat split; try done; unfold Worker.BATCH_SIZE; lia|].
    set (l := f :: rest) in *.
    rewrite batches_of_cons by done.
    assert (length (drop Worker.BATCH_SIZE l) ≤ fuel)%nat as Hd.
    { rewrite length_drop. unfold Worker.BATCH_SIZE. cbn [length] in *. lia. }
    destruct (IH _ Hd) as (Hc & Hf & Hn1 & Hn2).
    cbn zeta. cbn [concat length]. rewrite Hc, take_drop.
    rewrite length_drop in Hn1, Hn2.
    repeat split.
    + constructor; [|done]. rewrite length_take. unfold Worker.BATCH_SIZE, l.
      cbn [length]. lia.
    + unfold Worker.BATCH_SIZE in *. subst l. cbn [length] in *. lia.
    + unfold Worker.BATCH_SIZE in *. lia.
Qed.

(** X3. The batches of a tick are a partition of its candidates: put one
    after the other they give the candidates back, in order; no batch is
    empty, none has more than [BATCH_SIZE] names, and there are as many
    batches as it takes, the candidates divided by [BATCH_SIZE] and rounded
    up. *)
Theorem X3_batches_partition_the_candidates newFiles :
  let batches := Worker.batches_of (length newFiles) newFiles in
  concat batches = newFiles ∧
  Forall (λ batch, (0 < length batch ≤ Worker.BATCH_SIZE)%nat) batches ∧
  length batches
  = ((length newFiles + (Worker.BATCH_SIZE - 1)) / Worker.BATCH_SIZE)%nat.
Proof.
  destruct (batches_of_partition (length newFiles) newFiles (le_n _))
    as (Hc & Hf & Hn1 & Hn2).
  split; [exact Hc|]. split; [exact Hf|].
  unfold Worker.BATCH_SIZE in *.
  apply (Nat.div_unique _ 20 _
    (length newFiles + 19 - 20 * length (Worker.batches_of (length newFiles) newFiles))); lia.
Qed.

(** ** A tick of the worker: what it skips and what it leaves *)

Lemma checkDirs_run s :
  Worker.checkDirs s
  = (Ok (bool_decide (is_Some (fs_dir REQUESTS_DIR (st_fs s))
                      ∧ is_Some (fs_dir RESPONSES_DIR (st_fs s)))), s).
Proof.
  unfold Worker.checkDirs, fs.access_dir. unfold_m.
  destruct (fs_dir REQUESTS_DIR (st_fs s)) as [m1|] eqn:H1.
  - destruct (fs_dir RESPONSES_DIR (st_fs s)) as [m2|] eqn:H2.
    + rewrite bool_decide_eq_true_2; [done|]. split; by eexists.
    + rewrite bool_decide_eq_false_2; [done|]. intros [_ [? ?]]. done.
  - rewrite bool_decide_eq_false_2; [done|]. intros [[? ?] _]. done.
Qed.

Lemma processRequests_ok axios s : (Worker.processRequests axios s).1 = Ok tt.
Proof.
  unfold Worker.processRequests, try_catch.
  match goal with
  | |- (match ?m with _ => _ end).1 = _ => destruct m as [[[]|e] s']
  end; done.
Qed.

(** X4. The callback of the polling timer never throws.  When one of the
    two directories is missing it does nothing at all, and so it does when
    the requests directory lists no candidate: the shared folder, the
    recently-seen set, the clock and the trace of calls are as before. *)
Theorem X4_idle_tick_changes_nothing axios s :
  (Worker.tick axios s).1 = Ok tt ∧
  (fs_dir REQUESTS_DIR (st_fs s) = None ∨ fs_dir RESPONSES_DIR (st_fs s) = None →
   Worker.tick axios s = (Ok tt, s)) ∧
  (candidates s = [] → Worker.tick axios s = (Ok tt, s)).
Proof.
  unfold Worker.tick. erewrite bind_ok; [|apply checkDirs_run].
  case_bool_decide as Hd.
  - split; [apply processRequests_ok|]. destruct Hd as [[m1 H1] [m2 H2]]. split.
    + intros [H|H]; congruence.
    + unfold candidates, Worker.processRequests, try_catch, fs.readdir.
      rewrite H1. intros Hc. erewrite bind_ok; [|unfold fs.readdir; by rewrite H1].
      erewrite bind_ok; [|reflexivity]. cbv beta zeta. by rewrite Hc.
  - done.
Qed.

Lemma not_pending l :
  assoc_get "status" l ≠ Some (JStr "pending") →
  Worker.is_pending (assoc_get "status" l) = false.
Proof.
  intros Hne. destruct (Worker.is_pending _) eqn:Hp; [|done].
  by apply is_pending_true in Hp.
Qed.

(** X5. A Request Record whose status is not [pending] (it is [completed]
    or [error], or has no status) is left alone by the task that is
    dispatched for it: the task takes the lock, reads the record, gives the
    lock back and releases its slot; it calls the target not once and writes
    no response, and the shared folder is as before. *)
Theorem X5_settled_record_is_skipped axios file s l :
  let rq := (REQUESTS_DIR, file) in
  fs_lookup rq (st_fs s) = Some (File (Json (JObj l))) →
  assoc_get "status" l ≠ Some (JStr "pending") →
  fs_lookup (lock_of rq) (st_fs s) = None →
  Worker.task axios file s = (Ok tt, set_sem (Semaphore.release (st_sem s)).2 s).
Proof.
  intros rq Hrq Hst Hlock.
  assert (is_Some (fs_dir REQUESTS_DIR (st_fs s))) as Hrd
    by (by apply (fs_lookup_is_Some_dir rq _ _ Hrq)).
  unfold Worker.task, Worker.claim, try_finally. fold rq.
  erewrite bind_ok; [|apply Worker_lockFile_run; [done|by rewrite Hlock]].
  cbn [negb].
  erewrite try_catch_ok; cycle 1.
  { unfold Worker.process.
    erewrite bind_ok; [|apply readFile_ok; cbn [st_fs set_fs]; fs_simp; exact Hrq].
    erewrite bind_ok; [|reflexivity].
    erewrite bind_ok; [|reflexivity].
    rewrite not_pending by done. reflexivity. }
  erewrite Worker_unlockFile_run; cycle 1.
  { cbn [st_fs set_fs]. by fs_simp. }
  cbn [st_fs set_fs]. rewrite fs_remove_write_absent by done.
  unfold Worker.sem_release. cbn [snd]. by rewrite set_fs_set_fs, set_fs_id.
Qed.

Lemma X5_witness :
  (Worker.task widget_axios "a.json" (state_of fs_completed)).1 = Ok tt ∧
  st_trace (Worker.task widget_axios "a.json" (state_of fs_completed)).2 = [] ∧
  st_fs (Worker.task widget_axios "a.json" (state_of fs_completed)).2 = fs_completed.
Proof.
  rewrite (X5_settled_record_is_skipped widget_axios "a.json" (state_of fs_completed)
             (assoc_set "status" (JStr "completed") (request_fields "a" widget_request 0))).
  - done.
  - reflexivity.
  - vm_compute. congruence.
  - reflexivity.
Defined.

Lemma process_unloadable axios rq s e :
  load_error (fs_lookup rq (st_fs s)) = Some e →
  Worker.process axios rq s = (Throw e, s).
Proof.
  unfold Worker.process, load_error. intros He.
  destruct (fs_lookup rq (st_fs s)) as [[[|[]|]|]|] eqn:Hx; try discriminate;
    injection He as <-.
  - erewrite bind_ok; [|by apply readFile_ok]. reflexivity.
  - erewrite bind_ok; [|by apply readFile_ok]. reflexivity.
  - erewrite bind_ok; [|by apply readFile_ok]. reflexivity.
  - erewrite bind_throw; [done|by apply readFile_EISDIR].
  - erewrite bind_throw; [done|by apply readFile_ENOENT].
Qed.

Lemma reread_unloadable {C} (k : json → M C) rq s e :
  load_error (fs_lookup rq (st_fs s)) = Some e →
  (raw ← fs.readFile rq; requestData ← of_result (JSON_parse raw);
   requestData ← Worker.set_prop requestData "status" (JStr "error");
   k requestData) s = (Throw e, s).
Proof.
  unfold load_error. intros He.
  destruct (fs_lookup rq (st_fs s)) as [[[|[]|]|]|] eqn:Hx; try discriminate;
    injection He as <-.
  - erewrite bind_ok; [|by apply readFile_ok]. reflexivity.
  - erewrite bind_ok; [|by apply readFile_ok]. reflexivity.
  - erewrite bind_ok; [|by apply readFile_ok]. reflexivity.
  - erewrite bind_throw; [done|by apply readFile_EISDIR].
  - erewrite bind_throw; [done|by apply readFile_ENOENT].
Qed.

(** X6. When the file of a candidate does not load as a Request Record (it
    is gone, is a directory, holds an empty or cut-short text, or holds
    [null]), the task calls the target not once, writes a Response Record
    with [statusCode] 500 and the error's message under the file's name,
    without a completion marker, and then fails with the same error while it
    tries to set the status: the request file is left as it was, the lock is
    given back and the slot released, and the task's promise is rejected. *)
Theorem X6_unreadable_request_is_answered_500 axios file s e :
  let rq := (REQUESTS_DIR, file) in
  let rs := (RESPONSES_DIR, replace ".json" EmptyString file +:+ ".json") in
  load_error (fs_lookup rq (st_fs s)) = Some e →
  is_Some (fs_dir REQUESTS_DIR (st_fs s)) →
  fs_lookup (lock_of rq) (st_fs s) ≠ Some Directory →
  is_Some (fs_dir RESPONSES_DIR (st_fs s)) →
  fs_lookup rs (st_fs s) ≠ Some Directory →
  let r := Worker.task axios file s in
  r.1 = Throw e ∧
  st_trace r.2 = st_trace s ∧
  fs_lookup rs (st_fs r.2)
  = Some (File (Json (failure_response (message e) (st_now s)))) ∧
  fs_lookup (done_of rs) (st_fs r.2) = fs_lookup (done_of rs) (st_fs s) ∧
  fs_lookup rq (st_fs r.2) = fs_lookup rq (st_fs s) ∧
  fs_lookup (lock_of rq) (st_fs r.2) = None ∧
  st_sem r.2 = (Semaphore.release (st_sem s)).2.
Proof.
  intros rq rs He Hrd Hlock Hsd Hrs r.
  assert (rs ≠ lock_of rq) as Hne1 by (by apply path_dir_ne).
  assert (rs ≠ rq) as Hne2 by (by apply path_dir_ne).
  assert (done_of rs ≠ lock_of rq) as Hne3 by (by apply path_dir_ne).
  assert (rq ≠ lock_of rq) as Hne4 by (apply not_eq_sym, lock_of_ne).
  set (F1 := fs_write (lock_of rq) (File Empty) (st_fs s)).
  set (F2 := fs_write rs (File (Json (failure_response (message e) (st_now s)))) F1).
  assert (Worker.task axios file s
          = (Throw e, set_sem (Semaphore.release (st_sem s)).2
                        (set_fs (fs_remove (lock_of rq) F2) s))) as Hrun.
  { unfold Worker.task, Worker.claim, try_finally. fold rq.
    erewrite bind_ok; [|by apply Worker_lockFile_run]. cbn [negb]. fold F1.
    erewrite try_catch_throw; cycle 1.
    { apply process_unloadable. cbn [st_fs set_fs]. unfold F1. by fs_simp. }
    unfold Worker.on_error. fold rs.
    erewrite bind_ok; [|reflexivity].
    erewrite bind_ok; cycle 1.
    { apply writeFile_run; cbn [st_fs set_fs]; unfold F1; fs_simp; done. }
    cbn [st_now set_fs]. fold F2.
    rewrite (reread_unloadable _ rq _ e); cycle 1.
    { cbn [st_fs set_fs]. unfold F2, F1. by fs_simp. }
    erewrite Worker_unlockFile_run; cycle 1.
    { cbn [st_fs set_fs]. unfold F2, F1. fs_simp; done. }
    unfold Worker.sem_release. cbn [snd st_fs set_fs st_sem]. by destruct s. }
  subst r. rewrite Hrun. cbn [fst snd st_trace st_fs st_sem set_sem set_fs].
  unfold F2, F1. repeat split; fs_simp; done.
Qed.

Lemma X6_witness :
  let r := Worker.task widget_axios "a.json" (state_of fs_cut) in
  r.1 = Throw SyntaxError ∧
  fs_lookup (RESPONSES_DIR, "a.json") (st_fs r.2)
  = Some (File (Json (failure_response "SyntaxError" 0))) ∧
  fs_lookup (REQUESTS_DIR, "a.json") (st_fs r.2) = Some (File Truncated).
Proof.
  destruct (X6_unreadable_request_is_answered_500 widget_axios "a.json"
              (state_of fs_cut) SyntaxError) as (H1 & _ & H3 & _ & H5 & _).
  - reflexivity.
  - by eexists.
  - vm_compute. congruence.
  - by eexists.
  - vm_compute. congruence.
  - split; [exact H1|]. split; [exact H3|exact H5].
Defined.

Lemma touches_task axios file :
  touches (batch_paths [file]) (Worker.task axios file).
Proof.
  unfold Worker.task. apply touches_try_finally.
  - eapply touches_mono; [|apply touches_claim]. cbn beta.
    intros q [Hq|[Hq|Hq]]; [right|right|by left]; exists file;
      (split; [by apply list_elem_of_singleton|]); auto.
  - by intros s q _.
Qed.

Lemma touches_run_tasks axios batch :
  touches (batch_paths batch) (Worker.run_tasks axios batch).
Proof.
  induction batch as [|file batch IH]; intros s q Hq; cbn [Worker.run_tasks]; [done|].
  pose proof (touches_task axios file s q) as Ht.
  assert (¬ batch_paths [file] q) as H1.
  { intros [H|(g & ->%list_elem_of_singleton & H)]; apply Hq; [by left|].
    right. exists file. split; [by left|done]. }
  assert (¬ batch_paths batch q) as H2.
  { intros [H|(g & Hg & H)]; apply Hq; [by left|].
    right. exists g. split; [by right|done]. }
  specialize (Ht H1).
  destruct (Worker.task axios file s) as [[[]|e] s']; cbn [snd] in *;
    by rewrite IH.
Qed.

Lemma touches_run_batch axios batch :
  touches (batch_paths batch) (Worker.run_batch axios batch).
Proof.
  unfold Worker.run_batch.
  apply touches_bind; [by intros s q _|intros _].
  apply touches_bind; [intros s q _; by rewrite acquire_all_fs|intros _].
  apply touches_run_tasks.
Qed.

Lemma keeps_processed_run_batch axios batch :
  keeps st_processed (Worker.run_batch axios batch).
Proof.
  unfold Worker.run_batch.
  apply keeps_bind; [done|intros _].
  apply keeps_bind; [apply keeps_processed_acquire_all|intros _].
  apply keeps_processed_run_tasks.
Qed.

Lemma NoDup_take_drop {A} (l : list A) n x :
  NoDup l → x ∈ take n l → x ∈ drop n l → False.
Proof.
  intros Hnd H1 H2. rewrite <- (take_drop n l) in Hnd.
  apply NoDup_app in Hnd as (_ & Hd & _). by eapply Hd.
Qed.

(** X7. When a task of the first batch is rejected, [Promise.all] rejects,
    the loop over the batches is left and the tick ends normally: the
    candidates beyond the first [BATCH_SIZE] are not dispatched in this tick;
    their request files and lock paths are as before.  They were nevertheless
    added to the recently-seen set when the tick began. *)
Theorem X7_rejection_ends_the_tick axios s m e :
  fs_dir REQUESTS_DIR (st_fs s) = Some m →
  is_Some (fs_dir RESPONSES_DIR (st_fs s)) →
  let newFiles := Worker.newFiles_of (map fst (map_to_list m)) (st_processed s) in
  let s1 := set_processed (Worker.remember newFiles (st_processed s)) s in
  let first := take Worker.BATCH_SIZE newFiles in
  (Worker.run_batch axios first s1).1 = Throw e →
  let r := Worker.tick axios s in
  r = (Ok tt, (Worker.run_batch axios first s1).2) ∧
  ∀ f, f ∈ drop Worker.BATCH_SIZE newFiles →
    fs_lookup (REQUESTS_DIR, f) (st_fs r.2) = fs_lookup (REQUESTS_DIR, f) (st_fs s) ∧
    fs_lookup (lock_of (REQUESTS_DIR, f)) (st_fs r.2)
    = fs_lookup (lock_of (REQUESTS_DIR, f)) (st_fs s) ∧
    ((length newFiles ≤ Worker.MAX_PROCESSED_FILES)%nat → f ∈ st_processed r.2).
Proof.
  intros Hrd Hsd newFiles s1 first Hthrow r.
  assert (NoDup newFiles) as Hnd.
  { apply NoDup_filter, NoDup_fst_map_to_list. }
  assert (newFiles ≠ []) as Hne.
  { intros Hnil. unfold first in Hthrow. rewrite Hnil in Hthrow. discriminate. }
  assert (r = (Ok tt, (Worker.run_batch axios first s1).2)) as Hr.
  { unfold r, Worker.tick. erewrite bind_ok; cycle 1.
    { unfold Worker.checkDirs, fs.access_dir. unfold_m. rewrite Hrd.
      destruct Hsd as [m2 ->]. reflexivity. }
    unfold Worker.processRequests.
    destruct (Worker.run_batch axios first s1) as [[[]|e'] s2] eqn:Hb; [discriminate|].
    cbn [snd]. erewrite try_catch_throw; [reflexivity|].
    erewrite bind_ok; [|unfold fs.readdir; by rewrite Hrd].
    erewrite bind_ok; [|reflexivity]. cbv beta zeta. fold newFiles.
    destruct (length newFiles) as [|n] eqn:Hlen;
      [by apply length_zero_iff_nil in Hlen|].
    cbn [Nat.eqb].
    erewrite bind_ok; [|reflexivity]. fold s1.
    rewrite batches_of_cons by done. cbn [Worker.run_batches]. fold first.
    erewrite bind_throw; [|exact Hb]. by injection Hthrow as ->. }
  split; [exact Hr|]. intros f Hf. rewrite Hr. cbn [snd].
  assert (f ∈ newFiles) as Hfn by (eapply subseteq_drop, Hf).
  assert (endsWith f ".json" = true) as Hjson.
  { by apply newFiles_of_spec in Hfn as (_ & ? & _). }
  assert (∀ g, g ∈ first → endsWith g ".json" = true) as Hfirst.
  { intros g Hg. assert (g ∈ newFiles) as Hgn by (eapply subseteq_take, Hg).
    by apply newFiles_of_spec in Hgn as (_ & ? & _). }
  split; [|split].
  - apply (touches_run_batch axios first s1).
    intros [H|(g & Hg & [H|H])]; [discriminate| |].
    + injection H as ->. by eapply (NoDup_take_drop newFiles).
    + injection H as ->. specialize (Hfirst _ Hg).
      pose proof (endsWith_json_only _ ".lock" Hjson eq_refl) as Hl.
      rewrite endsWith_append in Hl. by discriminate Hl.
  - apply (touches_run_batch axios first s1).
    intros [H|(g & Hg & [H|H])]; [discriminate| |].
    + injection H as H. specialize (Hfirst _ Hg). rewrite <- H in Hfirst.
      pose proof (endsWith_json_only _ ".lock" Hfirst eq_refl) as Hl.
      rewrite endsWith_append in Hl. by discriminate Hl.
    + injection H as H. apply append_inj_r in H as ->.
      by eapply (NoDup_take_drop newFiles).
  - intros Hlen. rewrite keeps_processed_run_batch. cbn [st_processed set_processed].
    apply remember_keeps_candidates; [done|done|].
    by apply newFiles_of_spec in Hfn as (_ & _ & ?).
Qed.

Lemma X7_witness :
  let r := Worker.tick widget_axios (state_of fs_backlog) in
  r.1 = Ok tt ∧
  fs_lookup (REQUESTS_DIR, "r00.json") (st_fs r.2) = Some (File Truncated) ∧
  fs_lookup (lock_of (REQUESTS_DIR, "r00.json")) (st_fs r.2) = None ∧
  "r00.json" ∈ st_processed r.2.
Proof.
  destruct (X7_rejection_ends_the_tick widget_axios (state_of fs_backlog)
              (list_to_map (map (λ n, (n, File Truncated)) backlog_names))
              SyntaxError) as [Hr Hlater].
  - reflexivity.
  - by eexists.
  - vm_compute. reflexivity.
  - destruct (Hlater "r00.json") as (H1 & H2 & H3).
    + vm_compute. apply list_elem_of_singleton. reflexivity.
    + split; [by rewrite Hr|]. split; [rewrite H1; vm_compute; reflexivity|].
      split; [rewrite H2; vm_compute; reflexivity|].
      apply H3. apply Nat.leb_le. vm_compute. reflexivity.
Defined.

(** *** What a tick never removes *)

Section Names.
Context (P : fpath → Prop).

Lemma keeps_names_touches {A} (m : M A) : touches P m → keeps_names P m.
Proof. intros Hm s q Hq Hs. by rewrite Hm. Qed.

Lemma keeps_names_bind {A C} (m : M A) (f : A → M C) :
  keeps_names P m → (∀ a, keeps_names P (f a)) → keeps_names P (m ≫= f).
Proof.
  intros Hm Hf s q Hq Hs. unfold mbind, M_bind. specialize (Hm s q Hq Hs).
  destruct (m s) as [[a|e] s']; cbn in *; [|done]. by apply Hf.
Qed.

Lemma keeps_names_try_catch {A} (m : M A) h :
  keeps_names P m → (∀ e, keeps_names P (h e)) → keeps_names P (try_catch m h).
Proof.
  intros Hm Hh s q Hq Hs. unfold try_catch. specialize (Hm s q Hq Hs).
  destruct (m s) as [[a|e] s']; cbn in *; [done|]. by apply Hh.
Qed.

Lemma keeps_names_try_finally {A C} (m : M A) (f : M C) :
  keeps_names P m → keeps_names P f → keeps_names P (try_finally m f).
Proof.
  intros Hm Hf s q Hq Hs. unfold try_finally. specialize (Hm s q Hq Hs).
  destruct (m s) as [r s']. specialize (Hf s' q Hq Hm).
  by destruct (f s') as [[c|e] s''].
Qed.

(** A write creates or replaces a name; it removes none. *)
Lemma keeps_names_writeFile p c : keeps_names P (fs.writeFile p c).
Proof.
  intros s q _ Hs. destruct (writeFile_cases p c s) as [->|[e ->]]; [|done].
  cbn [snd st_fs set_fs]. destruct (decide (q = p)) as [->|Hne].
  - rewrite fs_lookup_write_eq; [by eexists|].
    destruct Hs as [x Hx]. by eapply fs_lookup_is_Some_dir.
  - by rewrite fs_lookup_write_ne.
Qed.

End Names.

Ltac names_step :=
  first
    [ apply keeps_names_bind; [|intros ?]
    | apply keeps_names_try_catch; [|intros ?]
    | apply keeps_names_try_finally
    | apply keeps_names_writeFile
    | match goal with
      | |- keeps_names _ (match ?x with _ => _ end) => destruct x
      | |- keeps_names _ (if ?b then _ else _) => destruct b
      end
    | apply keeps_names_touches; solve [eauto with frame] ].

Lemma keeps_names_unlockFile p : keeps_names is_lock (Worker.unlockFile p).
Proof.
  apply keeps_names_touches.
  eapply touches_mono; [|apply touches_Worker_unlockFile].
  intros q ->. apply endsWith_append.
Qed.

Lemma keeps_names_lockFile p : keeps_names is_lock (Worker.lockFile p).
Proof. unfold Worker.lockFile. repeat names_step. Qed.

Lemma keeps_names_process axios rq : keeps_names is_lock (Worker.process axios rq).
Proof.
  unfold Worker.process, Worker.write_response.
  repeat first
    [ apply keeps_names_lockFile | apply keeps_names_unlockFile
    | apply keeps_names_touches;
      first [apply touches_retry_loop|apply touches_get_prop|apply touches_set_prop]
    | names_step ].
Qed.

Lemma keeps_names_on_error file rq e : keeps_names is_lock (Worker.on_error file rq e).
Proof.
  unfold Worker.on_error.
  repeat first
    [ apply keeps_names_touches; first [apply touches_get_prop|apply touches_set_prop]
    | names_step ].
Qed.

Lemma keeps_names_task axios file : keeps_names is_lock (Worker.task axios file).
Proof.
  unfold Worker.task, Worker.claim.
  repeat first
    [ apply keeps_names_lockFile | apply keeps_names_unlockFile
    | apply keeps_names_process | apply keeps_names_on_error
    | by intros s q _ Hs
    | names_step ].
Qed.

Lemma keeps_names_run_tasks axios batch :
  keeps_names is_lock (Worker.run_tasks axios batch).
Proof.
  induction batch as [|file batch IH]; intros s q Hq Hs; cbn [Worker.run_tasks];
    [exact Hs|].
  pose proof (keeps_names_task axios file s q Hq Hs) as Ht.
  destruct (Worker.task axios file s) as [[[]|e] s']; cbn [snd] in *; by apply IH.
Qed.

Lemma keeps_names_run_batches axios batches :
  keeps_names is_lock (Worker.run_batches axios batches).
Proof.
  induction batches as [|batch batches IH]; cbn [Worker.run_batches];
    [by intros s q _ Hs|].
  apply keeps_names_bind; [|intros _; apply IH]. unfold Worker.run_batch.
  apply keeps_names_bind; [by intros s q _ Hs|intros _].
  apply keeps_names_bind; [intros s q _ Hs; by rewrite acquire_all_fs|intros _].
  apply keeps_names_run_tasks.
Qed.

Lemma keeps_names_tick axios : keeps_names is_lock (Worker.tick axios).
Proof.
  unfold Worker.tick, Worker.processRequests, Worker.checkDirs.
  repeat first
    [ apply keeps_names_run_batches
    | apply keeps_names_touches; by intros s q _
    | apply keeps_names_touches; intros s q _; unfold fs.access_dir;
      by destruct (fs_dir _ (st_fs s))
    | apply keeps_names_touches; intros s q _; unfold fs.readdir;
      by destruct (fs_dir _ (st_fs s))
    | names_step ].
Qed.

(** X8. A tick of the worker removes nothing from the shared folder but
    lock markers: every other name that exists before the tick (a Request
    Record, a Response Record, a completion marker) exists after it.  In the
    requests directory it creates nothing but lock markers either: a name
    that is absent before the tick is absent after it. *)
Theorem X8_worker_removes_lock_markers_only axios s q :
  endsWith q.2 ".lock" = false →
  (is_Some (fs_lookup q (st_fs s)) →
   is_Some (fs_lookup q (st_fs (Worker.tick axios s).2))) ∧
  (q.1 = REQUESTS_DIR → fs_lookup q (st_fs s) = None →
   fs_lookup q (st_fs (Worker.tick axios s).2) = None).
Proof.
  intros Hq. split.
  - apply keeps_names_tick. unfold is_lock. by rewrite Hq.
  - intros Hdir Hnone.
    destruct (forward_tick axios s q Hdir Hq) as [Hsame|l v Hx _ _ _];
      [by rewrite Hsame|congruence].
Qed.

Lemma X8_witness :
  is_Some (fs_lookup (REQUESTS_DIR, "a.json")
             (st_fs (Worker.tick widget_axios (state_of fs_a)).2)) ∧
  fs_lookup (REQUESTS_DIR, "b.json")
    (st_fs (Worker.tick widget_axios (state_of fs_a)).2) = None.
Proof.
  split.
  - apply (X8_worker_removes_lock_markers_only widget_axios (state_of fs_a)
             (REQUESTS_DIR, "a.json")); [reflexivity|by eexists].
  - apply (X8_worker_removes_lock_markers_only widget_axios (state_of fs_a)
             (REQUESTS_DIR, "b.json")); reflexivity.
Defined.

(** ** The semaphore's queue, the timer's guard, the log filter *)

Lemma Semaphore_fifo ops s held :
  Semaphore.current s ≤ Semaphore.maxConcurrent s →
  (Semaphore.queue s ≠ [] → Semaphore.current s = Semaphore.maxConcurrent s) →
  let s' := (Semaphore.run ops s held).1 in
  (Semaphore.queue s ++ parked ops s = resumed ops s ++ Semaphore.queue s')%list ∧
  (Semaphore.queue s' ≠ [] → Semaphore.current s' = Semaphore.maxConcurrent s').
Proof.
  revert s held. induction ops as [|o ops IH]; intros s held Hle Hfull.
  - cbn. by rewrite app_nil_r.
  - cbn [Semaphore.run parked resumed]. destruct o as [task|].
    + cbn [Semaphore.step]. unfold Semaphore.acquire.
      destruct (Z.ltb_spec (Semaphore.current s) (Semaphore.maxConcurrent s)) as [Hlt|Hge];
        cbn [fst snd].
      * destruct (IH (Semaphore.mk (Semaphore.maxConcurrent s) (Semaphore.current s + 1)
                        (Semaphore.queue s))
                     (held + Semaphore.handed (Semaphore.Acquire task) s))
          as [H1 H2]; cbn [Semaphore.current Semaphore.maxConcurrent Semaphore.queue].
        { lia. }
        { intros Hq. apply Hfull in Hq. lia. }
        cbn [Semaphore.queue] in H1. done.
      * destruct (IH (Semaphore.mk (Semaphore.maxConcurrent s) (Semaphore.current s)
                        (Semaphore.queue s ++ [task]))
                     (held + Semaphore.handed (Semaphore.Acquire task) s))
          as [H1 H2]; cbn [Semaphore.current Semaphore.maxConcurrent Semaphore.queue].
        { lia. }
        { intros _. lia. }
        cbn [Semaphore.queue] in H1. split; [|done].
        cbn [app]. rewrite <- H1. by rewrite <- app_assoc.
    + cbn [Semaphore.step]. unfold Semaphore.release.
      destruct (Semaphore.queue s) as [|resolve rest] eqn:Hq; cbn [fst snd option_list].
      * destruct (IH (Semaphore.mk (Semaphore.maxConcurrent s) (Semaphore.current s - 1) [])
                     (held + Semaphore.handed Semaphore.Release s))
          as [H1 H2]; cbn [Semaphore.current Semaphore.maxConcurrent Semaphore.queue].
        { lia. }
        { done. }
        cbn [Semaphore.queue] in H1. done.
      * destruct (IH (Semaphore.mk (Semaphore.maxConcurrent s) (Semaphore.current s) rest)
                     (held + Semaphore.handed Semaphore.Release s))
          as [H1 H2]; cbn [Semaphore.current Semaphore.maxConcurrent Semaphore.queue].
        { lia. }
        { intros _. apply Hfull. done. }
        cbn [Semaphore.queue] in H1. split; [|done].
        cbn [app]. by rewrite H1.
Qed.

(** X9. The semaphore serves its queue first in, first out: for every
    history of [acquire] and [release] calls on a fresh semaphore, the tasks
    resumed so far followed by the tasks still queued are the tasks parked so
    far, in the order in which they were parked.  A task waits only while
    every slot is taken: whenever the queue is not empty, [current] equals
    [maxConcurrent]. *)
Theorem X9_semaphore_is_first_in_first_out maxConcurrent ops :
  0 ≤ maxConcurrent →
  let s' := (Semaphore.run ops (Semaphore.new maxConcurrent) 0).1 in
  parked ops (Semaphore.new maxConcurrent)
  = (resumed ops (Semaphore.new maxConcurrent) ++ Semaphore.queue s')%list ∧
  (Semaphore.queue s' ≠ [] → Semaphore.current s' = maxConcurrent).
Proof.
  intros Hmax s'. subst s'.
  destruct (Semaphore_fifo ops (Semaphore.new maxConcurrent) 0) as [H1 H2]; [done|done|].
  split; [exact H1|].
  intros Hq. rewrite (H2 Hq).
  by destruct (Semaphore_run_invariant ops (Semaphore.new maxConcurrent) 0 eq_refl Hmax)
    as (_ & _ & ->).
Qed.

Lemma X9_witness :
  let ops := [Semaphore.Acquire 0; Semaphore.Acquire 1; Semaphore.Acquire 2;
              Semaphore.Release; Semaphore.Acquire 3] in
  parked ops (Semaphore.new 1) = [1; 2; 3]%nat ∧
  resumed ops (Semaphore.new 1) = [1]%nat ∧
  Semaphore.queue (Semaphore.run ops (Semaphore.new 1) 0).1 = [2; 3]%nat.
Proof.
  intros ops.
  destruct (X9_semaphore_is_first_in_first_out 1 ops) as [H _]; [lia|].
  split; [rewrite H; reflexivity|]. split; reflexivity.
Defined.

Lemma Polling_run_app events e p :
  Polling.run (events ++ [e]) p = Polling.step e (Polling.run events p).
Proof. unfold Polling.run. by rewrite foldl_app. Qed.

(** X10. However the firings of the polling timer and the ends of the
    callbacks interleave, at most one callback is past the guard at any time,
    and the flag [isProcessing] is set exactly while one is.  A firing while
    the flag is set starts nothing, and the end of a callback clears the
    flag. *)
Theorem X10_one_tick_at_a_time events :
  let p := Polling.run events Polling.start in
  (Polling.inFlight p ≤ 1)%nat ∧
  (Polling.isProcessing p = true ↔ Polling.inFlight p = 1%nat) ∧
  (Polling.isProcessing p = true → Polling.step Polling.Fires p = p) ∧
  Polling.isProcessing (Polling.step Polling.Settles p) = false.
Proof.
  cbn zeta.
  assert (Polling.inFlight (Polling.run events Polling.start)
          = if Polling.isProcessing (Polling.run events Polling.start)
            then 1%nat else 0%nat) as Hinv.
  { induction events as [|e events IH] using rev_ind; [done|].
    rewrite Polling_run_app.
    destruct (Polling.run events Polling.start) as [[] n]; cbn in *; subst;
      by destruct e. }
  destruct (Polling.run events Polling.start) as [[] n]; cbn in *; subst;
    repeat split; try done; lia.
Qed.

(** X11. A message is printed when its level is at or above the threshold
    taken from the environment variable [LOG_LEVEL], [INFO] when that is unset
    or empty.  The threshold is looked up by its exact name: when the
    variable holds any other text than [DEBUG], [INFO], [WARN] or [ERROR]
    (such as the lower-case [info] of the configuration files) nothing is
    printed at all, not even an error; with a known name, errors are always
    printed, and a message that is printed at one level is printed at every
    higher level. *)
Theorem X11_log_threshold env timestamp message data :
  let shown level := Log.log env timestamp level message data ≠ [] in
  (Log.LOG_LEVEL env ∉ ["DEBUG"; "INFO"; "WARN"; "ERROR"] → ∀ level, ¬ shown level) ∧
  (Log.LOG_LEVEL env ∈ ["DEBUG"; "INFO"; "WARN"; "ERROR"] → shown "ERROR") ∧
  (env = None ∨ env = Some EmptyString →
   ¬ shown "DEBUG" ∧ shown "INFO" ∧ shown "WARN" ∧ shown "ERROR") ∧
  (∀ l1 l2 n1 n2,
     Log.LOG_LEVELS l1 = Some n1 → Log.LOG_LEVELS l2 = Some n2 → n1 ≤ n2 →
     shown l1 → shown l2).
Proof.
  intros shown. unfold shown, Log.log, Log.LOG_LEVEL_NUM.
  assert (∀ v, v ∉ ["DEBUG"; "INFO"; "WARN"; "ERROR"] → Log.LOG_LEVELS v = None)
    as Hunknown.
  { intros v Hv. unfold Log.LOG_LEVELS.
    repeat match goal with
    | |- context [String.eqb v ?x] =>
        destruct (String.eqb_spec v x) as [->|_];
          [exfalso; apply Hv; set_solver|]
    end. done. }
  assert (∀ v, v ∈ ["DEBUG"; "INFO"; "WARN"; "ERROR"] →
               ∃ n, Log.LOG_LEVELS v = Some n ∧ n ≤ 3) as Hknown.
  { intros v Hv.
    repeat (apply elem_of_cons in Hv as [->|Hv]; [eexists; split; [reflexivity|lia]|]).
    by apply elem_of_nil in Hv. }
  split; [|split; [|split]].
  - intros Hv level. rewrite (Hunknown _ Hv).
    destruct (Log.LOG_LEVELS level); cbn; auto.
  - intros Hv. destruct (Hknown _ Hv) as (n & -> & Hn). cbn.
    destruct (Z.leb_spec n 3); [done|lia].
  - intros [-> | ->]; cbn; repeat split; auto.
  - intros l1 l2 n1 n2 -> -> Hle.
    destruct (Log.LOG_LEVELS (Log.LOG_LEVEL env)) as [n|]; cbn; [|done].
    destruct (Z.leb_spec n n1), (Z.leb_spec n n2); try done. lia.
Qed.

(** ** The handlers: polling turns and replies *)

Lemma Local_exists_run p s :
  Local.exists_ p s = (Ok (bool_decide (is_Some (fs_lookup p (st_fs s)))), s).
Proof.
  unfold Local.exists_, fs.access. unfold_m.
  destruct (fs_lookup p (st_fs s)) as [x|].
  - rewrite bool_decide_eq_true_2; [done|by eexists].
  - rewrite bool_decide_eq_false_2; [done|]. by intros [? ?].
Qed.

Lemma Local_attempt_run rs s :
  is_Some (fs_dir rs.1 (st_fs s)) →
  ∃ found,
    Local.attempt rs s = (Ok found, s) ∧
    ∀ j, found = Some j ↔
         fs_lookup (lock_of rs) (st_fs s) = None ∧
         is_Some (fs_lookup (done_of rs) (st_fs s)) ∧
         fs_lookup rs (st_fs s) = Some (File (Json j)).
Proof.
  intros Hd.
  destruct (fs_lookup (lock_of rs) (st_fs s)) as [x|] eqn:Hlock.
  { exists None. split.
    - unfold Local.attempt, try_catch.
      erewrite bind_ok; [|by eapply Local_lockFile_held]. done.
    - intros j. split; [done|]. by intros [? _]. }
  set (s1 := set_fs (fs_write (lock_of rs) (File Local.pid_text) (st_fs s)) s).
  assert (fs_lookup (done_of rs) (st_fs s1) = fs_lookup (done_of rs) (st_fs s)) as Hdone1.
  { unfold s1. cbn [st_fs set_fs]. by fs_simp. }
  assert (fs_lookup rs (st_fs s1) = fs_lookup rs (st_fs s)) as Hrs1.
  { unfold s1. cbn [st_fs set_fs]. by fs_simp. }
  assert (Local.unlockFile rs s1 = (Ok true, s)) as Hunlock.
  { erewrite Local_unlockFile_run; cycle 1.
    { unfold s1. cbn [st_fs set_fs]. apply fs_lookup_write_eq. by destruct rs. }
    unfold s1. cbn [st_fs set_fs]. rewrite fs_remove_write_absent by done.
    by rewrite set_fs_set_fs, set_fs_id. }
  assert (∀ (body : M (option json)) r,
            body s1 = (r, s1) →
            (lock ← Local.lockFile rs;
             if negb lock then mret None else try_finally body (Local.unlockFile rs)) s
            = (r, s)) as Hturn.
  { intros body r Hbody.
    erewrite bind_ok; [|by apply Local_lockFile_run]. fold s1. cbn [negb].
    unfold try_finally. by rewrite Hbody, Hunlock. }
  unfold Local.attempt.
  destruct (bool_decide (is_Some (fs_lookup (done_of rs) (st_fs s)))) eqn:Hdone; cycle 1.
  { exists None. apply bool_decide_eq_false in Hdone. split.
    - erewrite try_catch_ok; [done|]. apply Hturn.
      erewrite bind_ok; [|apply Local_exists_run].
      erewrite bind_ok; [|apply Local_exists_run].
      rewrite Hdone1, bool_decide_eq_false_2 by done. done.
    - intros j. split; [done|]. by intros (_ & ? & _). }
  apply bool_decide_eq_true in Hdone.
  destruct (fs_lookup rs (st_fs s)) as [[[|j'|]|]|] eqn:Hrs.
  - exists None. split; [|intros j; split; [done|by intros (_ & _ & ?)]].
    erewrite try_catch_ok; [done|]. apply Hturn.
    erewrite bind_ok; [|apply Local_exists_run].
    erewrite bind_ok; [|apply Local_exists_run].
    rewrite Hdone1, Hrs1, !bool_decide_eq_true_2 by (done || by eexists).
    cbn [andb]. erewrite bind_ok; [|apply readFile_ok; exact Hrs1]. done.
  - exists (Some j'). split; [|intros j; split; [by intros [= ->]|by intros (_ & _ & [= ->])]].
    erewrite try_catch_ok; [done|]. apply Hturn.
    erewrite bind_ok; [|apply Local_exists_run].
    erewrite bind_ok; [|apply Local_exists_run].
    rewrite Hdone1, Hrs1, !bool_decide_eq_true_2 by (done || by eexists).
    cbn [andb]. erewrite bind_ok; [|apply readFile_ok; exact Hrs1]. done.
  - exists None. split; [|intros j; split; [done|by intros (_ & _ & ?)]].
    erewrite try_catch_ok; [done|]. apply Hturn.
    erewrite bind_ok; [|apply Local_exists_run].
    erewrite bind_ok; [|apply Local_exists_run].
    rewrite Hdone1, Hrs1, !bool_decide_eq_true_2 by (done || by eexists).
    cbn [andb]. erewrite bind_ok; [|apply readFile_ok; exact Hrs1]. done.
  - exists None. split; [|intros j; split; [done|by intros (_ & _ & ?)]].
    erewrite try_catch_throw; [done|]. apply Hturn.
    erewrite bind_ok; [|apply Local_exists_run].
    erewrite bind_ok; [|apply Local_exists_run].
    rewrite Hdone1, Hrs1, !bool_decide_eq_true_2 by (done || by eexists).
    cbn [andb]. erewrite bind_throw; [done|apply readFile_EISDIR; exact Hrs1].
  - exists None. split; [|intros j; split; [done|by intros (_ & _ & ?)]].
    erewrite try_catch_ok; [done|]. apply Hturn.
    erewrite bind_ok; [|apply Local_exists_run].
    erewrite bind_ok; [|apply Local_exists_run].
    rewrite Hdone1, Hrs1, bool_decide_eq_true_2 by done.
    rewrite bool_decide_eq_false_2 by (by intros [? ?]). done.
Qed.

Lemma fs_lookup_set_dir_empty p f :
  fs_lookup p (fs_set_dir p.1 (Some ∅) f) = None.
Proof.
  unfold fs_lookup. rewrite fs_dir_set_dir, decide_True by done. apply lookup_empty.
Qed.

Lemma Local_attempt_no_dir rs s :
  fs_dir rs.1 (st_fs s) = None →
  Local.attempt rs s = (Ok None, set_fs (fs_set_dir rs.1 (Some ∅) (st_fs s)) s).
Proof.
  intros Hd. set (s0 := set_fs (fs_set_dir rs.1 (Some ∅) (st_fs s)) s).
  assert (is_Some (fs_dir rs.1 (st_fs s0))) as Hd0.
  { unfold s0. cbn [st_fs set_fs]. rewrite fs_dir_set_dir, decide_True by done. by eexists. }
  assert (fs.mkdir (lock_of rs).1 s = (Ok tt, s0)) as Hmk.
  { unfold fs.mkdir, put_fs. cbn [lock_of fst]. by rewrite Hd. }
  assert (Local.lockFile rs s = Local.lockFile rs s0) as Hlock.
  { unfold Local.lockFile, try_catch.
    erewrite (bind_ok (fs.mkdir _) _ s); [|exact Hmk].
    erewrite (bind_ok (fs.mkdir _) _ s0); [|by apply mkdir_run]. reflexivity. }
  transitivity (Local.attempt rs s0).
  - unfold Local.attempt, try_catch, mbind, M_bind. by rewrite Hlock.
  - apply Local_attempt_waiting; [done|..]; unfold s0; cbn [st_fs set_fs];
      [apply (fs_lookup_set_dir_empty (lock_of rs))|apply (fs_lookup_set_dir_empty (done_of rs))].
Qed.

(** X12. A turn of the marker-aware polling loop only reads: where the
    directory of the response file exists, it leaves the process state and the
    shared folder exactly as it found them, whatever they hold (a lock it took
    it gives back, a lock of somebody else it does not touch), and it never
    throws.  It yields a response exactly when the response file is not
    locked, its completion marker exists and the file holds a text that
    parses.  Where the directory is missing the turn creates it, empty, and
    finds nothing. *)
Theorem X12_polling_turn_reads_only rs s :
  (is_Some (fs_dir rs.1 (st_fs s)) →
   ∃ found,
     Local.attempt rs s = (Ok found, s) ∧
     ∀ j, found = Some j ↔
          fs_lookup (lock_of rs) (st_fs s) = None ∧
          is_Some (fs_lookup (done_of rs) (st_fs s)) ∧
          fs_lookup rs (st_fs s) = Some (File (Json j))) ∧
  (fs_dir rs.1 (st_fs s) = None →
   Local.attempt rs s = (Ok None, set_fs (fs_set_dir rs.1 (Some ∅) (st_fs s)) s)).
Proof. split; [apply Local_attempt_run|apply Local_attempt_no_dir]. Qed.

Lemma Local_attempt_locked rs s :
  is_Some (fs_lookup (lock_of rs) (st_fs s)) → Local.attempt rs s = (Ok None, s).
Proof.
  intros [x Hx]. unfold Local.attempt, try_catch.
  erewrite bind_ok; [|by eapply Local_lockFile_held]. done.
Qed.

Lemma Local_wait_loop_locked world io_time rs remaining attempts s :
  is_Some (fs_lookup (lock_of rs) (st_fs s)) →
  (∀ k f, is_Some (fs_lookup (lock_of rs) f) → is_Some (fs_lookup (lock_of rs) (world k f))) →
  let r := Local.wait_loop world io_time rs remaining attempts s in
  r.1 = Ok None ∧
  st_now r.2 = st_now s + Local.POLL_INTERVAL * Z.of_nat remaining
               + io_total io_time attempts remaining ∧
  st_trace r.2 = (st_trace s ++ replicate remaining (EvSleep Local.POLL_INTERVAL))%list.
Proof.
  intros Hlock Hworld. revert attempts s Hlock.
  induction remaining as [|remaining IH]; intros attempts s Hlock.
  - cbn. rewrite app_nil_r. split; [done|]. split; [lia|done].
  - cbn zeta. cbn [Local.wait_loop].
    erewrite bind_ok; [|by apply Local_attempt_locked].
    unfold Local.pause, elapse, sleep, modify, mbind, M_bind.
    match goal with |- context [Local.wait_loop _ _ _ _ _ ?s2] =>
      destruct (IH (S attempts) s2) as (H1 & H2 & H3)
    end.
    { cbn. by apply Hworld. }
    split; [done|]. rewrite H2, H3. cbn [st_now st_trace set_fs io_total]. split; [lia|].
    by rewrite <- app_assoc.
Qed.

(** X13. A lock marker that stays on the response file starves the
    marker-aware handler: as long as the marker exists at every turn, the
    handler takes no response, although the Response Record and its Completion
    Marker may be complete, and answers 504 after all [MAX_ATTEMPTS] turns. *)
Theorem X13_stale_lock_starves_the_waiter world io_time express requestId req s :
  let rq := (REQUESTS_DIR, requestId +:+ ".json") in
  let rs := (RESPONSES_DIR, requestId +:+ ".json") in
  is_Some (fs_dir REQUESTS_DIR (st_fs s)) →
  fs_lookup rq (st_fs s) ≠ Some Directory →
  is_Some (fs_lookup (lock_of rs) (st_fs s)) →
  (∀ k f, is_Some (fs_lookup (lock_of rs) f) → is_Some (fs_lookup (lock_of rs) (world k f))) →
  let r := Local.app_all world io_time express requestId req s in
  r.1 = Ok (gateway_timeout
              (Local.POLL_INTERVAL * Z.of_nat Local.MAX_ATTEMPTS
               + io_total io_time 0 Local.MAX_ATTEMPTS)) ∧
  st_trace r.2
  = (st_trace s ++ replicate Local.MAX_ATTEMPTS (EvSleep Local.POLL_INTERVAL))%list.
Proof.
  intros rq rs Hd Hn Hlock Hworld r. subst r.
  assert (lock_of rs ≠ rq) as Hne by (by apply path_dir_ne).
  unfold Local.app_all, try_catch. fold rq rs.
  erewrite bind_ok; [|by apply submit_run].
  erewrite bind_ok; [|reflexivity].
  set (s1 := set_fs _ s).
  destruct (Local_wait_loop_locked world io_time rs Local.MAX_ATTEMPTS 0 s1)
    as (H1 & H2 & H3);
    [unfold s1; cbn [st_fs set_fs]; by rewrite fs_lookup_write_ne|done|].
  destruct (Local.wait_loop world io_time rs Local.MAX_ATTEMPTS 0 s1)
    as [r1 s2] eqn:Hloop.
  cbn [fst snd] in H1, H2, H3. subst r1.
  erewrite bind_ok; [|exact Hloop].
  unfold Date_now, mbind, M_bind, mret, M_ret. cbn [fst snd].
  split; [|done]. do 2 f_equal. rewrite H2. unfold s1. cbn [st_now set_fs]. lia.
Qed.

Lemma X13_witness :
  let s := state_of fs_stale in
  is_Some (fs_lookup (done_of (RESPONSES_DIR, "a.json")) (st_fs s)) ∧
  (Local.app_all (λ _ f, f) (λ _, 0) (λ _, None) "a" widget_request s).1
  = Ok (gateway_timeout 30000).
Proof.
  split; [by eexists|].
  destruct (X13_stale_lock_starves_the_waiter (λ _ f, f) (λ _, 0) (λ _, None) "a" widget_request
              (state_of fs_stale)) as [H _].
  - by eexists.
  - vm_compute. congruence.
  - by eexists.
  - intros k f Hf. exact Hf.
  - exact H.
Defined.







(** X15. The round trip for every request and every answer of the target.
    When the worker's tick falls into the handler's first wait and the target
    answers the call with any status, headers and body, the handler hands
    Express that status, those headers and that body, except that a part that
    is falsy in JavaScript is replaced by the handler's default: status [0]
    by 200, falsy headers by none, and a body that is [null], [false], [0] or
    the empty text by the empty object.  When Express sends this reply, it is
    the handler's answer and the shared folder is empty afterwards.  When the
    chain throws, the answer is 500 [Internal Server Error] and nothing is
    cleaned up: the Response Record, its Completion Marker and the Request
    Record, with status [completed], stay in the shared folder. *)
Theorem X15_round_trip_for_every_outcome
    world io_time express axios requestId req st h d s w :
  let f := requestId +:+ ".json" in
  let rq := (REQUESTS_DIR, f) in
  let rs := (RESPONSES_DIR, f) in
  st_fs s = empty_fs →
  f ∉ st_processed w →
  axios (requestData_of requestId req (st_now s)) 0%nat = Resolved st h d →
  (∀ store, world 0%nat store = st_fs (Worker.tick axios (set_fs store w)).2) →
  let reply := mkReply (if st =? 0 then JNum 200 else JNum st)
                       (if truthy h then h else JObj [])
                       (if truthy d then d else JObj []) in
  let r := Local.app_all world io_time express requestId req s in
  match express reply with
  | None => r.1 = Ok reply ∧ st_fs r.2 = empty_fs
  | Some _ =>
      r.1 = Ok send_failed ∧
      fs_lookup rs (st_fs r.2) = Some (File (Json (response_record st h d (st_now w)))) ∧
      fs_lookup (done_of rs) (st_fs r.2) = Some (File Empty) ∧
      fs_lookup rq (st_fs r.2)
      = Some (File (Json (JObj (assoc_set "status" (JStr "completed")
                                  (request_fields requestId req (st_now s))))))
  end.
Proof.
  intros f rq rs Hfs Hnew Hax Hworld reply r.
  set (rd := requestData_of requestId req (st_now s)) in *.
  set (F1 := fs_write rq (File (Json rd)) (st_fs s)).
  assert (∀ p, p ≠ rq → fs_lookup p F1 = None) as HF1.
  { intros p Hp. unfold F1. rewrite fs_lookup_write_ne by done.
    rewrite Hfs. apply fs_lookup_empty. }
  assert (∀ d, is_Some (fs_dir d F1)) as HdF1.
  { intros d'. unfold F1. apply fs_dir_write. rewrite Hfs. destruct d'; by eexists. }
  assert (rs ≠ rq ∧ lock_of rs ≠ rq ∧ done_of rs ≠ rq) as (Hn1 & Hn2 & Hn3)
    by (repeat split; path_ne).
  pose proof (tick_single axios (set_fs F1 w) requestId req (st_now s) st h d) as Htick.
  cbn zeta in Htick. fold f rq rs rd in Htick.
  specialize (Htick (f_equal _ Hfs) Hnew Hax).
  rewrite <- Hworld in Htick. cbn [st_fs set_fs st_now] in Htick.
  set (resp := response_record st h d (st_now w)) in *.
  assert (send resp = reply) as Hsend.
  { unfold send, resp, response_record, prop, js_or, reply.
    cbn [assoc_get String.eqb Ascii.eqb Bool.eqb truthy]. by destruct (st =? 0). }
  set (s2 := mkState (world 0%nat F1)
               (st_now s + io_time 0%nat + Local.POLL_INTERVAL + io_time 1%nat)
               (st_trace s ++ [EvSleep Local.POLL_INTERVAL])
               (st_processed s) (st_sem s)).
  assert (Local.wait_loop world io_time rs Local.MAX_ATTEMPTS 0 (set_fs F1 s)
          = (Ok (Some resp), s2)) as Hloop.
  { change Local.MAX_ATTEMPTS with (S (S 298)). rewrite Local_wait_loop_S.
    erewrite bind_ok; cycle 1.
    { apply Local_attempt_waiting; cbn [st_fs set_fs]; [done|apply HF1; path_ne..]. }
    erewrite bind_ok; [|reflexivity].
    unfold Local.pause.
    erewrite bind_ok; [|erewrite bind_ok; [|reflexivity]; reflexivity].
    rewrite Local_wait_loop_S.
    erewrite bind_ok; cycle 1.
    { apply (Local_attempt_found rs _ resp (File Empty));
        cbn [st_fs set_fs elapse sleep snd fst modify mbind M_bind mret M_ret];
        rewrite Htick; fs_simp; try done; dir_goal Hfs. }
    erewrite bind_ok; [|reflexivity]. unfold s2. cbn. do 2 f_equal; lia. }
  destruct (express reply) as [error|] eqn:He.
  - assert (Local.app_all world io_time express requestId req s = (Ok send_failed, s2))
      as Hrun.
    { unfold Local.app_all, try_catch. fold f rq rs.
      erewrite bind_ok; cycle 1.
      { apply submit_run; rewrite Hfs; [by eexists|by rewrite fs_lookup_empty]. }
      fold rq rd F1.
      erewrite bind_ok; [|reflexivity].
      erewrite bind_ok; [|exact Hloop].
      cbn [truthy resp response_record]. fold resp. rewrite Hsend.
      unfold respond, mbind, M_bind. by rewrite He. }
    unfold r. rewrite Hrun. cbn [fst snd s2 st_fs]. rewrite Htick.
    split; [done|]. repeat split; by fs_simp.
  - assert (Local.app_all world io_time express requestId req s
            = (Ok reply,
               set_fs (fs_remove rq (fs_remove (done_of rs) (fs_remove rs (world 0%nat F1))))
                 s2)) as Hrun.
    { unfold Local.app_all, try_catch. fold f rq rs.
      erewrite bind_ok; cycle 1.
      { apply submit_run; rewrite Hfs; [by eexists|by rewrite fs_lookup_empty]. }
      fold rq rd F1.
      erewrite bind_ok; [|reflexivity].
      erewrite bind_ok; [|exact Hloop].
      cbn [truthy resp response_record]. fold resp. rewrite Hsend.
      erewrite bind_ok; cycle 1.
      { unfold respond, mbind, M_bind. rewrite He. reflexivity. }
      cbv beta iota.
      erewrite bind_ok; cycle 1.
      { rewrite Local_cleanup_eq.
        erewrite (unlink_run rs); cycle 1.
        { cbn [st_fs set_fs snd fst]; unfold s2; cbn [st_fs]. rewrite Htick.
          fs_simp; first [done|dir_goal Hfs]. }
        erewrite (unlink_run (done_of rs)); cycle 1.
        { cbn [st_fs set_fs snd fst]; unfold s2; cbn [st_fs]. rewrite Htick.
          fs_simp; first [done|dir_goal Hfs]. }
        erewrite (unlink_run rq); cycle 1.
        { cbn [st_fs set_fs snd fst]; unfold s2; cbn [st_fs]. rewrite Htick.
          fs_simp; first [done|dir_goal Hfs]. }
        reflexivity. }
      reflexivity. }
    assert (∀ p, fs_lookup p (st_fs r.2) = None) as Hnone.
    { intros p. unfold r. rewrite Hrun. cbn [snd st_fs set_fs]. rewrite Htick.
      destruct (decide (p = rq)) as [->|Hp1]; [by fs_simp|].
      destruct (decide (p = done_of rs)) as [->|Hp2]; [by fs_simp|].
      destruct (decide (p = rs)) as [->|Hp3]; [by fs_simp|].
      destruct (decide (p = lock_of rq)) as [->|Hp4]; [by fs_simp|].
      destruct (decide (p = lock_of rs)) as [->|Hp5]; [by fs_simp|].
      fs_simp. by apply HF1. }
    split; [unfold r; by rewrite Hrun|].
    apply fs_empty_ext; [| |done]; unfold r; rewrite Hrun; cbn [snd st_fs set_fs];
      rewrite Htick; dir_goal Hfs.
Qed.

Lemma X15_witness :
  let world (k : nat) (store : FS) :=
    match k with
    | O => st_fs (Worker.tick numeric_axios (set_fs store (state_of empty_fs))).2
    | S _ => store
    end in
  let r := Local.app_all world (λ _, 0) picky_express "abc" note_request
             (state_of empty_fs) in
  r.1 = Ok send_failed ∧
  fs_lookup (RESPONSES_DIR, "abc.json") (st_fs r.2)
  = Some (File (Json (response_record 200 (JObj []) (JNum 42) 0))) ∧
  fs_lookup (RESPONSES_DIR, "abc.json.done") (st_fs r.2) = Some (File Empty) ∧
  fs_lookup (REQUESTS_DIR, "abc.json") (st_fs r.2)
  = Some (File (Json (JObj (assoc_set "status" (JStr "completed")
                              (request_fields "abc" note_request 0))))).
Proof.
  intros world r.
  apply (X15_round_trip_for_every_outcome world (λ _, 0) picky_express numeric_axios "abc"
           note_request 200 (JObj []) (JNum 42) (state_of empty_fs) (state_of empty_fs)).
  - reflexivity.
  - apply not_elem_of_nil.
  - reflexivity.
  - intros store. reflexivity.
Defined.

Lemma replace_stem id :
  dot_free id = true → replace ".json" EmptyString (id +:+ ".json") = id.
Proof.
  induction id as [|c id IH]; intros Hid; [done|].
  cbn [dot_free] in Hid. apply andb_true_iff in Hid as [Hc Hid].
  rewrite append_cons. cbn [replace].
  assert (String.prefix ".json" (String c (id +:+ ".json")) = false) as ->.
  { cbn [String.prefix]. destruct (ascii_dec "." c) as [<-|Hne]; [done|done]. }
  by rewrite IH.
Qed.

(** A tick of the worker on a store that holds one pending record, fresh to
    the worker, when the target cannot be reached. *)
Lemma tick_single_failed axios w requestId req now m0 m1 m2 :
  let f := requestId +:+ ".json" in
  let rq := (REQUESTS_DIR, f) in
  let rs := (RESPONSES_DIR, f) in
  let rd := requestData_of requestId req now in
  dot_free requestId = true →
  st_fs w = fs_write rq (File (Json rd)) empty_fs →
  f ∉ st_processed w →
  axios rd 0%nat = Rejected m0 → axios rd 1%nat = Rejected m1 →
  axios rd 2%nat = Rejected m2 →
  st_fs (Worker.tick axios w).2
  = fs_remove (lock_of rq)
      (fs_write rq (File (Json (JObj (assoc_set "status" (JStr "error")
                                        (request_fields requestId req now)))))
         (fs_write rs (File (Json (failure_response m2 (st_now w + 3000))))
            (fs_write (lock_of rq) (File Empty) (st_fs w)))).
Proof.
  intros f rq rs rd Hid Hfs Hnew H0 H1 H2.
  assert (fs_dir REQUESTS_DIR (st_fs w) = Some {[ f := File (Json rd) ]}) as Hrd
    by (rewrite Hfs, <- insert_empty; reflexivity).
  assert (is_Some (fs_dir RESPONSES_DIR (st_fs w))) as Hsd
    by (rewrite Hfs; by eexists).
  unfold Worker.tick.
  erewrite bind_ok; cycle 1.
  { unfold Worker.checkDirs, fs.access_dir. unfold_m. rewrite Hrd.
    destruct Hsd as [m ->]. reflexivity. }
  unfold Worker.processRequests, try_catch.
  erewrite bind_ok; [|by eapply readdir_single].
  erewrite bind_ok; [|reflexivity]. cbv beta.
  rewrite newFiles_of_single;
    [|apply endsWith_append|apply endsWith_json_not_lock|done].
  cbn [length Nat.eqb Worker.batches_of take drop Worker.BATCH_SIZE Worker.run_batches].
  erewrite bind_ok; [|reflexivity].
  unfold Worker.run_batch.
  erewrite bind_ok; [|erewrite bind_ok; [|reflexivity]; erewrite bind_ok; [|reflexivity]].
  2:{ unfold modify. cbn [Worker.run_tasks]. unfold Worker.task, try_finally.
      rewrite (claim_exhausted axios f _ (request_fields requestId req now) m0 m1 m2);
        [reflexivity|..];
        cbn [st_fs set_sem set_processed snd Worker.acquire_all]; try done;
        try (unfold f; rewrite replace_stem by done);
        try (rewrite Hfs; fs_simp; done). }
  cbn. unfold f. rewrite replace_stem by done. by destruct w.
Qed.

Lemma LocalOld_lockFile_run p s :
  is_Some (fs_dir p.1 (st_fs s)) →
  fs_lookup (lock_of p) (st_fs s) ≠ Some Directory →
  LocalOld.lockFile p s
  = (Ok true, set_fs (fs_write (lock_of p) (File Empty) (st_fs s)) s).
Proof. apply Worker_lockFile_run. Qed.

Lemma LocalOld_unlockFile_run p s c :
  fs_lookup (lock_of p) (st_fs s) = Some (File c) →
  LocalOld.unlockFile p s
  = (Ok true, set_fs (fs_remove (lock_of p) (st_fs s)) s).
Proof. apply Worker_unlockFile_run. Qed.

(** A turn of the earlier loop while the response is absent. *)
Lemma LocalOld_attempt_waiting rq rs s :
  is_Some (fs_dir rs.1 (st_fs s)) →
  fs_lookup (lock_of rs) (st_fs s) = None →
  fs_lookup rs (st_fs s) = None →
  LocalOld.attempt rq rs s = (Ok None, s).
Proof.
  intros Hd Hlock Hrs. unfold LocalOld.attempt.
  erewrite try_catch_throw; cycle 1.
  { erewrite bind_ok; [|apply LocalOld_lockFile_run; [done|by rewrite Hlock]].
    cbn [negb]. unfold try_finally.
    erewrite bind_throw; cycle 1.
    { apply readFile_ENOENT. cbn [st_fs set_fs]. by fs_simp. }
    erewrite LocalOld_unlockFile_run; cycle 1.
    { cbn [st_fs set_fs]. apply fs_lookup_write_eq. by destruct rs. }
    cbn [st_fs set_fs]. rewrite fs_remove_write_absent by done.
    rewrite set_fs_set_fs, set_fs_id. reflexivity. }
  done.
Qed.

(** A turn of the earlier loop on a response that parses: both records are
    unlinked, whether or not a marker exists. *)
Lemma LocalOld_attempt_found rq rs s j c :
  rq ≠ rs → rq ≠ lock_of rs →
  fs_lookup (lock_of rs) (st_fs s) = None →
  fs_lookup rs (st_fs s) = Some (File (Json j)) →
  fs_lookup rq (st_fs s) = Some (File c) →
  LocalOld.attempt rq rs s
  = (Ok (Some j),
     set_fs (fs_remove (lock_of rs)
               (fs_remove rq (fs_remove rs
                  (fs_write (lock_of rs) (File Empty) (st_fs s))))) s).
Proof.
  intros Hne1 Hne2 Hlock Hrs Hrq. unfold LocalOld.attempt.
  assert (is_Some (fs_dir rs.1 (st_fs s))) as Hd
    by (by apply (fs_lookup_is_Some_dir rs _ _ Hrs)).
  assert (rs ≠ lock_of rs) as Hne3 by (apply not_eq_sym, lock_of_ne).
  erewrite try_catch_ok; [reflexivity|].
  erewrite bind_ok; [|apply LocalOld_lockFile_run; [done|by rewrite Hlock]].
  cbn [negb]. unfold try_finally.
  erewrite bind_ok; cycle 1.
  { apply readFile_ok. cbn [st_fs set_fs]. fs_simp. exact Hrs. }
  erewrite bind_ok; [|reflexivity].
  erewrite bind_ok; cycle 1.
  { unfold catch_default. erewrite try_catch_ok; [reflexivity|].
    erewrite bind_ok; cycle 1.
    { eapply unlink_run. cbn [st_fs set_fs]. fs_simp. exact Hrs. }
    eapply unlink_run. cbn [st_fs set_fs]. fs_simp. exact Hrq. }
  unfold mret at 1, M_ret at 1.
  erewrite LocalOld_unlockFile_run; cycle 1.
  { cbn [st_fs set_fs]. fs_simp; [done|]. by destruct rs. }
  done.
Qed.

Lemma Local_wait_loop_idle world io_time rs remaining attempts s :
  (∀ k store, (attempts ≤ k)%nat → world k store = store) →
  is_Some (fs_dir rs.1 (st_fs s)) →
  fs_lookup (lock_of rs) (st_fs s) = None →
  fs_lookup (done_of rs) (st_fs s) = None →
  Local.wait_loop world io_time rs remaining attempts s
  = (Ok None,
     mkState (st_fs s)
       (st_now s + Local.POLL_INTERVAL * Z.of_nat remaining
        + io_total io_time attempts remaining)
       (st_trace s ++ replicate remaining (EvSleep Local.POLL_INTERVAL))
       (st_processed s) (st_sem s)).
Proof.
  revert attempts s. induction remaining as [|remaining IH];
    intros attempts s Hworld Hd Hlock Hdone.
  - cbn. rewrite app_nil_r. unfold mret, M_ret. f_equal. destruct s; cbn. f_equal. lia.
  - rewrite Local_wait_loop_S.
    erewrite bind_ok; [|by apply Local_attempt_waiting].
    erewrite bind_ok; [|reflexivity].
    unfold Local.pause.
    erewrite bind_ok; [|erewrite bind_ok; [|reflexivity]; reflexivity].
    cbn [elapse sleep modify snd st_fs st_now st_trace st_processed st_sem set_fs].
    rewrite Hworld by lia.
    rewrite IH; cbn [st_fs st_now st_trace st_processed st_sem set_fs]; try done.
    + f_equal. f_equal; [cbn [io_total]; lia|].
      rewrite <- app_assoc. done.
    + intros k store Hk. apply Hworld. lia.
Qed.

Lemma io_total_S io_time from count :
  io_total io_time from (S count) = io_time from + io_total io_time (S from) count.
Proof. done. Qed.

Lemma LocalOld_wait_loop_S world io_time rq rs remaining attempts :
  LocalOld.wait_loop world io_time rq rs (S remaining) attempts
  = (found ← LocalOld.attempt rq rs;
     elapse (io_time attempts);;
     match found with
     | Some response =>
         if truthy response then mret (Some response)
         else LocalOld.pause world attempts;;
              LocalOld.wait_loop world io_time rq rs remaining (S attempts)
     | None => LocalOld.pause world attempts;;
               LocalOld.wait_loop world io_time rq rs remaining (S attempts)
     end).
Proof. done. Qed.

(** X16. A failure of the worker reaches the caller through the earlier
    handler only.  For an id without a dot, when the worker's tick falls into
    the handler's first wait and the three calls for the record are rejected,
    the worker files its 500 record under the very name that the handler
    polls.  The earlier handler takes it on its next turn and answers 500 with
    the message of the last rejection (should Express throw on that reply,
    500 with the message of what it threw), and the shared folder is empty
    afterwards.  The marker-aware handler never takes it, for it has no
    completion marker: it answers 504 after all its turns and leaves the 500
    record and the Request Record, with status [error], in the shared
    folder. *)
Theorem X16_worker_failure_through_both_handlers
    world io_time express axios requestId req s w m0 m1 m2 :
  let f := requestId +:+ ".json" in
  let rd := requestData_of requestId req (st_now s) in
  dot_free requestId = true →
  st_fs s = empty_fs →
  f ∉ st_processed w →
  axios rd 0%nat = Rejected m0 → axios rd 1%nat = Rejected m1 →
  axios rd 2%nat = Rejected m2 →
  (∀ store, world 0%nat store = st_fs (Worker.tick axios (set_fs store w)).2) →
  (∀ k store, (0 < k)%nat → world k store = store) →
  let old := LocalOld.app_all world io_time express requestId req s in
  let new := Local.app_all world io_time express requestId req s in
  let reply := mkReply (JNum 500) (JObj [])
                 (JObj [("error", JStr "Internal Server Error"); ("message", JStr m2)]) in
  (old.1 = Ok (match express reply with
               | None => reply
               | Some error => internal_error error
               end) ∧
   st_fs old.2 = empty_fs) ∧
  (new.1 = Ok (gateway_timeout
                 (Local.POLL_INTERVAL * Z.of_nat Local.MAX_ATTEMPTS
                  + io_total io_time 0 Local.MAX_ATTEMPTS)) ∧
   fs_lookup (RESPONSES_DIR, f) (st_fs new.2)
   = Some (File (Json (failure_response m2 (st_now w + 3000)))) ∧
   fs_lookup (done_of (RESPONSES_DIR, f)) (st_fs new.2) = None ∧
   status_of (fs_lookup (REQUESTS_DIR, f) (st_fs new.2)) = Some (JStr "error")).
Proof.
  intros f rd Hid Hfs Hnew H0 H1 H2 Hworld Hidle old new reply.
  set (rq := (REQUESTS_DIR, f)). set (rs := (RESPONSES_DIR, f)).
  set (F1 := fs_write rq (File (Json rd)) (st_fs s)).
  assert (∀ p, p ≠ rq → fs_lookup p F1 = None) as HF1.
  { intros p Hp. unfold F1. rewrite fs_lookup_write_ne by done.
    rewrite Hfs. apply fs_lookup_empty. }
  assert (∀ d, is_Some (fs_dir d F1)) as HdF1.
  { intros d'. unfold F1. apply fs_dir_write. rewrite Hfs. destruct d'; by eexists. }
  assert (rs ≠ rq ∧ lock_of rs ≠ rq ∧ done_of rs ≠ rq) as (Hn1 & Hn2 & Hn3)
    by (repeat split; path_ne).
  assert (lock_of rs ≠ lock_of rq ∧ done_of rs ≠ lock_of rq ∧ rs ≠ lock_of rq)
    as (Hn4 & Hn5 & Hn6) by (repeat split; path_ne).
  pose proof (tick_single_failed axios (set_fs F1 w) requestId req (st_now s) m0 m1 m2)
    as Htick.
  cbn zeta in Htick. fold f rq rs rd in Htick.
  specialize (Htick Hid (f_equal _ Hfs) Hnew H0 H1 H2).
  rewrite <- Hworld in Htick. cbn [st_fs set_fs st_now] in Htick.
  set (failure := failure_response m2 (st_now w + 3000)) in *.
  set (settled := JObj (assoc_set "status" (JStr "error")
                          (request_fields requestId req (st_now s)))) in *.
  assert (fs_lookup rs (world 0%nat F1) = Some (File (Json failure))) as Hrs2.
  { rewrite Htick. fs_simp; [done|]. dir_goal Hfs. }
  assert (fs_lookup rq (world 0%nat F1) = Some (File (Json settled))) as Hrq2.
  { rewrite Htick. fs_simp; [done|]. dir_goal Hfs. }
  assert (fs_lookup (lock_of rs) (world 0%nat F1) = None) as Hlock2.
  { rewrite Htick. fs_simp. apply HF1. path_ne. }
  assert (fs_lookup (done_of rs) (world 0%nat F1) = None) as Hdone2.
  { rewrite Htick. fs_simp. apply HF1. path_ne. }
  assert (∀ d, is_Some (fs_dir d (world 0%nat F1))) as Hd2.
  { intros d'. rewrite Htick. destruct d'; dir_goal Hfs. }
  split.
  - set (s2 := mkState (fs_remove (lock_of rs)
                          (fs_remove rq (fs_remove rs
                             (fs_write (lock_of rs) (File Empty) (world 0%nat F1)))))
                 (st_now s + io_time 0%nat + LocalOld.POLL_INTERVAL + io_time 1%nat)
                 (st_trace s ++ [EvSleep LocalOld.POLL_INTERVAL])
                 (st_processed s) (st_sem s)).
    assert (LocalOld.wait_loop world io_time rq rs LocalOld.MAX_ATTEMPTS 0 (set_fs F1 s)
            = (Ok (Some failure), s2)) as Hloop.
    { change LocalOld.MAX_ATTEMPTS with (S (S 298)). rewrite LocalOld_wait_loop_S.
      erewrite bind_ok; cycle 1.
      { apply LocalOld_attempt_waiting; cbn [st_fs set_fs]; [done|apply HF1; path_ne..]. }
      erewrite bind_ok; [|reflexivity].
      unfold LocalOld.pause.
      erewrite bind_ok; [|erewrite bind_ok; [|reflexivity]; reflexivity].
      rewrite LocalOld_wait_loop_S.
      erewrite bind_ok; cycle 1.
      { eapply (LocalOld_attempt_found rq rs _ failure);
          cbn [st_fs set_fs elapse sleep snd fst modify mbind M_bind mret M_ret];
          try done; path_ne. }
      erewrite bind_ok; [|reflexivity]. unfold s2. cbn. do 2 f_equal; lia. }
    assert (st_fs s2 = empty_fs) as Hempty.
    { unfold s2. cbn [st_fs]. apply fs_empty_ext.
      + rewrite Htick. dir_goal Hfs.
      + rewrite Htick. dir_goal Hfs.
      + intros p.
        destruct (decide (p = lock_of rs)) as [->|Hp1]; [by fs_simp|].
        destruct (decide (p = rq)) as [->|Hp2]; [by fs_simp|].
        destruct (decide (p = rs)) as [->|Hp3]; [by fs_simp|].
        fs_simp. rewrite Htick.
        destruct (decide (p = lock_of rq)) as [->|Hp4]; [by fs_simp|].
        fs_simp. by apply HF1. }
    assert (send failure = reply) as Hsend by reflexivity.
    assert (old = (Ok (match express reply with
                       | None => reply
                       | Some error => internal_error error
                       end), s2)) as Hrun.
    { unfold old, LocalOld.app_all. fold f rq rs.
      destruct (express reply) as [error|] eqn:He.
      - erewrite try_catch_throw; cycle 1.
        { erewrite bind_ok; cycle 1.
          { apply submit_run; rewrite Hfs; [by eexists|by rewrite fs_lookup_empty]. }
          fold f rq rd F1.
          erewrite bind_ok; [|reflexivity].
          erewrite bind_ok; [|exact Hloop].
          cbv beta iota zeta. rewrite Hsend.
          erewrite bind_throw; [reflexivity|]. unfold respond. by rewrite He. }
        erewrite bind_ok;
          [|apply unlink_caught_absent; rewrite Hempty; apply fs_lookup_empty].
        erewrite bind_ok;
          [|apply unlink_caught_absent; rewrite Hempty; apply fs_lookup_empty].
        reflexivity.
      - erewrite try_catch_ok; [reflexivity|].
        erewrite bind_ok; cycle 1.
        { apply submit_run; rewrite Hfs; [by eexists|by rewrite fs_lookup_empty]. }
        fold f rq rd F1.
        erewrite bind_ok; [|reflexivity].
        erewrite bind_ok; [|exact Hloop].
        cbv beta iota zeta. rewrite Hsend.
        erewrite bind_ok; cycle 1.
        { unfold respond. rewrite He. reflexivity. }
        reflexivity. }
    rewrite Hrun. cbn [fst snd]. split; [done|exact Hempty].
  - assert (new
            = (Ok (gateway_timeout
                     (Local.POLL_INTERVAL * Z.of_nat Local.MAX_ATTEMPTS
                      + io_total io_time 0 Local.MAX_ATTEMPTS)),
               mkState (world 0%nat F1)
                 (st_now s + Local.POLL_INTERVAL * Z.of_nat Local.MAX_ATTEMPTS
                  + io_total io_time 0 Local.MAX_ATTEMPTS)
                 (st_trace s ++ replicate Local.MAX_ATTEMPTS (EvSleep Local.POLL_INTERVAL))
                 (st_processed s) (st_sem s))) as Hrun.
    { unfold new, Local.app_all, try_catch. fold f rq rs.
      erewrite bind_ok; cycle 1.
      { apply submit_run; rewrite Hfs; [by eexists|by rewrite fs_lookup_empty]. }
      fold f rq rd F1.
      erewrite bind_ok; [|reflexivity].
      erewrite bind_ok; cycle 1.
      { change Local.MAX_ATTEMPTS with (S 299). rewrite Local_wait_loop_S.
        erewrite bind_ok; cycle 1.
        { apply Local_attempt_waiting; cbn [st_fs set_fs]; [done|apply HF1; path_ne..]. }
        erewrite bind_ok; [|reflexivity].
        unfold Local.pause.
        erewrite bind_ok; [|erewrite bind_ok; [|reflexivity]; reflexivity].
        apply Local_wait_loop_idle;
          cbn [st_fs set_fs elapse sleep snd fst modify mbind M_bind mret M_ret];
          fold f; fold rq; fold F1; done. }
      unfold Date_now, mbind, M_bind, mret, M_ret.
      cbn [st_fs set_fs elapse sleep snd fst modify st_now st_trace st_processed st_sem].
      change Local.MAX_ATTEMPTS with (S 299).
      rewrite (io_total_S io_time 0 299), <- app_assoc.
      unfold Local.POLL_INTERVAL. f_equal; [do 2 f_equal; lia|].
      f_equal. lia. }
    rewrite Hrun. cbn [fst snd st_fs]. split; [done|]. split; [done|]. split; [done|].
    rewrite Hrq2. unfold settled. cbn [status_of]. apply assoc_get_set_eq.
Qed.

Lemma X16_witness :
  let world (k : nat) (store : FS) :=
    match k with
    | O => st_fs (Worker.tick dead_axios (set_fs store (state_of empty_fs))).2
    | S _ => store
    end in
  (LocalOld.app_all world (λ _, 0) (λ _, None) "abc" widget_request (state_of empty_fs)).1
  = Ok (mkReply (JNum 500) (JObj [])
          (JObj [("error", JStr "Internal Server Error");
                 ("message", JStr "connect ECONNREFUSED #2")])) ∧
  (Local.app_all world (λ _, 0) (λ _, None) "abc" widget_request (state_of empty_fs)).1
  = Ok (gateway_timeout 30000).
Proof.
  intros world.
  destruct (X16_worker_failure_through_both_handlers world (λ _, 0) (λ _, None)
              dead_axios "abc"
              widget_request (state_of empty_fs) (state_of empty_fs)
              "connect ECONNREFUSED #0" "connect ECONNREFUSED #1"
              "connect ECONNREFUSED #2") as [[H1 _] [H2 _]].
  - reflexivity.
  - reflexivity.
  - apply not_elem_of_nil.
  - reflexivity.
  - reflexivity.
  - reflexivity.
  - intros store. reflexivity.
  - intros [|k] store Hk; [lia|reflexivity].
  - split; [exact H1|exact H2].
Defined.
(** ** The single-file iteration *)

Lemma Single_bind_ok {A C} (m : Single.M A) (k : A → Single.M C) s a s' :
  m s = (Ok a, s') → (m ≫= k) s = k a s'.
Proof. intros H. unfold mbind, Single.M_bind. by rewrite H. Qed.

Lemma Single_bind_throw {A C} (m : Single.M A) (k : A → Single.M C) s e s' :
  m s = (Throw e, s') → (m ≫= k) s = (Throw e, s').
Proof. intros H. unfold mbind, Single.M_bind. by rewrite H. Qed.

Lemma Single_try_catch_ok {A} (m : Single.M A) h s a s' :
  m s = (Ok a, s') → Single.try_catch m h s = (Ok a, s').
Proof. intros H. unfold Single.try_catch. by rewrite H. Qed.

Lemma Single_try_catch_throw {A} (m : Single.M A) h s e s' :
  m s = (Throw e, s') → Single.try_catch m h s = h e s'.
Proof. intros H. unfold Single.try_catch. by rewrite H. Qed.

Lemma Single_set_folder_id s d : Single.st_folder s = d → Single.set_folder d s = s.
Proof. intros <-. by destruct s. Qed.

Lemma Single_ensure_run f s d :
  Single.st_folder s = Some d →
  Single.ensure f s
  = (Ok tt, Single.set_folder
              (Some (Single.set_file f (default (Json (JObj [])) (Single.get_file f d)) d)) s).
Proof.
  intros Hd. unfold Single.ensure, Single.try_catch, Single.access, Single.writeFile.
  rewrite Hd. destruct (Single.get_file f d) as [c|] eqn:Hf; cbn [default].
  - f_equal. symmetry. apply Single_set_folder_id. rewrite Hd. f_equal.
    destruct f, d; cbn in *; by subst.
  - by rewrite Hd.
Qed.

Lemma Single_readFile_ok f s d c :
  Single.st_folder s = Some d → Single.get_file f d = Some c →
  Single.readFile f s = (Ok c, s).
Proof. intros Hd Hf. unfold Single.readFile. by rewrite Hd, Hf. Qed.

Lemma Single_writeFile_ok f c s d :
  Single.st_folder s = Some d →
  Single.writeFile f c s = (Ok tt, Single.set_folder (Some (Single.set_file f c d)) s).
Proof. intros Hd. unfold Single.writeFile. by rewrite Hd. Qed.

Lemma Single_read_responses s d :
  Single.st_folder s = Some d →
  Single.try_catch
    (responseData ← Single.readFile Single.RESPONSES_FILE;
     Single.parse_or_empty responseData)
    (λ _, mret (JObj [])) s
  = (Ok (responses_read d), s).
Proof.
  intros Hd. unfold responses_read, object_read, Single.try_catch, mbind, Single.M_bind,
    Single.readFile, Single.parse_or_empty. rewrite Hd. cbn [Single.get_file].
  destruct (Single.responses_json d) as [[|j|]|]; cbn; done.
Qed.

Lemma Single_settle_run requests responses requestId response s d l r :
  Single.st_folder s = Some d →
  requests = JObj l → responses = JObj r →
  Single.settle requests responses requestId response s
  = (Ok tt,
     Single.set_folder
       (Some (Single.mkFolder
                (Some (Json (JObj (assoc_set requestId (JObj []) l))))
                (Some (Json (JObj (assoc_set requestId response r)))))) s).
Proof.
  intros Hd -> ->. unfold Single.settle.
  erewrite Single_bind_ok; [|reflexivity].
  erewrite Single_bind_ok; [|by eapply Single_writeFile_ok].
  erewrite Single_bind_ok; [|reflexivity].
  erewrite Single_writeFile_ok; [|reflexivity]. by destruct d, s.
Qed.

Lemma Single_forward_run axios requests responses requestId request s d l r :
  Single.st_folder s = Some d →
  requests = JObj l → responses = JObj r →
  Single.forward axios requests responses requestId request s
  = (Ok tt,
     Single.mkState
       (Some (Single.mkFolder
                (Some (Json (JObj (assoc_set requestId (JObj []) l))))
                (Some (Json (JObj (assoc_set requestId
                                     (outcome_record (axios request) (Single.st_now s)) r))))))
       (Single.st_now s) (Single.st_trace s ++ [EvCall request 0])
       (Single.filesInitialized s) (Single.initializationAttempted s)).
Proof.
  intros Hd Hl Hr. unfold Single.forward.
  destruct (axios request) as [status headers data|msg] eqn:Hax; cbn [outcome_record].
  - erewrite Single_try_catch_ok; [reflexivity|].
    erewrite Single_bind_ok; [|reflexivity].
    erewrite Single_bind_ok; [|reflexivity].
    erewrite (Single_settle_run _ _ _ _ _ d l r); [done|done|done|done].
  - erewrite Single_try_catch_throw; cycle 1.
    { erewrite Single_bind_ok; [|reflexivity]. reflexivity. }
    erewrite Single_bind_ok; [|reflexivity].
    erewrite (Single_settle_run _ _ _ _ _ d l r); [done|done|done|done].
Qed.

Lemma filter_pending_settled requestId request rest l :
  NoDup (map fst l) →
  Single.filter_pending l = Ok ((requestId, request) :: rest) →
  Single.filter_pending (assoc_set requestId (JObj []) l) = Ok rest.
Proof.
  induction l as [|[k v] l IH]; intros Hnd Hf; [discriminate|].
  apply NoDup_cons in Hnd as [Hk Hnd]. cbn [Single.filter_pending] in Hf.
  destruct (Single.has_keys v) as [keep|] eqn:Hv; [|discriminate].
  destruct (Single.filter_pending l) as [rest'|] eqn:Hl; [|discriminate].
  cbn [assoc_set]. destruct keep.
  - injection Hf as -> -> ->. rewrite String.eqb_refl.
    cbn [Single.filter_pending Single.has_keys Single.Object_entries length Nat.ltb Nat.leb].
    by rewrite Hl.
  - injection Hf as ->.
    assert (requestId ≠ k) as Hne.
    { intros ->. apply Hk. clear -Hl.
      revert rest Hl. induction l as [|[k' v'] l IH]; intros rest Hl; [discriminate|].
      cbn [Single.filter_pending] in Hl.
      destruct (Single.has_keys v') as [[]|]; [| |discriminate];
        destruct (Single.filter_pending l) as [r'|]; try discriminate.
      - injection Hl as -> _ _. cbn. by left.
      - cbn. right. by eapply IH. }
    apply String.eqb_neq in Hne. rewrite Hne.
    cbn [Single.filter_pending]. rewrite Hv, IH; done.
Qed.

Lemma adds_still {A} (m : Single.M A) n :
  (∀ s, Single.st_trace (m s).2 = Single.st_trace s) → adds n m.
Proof. intros Hm s. exists []. rewrite app_nil_r. split; [apply Hm|cbn; lia]. Qed.

Lemma adds_bind {A C} (m : Single.M A) (k : A → Single.M C) n1 n2 :
  adds n1 m → (∀ a, adds n2 (k a)) → adds (n1 + n2) (m ≫= k).
Proof.
  intros Hm Hk s. unfold mbind, Single.M_bind.
  destruct (Hm s) as (t1 & H1 & Hl1). destruct (m s) as [[a|e] s1]; cbn [snd] in *.
  - destruct (Hk a s1) as (t2 & H2 & Hl2). exists (t1 ++ t2)%list.
    rewrite H2, H1, app_assoc, length_app. split; [done|lia].
  - exists t1. split; [done|lia].
Qed.

Lemma adds_try_catch {A} (m : Single.M A) h n1 n2 :
  adds n1 m → (∀ e, adds n2 (h e)) → adds (n1 + n2) (Single.try_catch m h).
Proof.
  intros Hm Hh s. unfold Single.try_catch.
  destruct (Hm s) as (t1 & H1 & Hl1). destruct (m s) as [[a|e] s1]; cbn [snd] in *.
  - exists t1. split; [done|lia].
  - destruct (Hh e s1) as (t2 & H2 & Hl2). exists (t1 ++ t2)%list.
    rewrite H2, H1, app_assoc, length_app. split; [done|lia].
Qed.

Lemma adds_readFile f : adds 0 (Single.readFile f).
Proof.
  apply adds_still. intros s. unfold Single.readFile.
  destruct (Single.st_folder s) as [d|]; [|done]. by destruct (Single.get_file f d).
Qed.

Lemma adds_writeFile f c : adds 0 (Single.writeFile f c).
Proof.
  apply adds_still. intros s. unfold Single.writeFile.
  by destruct (Single.st_folder s).
Qed.

Lemma adds_of_result {A} (r : result A) : adds 0 (Single.of_result r).
Proof. by apply adds_still. Qed.

Lemma adds_ret {A} (a : A) : adds 0 (mret a : Single.M A).
Proof. by apply adds_still. Qed.

Lemma adds_parse_or_empty c : adds 0 (Single.parse_or_empty c).
Proof. unfold Single.parse_or_empty. destruct (Single.blank c); by apply adds_still. Qed.

Lemma adds_settle requests responses requestId response :
  adds 0 (Single.settle requests responses requestId response).
Proof.
  unfold Single.settle.
  apply (adds_bind _ _ 0 0); [apply adds_of_result|intros ?].
  apply (adds_bind _ _ 0 0); [apply adds_writeFile|intros ?].
  apply (adds_bind _ _ 0 0); [apply adds_of_result|intros ?].
  apply adds_writeFile.
Qed.

Lemma adds_forward axios requests responses requestId request :
  adds 1 (Single.forward axios requests responses requestId request).
Proof.
  unfold Single.forward. apply (adds_try_catch _ _ 1 0).
  - apply (adds_bind _ _ 1 0).
    + intros s. exists [EvCall request 0]. split; [done|cbn; lia].
    + intros _. destruct (axios request); [|by apply adds_still].
      apply (adds_bind _ _ 0 0); [by apply adds_still|intros ?]. apply adds_settle.
  - intros e. apply (adds_bind _ _ 0 0); [by apply adds_still|intros ?]. apply adds_settle.
Qed.

Lemma adds_processRequests axios : adds 1 (Single.processRequests axios).
Proof.
  unfold Single.processRequests.
  apply (adds_try_catch _ _ 1 0); [|intros _; apply adds_ret].
  apply (adds_bind _ _ 0 1).
  { apply (adds_try_catch _ _ 0 0); [|intros _; apply adds_ret].
    apply (adds_bind _ _ 0 0); [apply adds_readFile|intros ?; apply adds_ret]. }
  intros [data|]; [|apply (adds_still _ 1); done].
  apply (adds_bind _ _ 0 1).
  { apply (adds_try_catch _ _ 0 0); [|intros _; apply adds_ret].
    apply (adds_bind _ _ 0 0); [apply adds_of_result|intros ?; apply adds_ret]. }
  intros [requests|]; [|apply (adds_still _ 1); done].
  apply (adds_bind _ _ 0 1); [apply adds_of_result|intros entries].
  apply (adds_bind _ _ 0 1); [apply adds_of_result|intros pendingRequests].
  destruct pendingRequests as [|[requestId request] rest]; [apply (adds_still _ 1); done|].
  apply (adds_bind _ _ 0 1).
  { apply (adds_try_catch _ _ 0 0); [|intros _; apply adds_ret].
    apply (adds_bind _ _ 0 0); [apply adds_readFile|intros ?; apply adds_parse_or_empty]. }
  intros responses. apply adds_forward.
Qed.

Lemma Single_processRequests_ok axios s : (Single.processRequests axios s).1 = Ok tt.
Proof.
  unfold Single.processRequests, Single.try_catch.
  match goal with
  | |- (match ?m with _ => _ end).1 = _ => destruct m as [[[]|e] s']
  end; done.
Qed.

Lemma Single_read_requests s d :
  Single.st_folder s = Some d →
  Single.try_catch
    (data ← Single.readFile Single.REQUESTS_FILE; Single.parse_or_empty data)
    (λ _, mret (JObj [])) s
  = (Ok (object_read (Single.requests_json d)), s).
Proof.
  intros Hd. unfold object_read, Single.try_catch, mbind, Single.M_bind,
    Single.readFile, Single.parse_or_empty. rewrite Hd. cbn [Single.get_file].
  destruct (Single.requests_json d) as [[|j|]|]; cbn; done.
Qed.

Lemma Single_submit_run requestId req s d l :
  Single.st_folder s = Some d →
  object_read (Single.requests_json d) = JObj l →
  Single.submit requestId req s
  = (Ok tt,
     Single.set_folder
       (Some (Single.mkFolder
                (Some (Json (JObj (assoc_set requestId
                                     (Single.requestData_of requestId req (Single.st_now s)) l))))
                (Single.responses_json d))) s).
Proof.
  intros Hd Hl. unfold Single.submit.
  erewrite Single_bind_ok; [|reflexivity].
  erewrite Single_bind_ok; [|by apply Single_read_requests].
  rewrite Hl.
  erewrite Single_bind_ok; [|reflexivity].
  erewrite Single_writeFile_ok; [|exact Hd]. done.
Qed.

Lemma Single_attempt_none requestId s :
  no_response requestId (Single.st_folder s) →
  Single.attempt requestId s = (Ok None, s).
Proof.
  unfold no_response, Single.attempt, responses_read, object_read.
  unfold Single.try_catch, mbind, Single.M_bind, Single.readFile, Single.parse_or_empty.
  destruct (Single.st_folder s) as [d|]; [|done]. cbn [Single.get_file].
  destruct (Single.responses_json d) as [[|j|]|]; cbn; try done.
  destruct j; cbn; try done.
  destruct (assoc_get requestId fields) as [response|]; [|done].
  by intros ->.
Qed.

Lemma Single_attempt_found requestId s d l r response :
  Single.st_folder s = Some d →
  Single.requests_json d = Some (Json (JObj l)) →
  Single.responses_json d = Some (Json (JObj r)) →
  assoc_get requestId r = Some response → truthy response = true →
  Single.attempt requestId s
  = (Ok (Some response),
     Single.set_folder
       (Some (Single.mkFolder (Some (Json (JObj (Single.assoc_delete requestId l))))
                              (Some (Json (JObj (Single.assoc_delete requestId r)))))) s).
Proof.
  intros Hd Hl Hr Hget Ht. unfold Single.attempt.
  erewrite Single_try_catch_ok; [reflexivity|].
  erewrite Single_bind_ok; [|by eapply Single_readFile_ok].
  erewrite Single_bind_ok; [|reflexivity].
  erewrite Single_bind_ok; [|unfold Single.of_result; cbn [Single.js_get]; by rewrite Hget].
  cbv beta iota. rewrite Ht.
  erewrite Single_bind_ok; cycle 1.
  { erewrite Single_try_catch_ok; [reflexivity|]. unfold Single.take_out.
    erewrite Single_bind_ok; [|reflexivity].
    erewrite Single_bind_ok; [|by eapply Single_writeFile_ok].
    erewrite Single_bind_ok; [|by eapply Single_readFile_ok].
    erewrite Single_bind_ok; [|reflexivity].
    erewrite Single_bind_ok; [|reflexivity].
    eapply Single_writeFile_ok. reflexivity. }
  unfold mret, Single.M_ret. by destruct d, s.
Qed.

Lemma Single_wait_loop_timeout world requestId remaining attempts s :
  no_response requestId (Single.st_folder s) →
  (∀ k f, no_response requestId f → no_response requestId (world k f)) →
  let r := Single.wait_loop world requestId remaining attempts s in
  r.1 = Ok None ∧
  Single.st_now r.2 = Single.st_now s + Single.POLL_INTERVAL * Z.of_nat remaining ∧
  Single.st_trace r.2
  = (Single.st_trace s ++ replicate remaining (EvSleep Single.POLL_INTERVAL))%list ∧
  (∀ folder, (∀ k f, world k f = f) → Single.st_folder s = folder →
             Single.st_folder r.2 = folder).
Proof.
  intros Hno Hworld. revert attempts s Hno.
  induction remaining as [|remaining IH]; intros attempts s Hno.
  - cbn. rewrite app_nil_r. repeat split; try done. lia.
  - cbn zeta. cbn [Single.wait_loop].
    erewrite Single_bind_ok; [|by apply Single_attempt_none].
    unfold Single.pause.
    erewrite Single_bind_ok; [|erewrite Single_bind_ok; [|reflexivity]; reflexivity].
    match goal with |- context [Single.wait_loop _ _ _ _ ?s2] =>
      destruct (IH (S attempts) s2) as (H1 & H2 & H3 & H4)
    end.
    { cbn. by apply Hworld. }
    split; [done|]. rewrite H2, H3.
    cbn [Single.st_now Single.st_trace Single.set_folder Single.sleep Single.modify snd].
    split; [lia|]. split; [by rewrite <- app_assoc|].
    intros folder Hidle Hf. apply H4; [done|]. cbn. by rewrite Hidle.
Qed.

Lemma Single_initializeFiles_run s d :
  Single.st_folder s = Some d →
  Single.initializeFiles s
  = (Ok tt,
     Single.set_folder
       (Some (Single.mkFolder
                (Some (default (Json (JObj [])) (Single.requests_json d)))
                (Some (default (Json (JObj [])) (Single.responses_json d))))) s).
Proof.
  intros Hd. unfold Single.initializeFiles.
  erewrite Single_bind_ok; [|by apply Single_ensure_run].
  erewrite Single_ensure_run; [|reflexivity].
  by destruct d.
Qed.

Lemma Single_checkFiles_first s d :
  Single.st_folder s = Some d →
  Single.filesInitialized s = false → Single.initializationAttempted s = false →
  Single.checkFiles s
  = (Ok true,
     Single.set_flags true true
       (Single.set_folder
          (Some (Single.mkFolder
                   (Some (default (Json (JObj [])) (Single.requests_json d)))
                   (Some (default (Json (JObj [])) (Single.responses_json d))))) s)).
Proof.
  intros Hd Hi Ha. unfold Single.checkFiles.
  erewrite Single_try_catch_ok; [reflexivity|].
  erewrite Single_bind_ok; cycle 1.
  { unfold Single.try_catch, Single.access_folder, mbind, Single.M_bind. by rewrite Hd. }
  cbn [negb].
  erewrite Single_bind_ok; [|reflexivity].
  erewrite Single_bind_ok; [|reflexivity].
  rewrite Hi, Ha. cbn [negb andb].
  erewrite Single_bind_ok; [|reflexivity].
  erewrite Single_try_catch_ok; [reflexivity|].
  erewrite Single_bind_ok; [|by apply Single_ensure_run].
  erewrite Single_bind_ok; [|by apply Single_ensure_run].
  erewrite Single_bind_ok; [|reflexivity].
  unfold mret, Single.M_ret. by destruct s, d.
Qed.

Lemma Single_checkFiles_later s d :
  Single.st_folder s = Some d →
  Single.filesInitialized s = true ∨ Single.initializationAttempted s = true →
  Single.checkFiles s = (Ok true, s).
Proof.
  intros Hd Hflag. unfold Single.checkFiles.
  erewrite Single_try_catch_ok; [reflexivity|].
  erewrite Single_bind_ok; cycle 1.
  { unfold Single.try_catch, Single.access_folder, mbind, Single.M_bind. by rewrite Hd. }
  cbn [negb].
  erewrite Single_bind_ok; [|reflexivity].
  erewrite Single_bind_ok; [|reflexivity].
  by destruct Hflag as [-> | ->]; destruct (Single.filesInitialized s); cbn.
Qed.

Lemma Single_checkFiles_no_folder s :
  Single.st_folder s = None → Single.checkFiles s = (Ok false, s).
Proof.
  intros Hd. unfold Single.checkFiles.
  erewrite Single_try_catch_ok; [reflexivity|].
  erewrite Single_bind_ok; cycle 1.
  { unfold Single.try_catch, Single.access_folder, mbind, Single.M_bind. by rewrite Hd. }
  done.
Qed.

(** The worker's tick on a folder whose [requests.json] holds one record
    with keys and whose [responses.json] reads as [{}]. *)
Lemma Single_tick_single axios w d requestId request :
  Single.st_folder w = Some d →
  Single.requests_json d = Some (Json (JObj [(requestId, request)])) →
  Single.has_keys request = Ok true →
  responses_read d = JObj [] →
  Single.st_folder (Single.tick axios w).2
  = Some (Single.mkFolder
            (Some (Json (JObj [(requestId, JObj [])])))
            (Some (Json (JObj [(requestId,
                                outcome_record (axios request) (Single.st_now w))])))).
Proof.
  intros Hd Hreq Hkeys Hresp.
  assert (∃ w1 d1, Single.checkFiles w = (Ok true, w1) ∧ Single.st_folder w1 = Some d1 ∧
                   Single.st_now w1 = Single.st_now w ∧
                   Single.requests_json d1 = Some (Json (JObj [(requestId, request)])) ∧
                   responses_read d1 = JObj []) as (w1 & d1 & Hc & Hd1 & Hnow & Hreq1 & Hresp1).
  { destruct (Single.filesInitialized w) eqn:Hi;
      [|destruct (Single.initializationAttempted w) eqn:Ha].
    - exists w, d. split; [apply (Single_checkFiles_later w d); [done|by left]|done].
    - exists w, d. split; [apply (Single_checkFiles_later w d); [done|by right]|done].
    - eexists _, _. split; [by apply Single_checkFiles_first|].
      split; [reflexivity|]. split; [by destruct w|].
      cbn [Single.requests_json]. rewrite Hreq. split; [done|].
      revert Hresp. unfold responses_read. cbn [Single.responses_json].
      by destruct (Single.responses_json d). }
  unfold Single.tick. erewrite Single_bind_ok; [|exact Hc]. cbv beta iota.
  assert (Single.processRequests axios w1
          = (Ok tt,
             Single.mkState
               (Some (Single.mkFolder
                        (Some (Json (JObj (assoc_set requestId (JObj []) [(requestId, request)]))))
                        (Some (Json (JObj (assoc_set requestId
                                             (outcome_record (axios request) (Single.st_now w1))
                                             []))))))
               (Single.st_now w1) (Single.st_trace w1 ++ [EvCall request 0])
               (Single.filesInitialized w1) (Single.initializationAttempted w1))) as ->.
  { unfold Single.processRequests.
    erewrite Single_try_catch_ok; [reflexivity|].
    erewrite Single_bind_ok; cycle 1.
    { erewrite Single_try_catch_ok; [reflexivity|].
      erewrite Single_bind_ok; [|by eapply Single_readFile_ok]. reflexivity. }
    cbn [Single.blank]. cbv beta iota.
    erewrite Single_bind_ok; [|reflexivity]. cbv beta iota.
    erewrite Single_bind_ok; [|reflexivity].
    erewrite Single_bind_ok;
      [|unfold Single.of_result; cbn [Single.filter_pending]; by rewrite Hkeys].
    cbv beta iota.
    erewrite Single_bind_ok; [|by apply Single_read_responses].
    rewrite Hresp1. by apply (Single_forward_run axios _ _ _ _ _ d1 _ []). }
  cbn [snd Single.st_folder assoc_set]. by rewrite String.eqb_refl, Hnow.
Qed.

Lemma Single_wait_loop_found world requestId remaining attempts s d l r response :
  Single.st_folder s = Some d →
  Single.requests_json d = Some (Json (JObj l)) →
  Single.responses_json d = Some (Json (JObj r)) →
  assoc_get requestId r = Some response → truthy response = true →
  Single.wait_loop world requestId (S remaining) attempts s
  = (Ok (Some response),
     Single.set_folder
       (Some (Single.mkFolder (Some (Json (JObj (Single.assoc_delete requestId l))))
                              (Some (Json (JObj (Single.assoc_delete requestId r)))))) s).
Proof.
  intros Hd Hl Hr Hget Ht. cbn [Single.wait_loop].
  erewrite Single_bind_ok; [|by eapply Single_attempt_found]. done.
Qed.

(** X17. Starting up never overwrites a file of the shared folder, and the
    worker sets the files up once.  [initializeFiles] of the handler and the
    first check of the worker leave a file that exists as it is, whatever it
    holds, and give a missing file the text [{}].  Once that first check has
    succeeded, [checkFiles] says yes and changes nothing as long as the
    folder can be reached, also when a file has gone since; when the folder
    cannot be reached it says no and changes nothing. *)
Theorem X17_startup_keeps_the_files :
  (∀ s d, Single.st_folder s = Some d →
     let d' := Single.mkFolder (Some (default (Json (JObj [])) (Single.requests_json d)))
                               (Some (default (Json (JObj [])) (Single.responses_json d))) in
     Single.initializeFiles s = (Ok tt, Single.set_folder (Some d') s) ∧
     (Single.filesInitialized s = false → Single.initializationAttempted s = false →
      Single.checkFiles s
      = (Ok true, Single.set_flags true true (Single.set_folder (Some d') s))) ∧
     (Single.filesInitialized s = true ∨ Single.initializationAttempted s = true →
      Single.checkFiles s = (Ok true, s))) ∧
  (∀ s, Single.st_folder s = None → Single.checkFiles s = (Ok false, s)).
Proof.
  split.
  - intros s d Hd d'. split; [by apply Single_initializeFiles_run|]. split.
    + intros Hi Ha. by apply Single_checkFiles_first.
    + intros Hflag. by apply (Single_checkFiles_later s d).
  - apply Single_checkFiles_no_folder.
Qed.

(** X18. One firing of the single-file worker answers one request: the first
    entry of [requests.json] that has keys, in the order of the file.  It
    makes one call for it, files the Response Record of the outcome under the
    entry's id in [responses.json], whatever the file held under that id, and
    turns the entry into [{}]; every other entry of both files stays as it
    is, and with ids that are distinct the entries still pending are the
    others that were pending, in the same order.  On any folder and for any
    target, [processRequests] does not throw and adds at most one event, a
    call, to the trace. *)
Theorem X18_worker_answers_the_first_pending_request axios s d l r requestId request rest :
  Single.st_folder s = Some d →
  Single.requests_json d = Some (Json (JObj l)) →
  Single.filter_pending l = Ok ((requestId, request) :: rest) →
  responses_read d = JObj r →
  let record := outcome_record (axios request) (Single.st_now s) in
  let l' := assoc_set requestId (JObj []) l in
  Single.processRequests axios s
  = (Ok tt,
     Single.mkState
       (Some (Single.mkFolder (Some (Json (JObj l')))
                              (Some (Json (JObj (assoc_set requestId record r))))))
       (Single.st_now s) (Single.st_trace s ++ [EvCall request 0])
       (Single.filesInitialized s) (Single.initializationAttempted s)) ∧
  (NoDup (map fst l) → Single.filter_pending l' = Ok rest) ∧
  (∀ s0, (Single.processRequests axios s0).1 = Ok tt ∧
         ∃ t, Single.st_trace (Single.processRequests axios s0).2
              = (Single.st_trace s0 ++ t)%list ∧ (length t ≤ 1)%nat).
Proof.
  intros Hd Hreq Hpending Hresp record l'.
  split; [|split; [intros Hnd; by eapply filter_pending_settled|]]; cycle 1.
  { intros s0. split; [apply Single_processRequests_ok|apply adds_processRequests]. }
  unfold Single.processRequests.
  erewrite Single_try_catch_ok; [reflexivity|].
  erewrite Single_bind_ok; cycle 1.
  { erewrite Single_try_catch_ok; [reflexivity|].
    erewrite Single_bind_ok; [|by eapply Single_readFile_ok]. reflexivity. }
  cbn [Single.blank]. cbv beta iota.
  erewrite Single_bind_ok; [|reflexivity]. cbv beta iota.
  erewrite Single_bind_ok; [|reflexivity].
  erewrite Single_bind_ok; [|unfold Single.of_result; by rewrite Hpending].
  cbv beta iota.
  erewrite Single_bind_ok; [|by apply Single_read_responses].
  rewrite Hresp. by apply (Single_forward_run axios _ _ _ _ _ d l r).
Qed.

Lemma X18_witness :
  let s := single_state (Some folder_two) in
  Single.processRequests refusing_axios s
  = (Ok tt,
     Single.mkState
       (Some (Single.mkFolder
                (Some (Json (JObj [("a", JObj []); ("b", JObj []);
                                   ("c", JObj [("id", JStr "c")])])))
                (Some (Json (JObj [("b", Single.error_response "connect ECONNREFUSED" 0)])))))
       0 [EvCall (JObj [("id", JStr "b")]) 0] false false) ∧
  Single.filter_pending [("a", JObj []); ("b", JObj []); ("c", JObj [("id", JStr "c")])]
  = Ok [("c", JObj [("id", JStr "c")])].
Proof.
  intros s.
  destruct (X18_worker_answers_the_first_pending_request refusing_axios s folder_two
              [("a", JObj []); ("b", JObj [("id", JStr "b")]); ("c", JObj [("id", JStr "c")])]
              [] "b" (JObj [("id", JStr "b")]) [("c", JObj [("id", JStr "c")])])
    as (H1 & H2 & _).
  - reflexivity.
  - reflexivity.
  - reflexivity.
  - reflexivity.
  - split; [exact H1|]. apply H2. apply (bool_decide_unpack _). by vm_compute.
Defined.

(** X19. The round trip of the single-file iteration.  When both files read
    as [{}] and the worker's tick falls into the handler's first wait, the
    handler hands Express what the worker filed for the outcome of its call:
    the target's status, headers and body, a falsy part replaced by the
    handler's default (status [0] by 200, falsy headers by none, a body that
    is [null], [false], [0] or the empty text by the empty object), or, when
    the call was rejected, status 500 with the message of the rejection.
    That is the handler's answer when Express sends it; when the chain throws,
    the answer is 500 with the message of what it threw.  Either way both
    files hold [{}] afterwards. *)
Theorem X19_single_file_round_trip world express axios requestId req s w d :
  Single.st_folder s = Some d →
  object_read (Single.requests_json d) = JObj [] →
  responses_read d = JObj [] →
  (∀ f, world 0%nat f = Single.st_folder (Single.tick axios (Single.set_folder f w)).2) →
  let reply :=
    match axios (Single.requestData_of requestId req (Single.st_now s)) with
    | Resolved st h b =>
        mkReply (if st =? 0 then JNum 200 else JNum st)
                (if truthy h then h else JObj [])
                (if truthy b then b else JObj [])
    | Rejected msg =>
        mkReply (JNum 500) (JObj [])
                (JObj [("error", JStr "Internal Server Error");
                       ("message", JStr msg)])
    end in
  let r := Single.app_api world express requestId req s in
  r.1 = Ok (match express reply with
            | None => reply
            | Some error => internal_error error
            end) ∧
  Single.st_folder r.2
  = Some (Single.mkFolder (Some (Json (JObj []))) (Some (Json (JObj [])))).
Proof.
  intros Hd Hreq Hresp Hworld reply r.
  set (rd := Single.requestData_of requestId req (Single.st_now s)) in *.
  set (d1 := Single.mkFolder (Some (Json (JObj [(requestId, rd)]))) (Single.responses_json d)).
  set (record := outcome_record (axios rd) (Single.st_now w)).
  assert (world 0%nat (Some d1)
          = Some (Single.mkFolder (Some (Json (JObj [(requestId, JObj [])])))
                                  (Some (Json (JObj [(requestId, record)]))))) as Hw.
  { rewrite Hworld.
    rewrite (Single_tick_single axios (Single.set_folder (Some d1) w) d1 requestId rd);
      [by destruct w|reflexivity|reflexivity|reflexivity|].
    unfold responses_read in *. by cbn [Single.responses_json d1]. }
  assert (truthy record = true) as Ht by (unfold record; by destruct (axios rd)).
  assert (send record = reply) as Hsend.
  { unfold record, reply. destruct (axios rd) as [st h b|msg]; cbn [outcome_record].
    - unfold send, Single.response_of, prop, js_or. cbn. by destruct (st =? 0).
    - reflexivity. }
  set (s2 := Single.mkState
               (Some (Single.mkFolder (Some (Json (JObj []))) (Some (Json (JObj [])))))
               (Single.st_now s + Single.POLL_INTERVAL)
               (Single.st_trace s ++ [EvSleep Single.POLL_INTERVAL])
               (Single.filesInitialized s) (Single.initializationAttempted s)).
  assert (Single.wait_loop world requestId Single.MAX_ATTEMPTS 0
            (Single.set_folder (Some d1) s) = (Ok (Some record), s2)) as Hloop.
  { change Single.MAX_ATTEMPTS with (S (S 58)).
    cbn [Single.wait_loop].
    erewrite Single_bind_ok; cycle 1.
    { apply Single_attempt_none. cbn [Single.st_folder Single.set_folder no_response].
      unfold responses_read in *. cbn [Single.responses_json d1]. by rewrite Hresp. }
    cbv beta iota.
    erewrite Single_bind_ok; cycle 1.
    { unfold Single.pause. erewrite Single_bind_ok; [|reflexivity]. reflexivity. }
    cbn [Single.st_folder Single.set_folder Single.sleep Single.modify snd].
    fold d1. rewrite Hw.
    erewrite Single_bind_ok; cycle 1.
    { eapply Single_attempt_found; [reflexivity|reflexivity|reflexivity| |exact Ht].
      cbn [assoc_get]. by rewrite String.eqb_refl. }
    cbv beta iota. cbn [Single.assoc_delete]. rewrite String.eqb_refl.
    unfold mret, Single.M_ret, s2. by destruct s. }
  assert (Single.app_api world express requestId req s
          = (Ok (match express reply with
                 | None => reply
                 | Some error => internal_error error
                 end), s2)) as Hrun.
  { unfold Single.app_api.
    destruct (express reply) as [error|] eqn:He.
    - erewrite Single_try_catch_throw; [reflexivity|].
      erewrite Single_bind_ok; [|by apply (Single_submit_run _ _ _ d [])].
      cbn [assoc_set]. fold rd d1.
      erewrite Single_bind_ok; [|exact Hloop].
      cbv beta iota zeta. rewrite Hsend.
      erewrite Single_bind_throw; [reflexivity|]. unfold Single.respond. by rewrite He.
    - erewrite Single_try_catch_ok; [reflexivity|].
      erewrite Single_bind_ok; [|by apply (Single_submit_run _ _ _ d [])].
      cbn [assoc_set]. fold rd d1.
      erewrite Single_bind_ok; [|exact Hloop].
      cbv beta iota zeta. rewrite Hsend.
      erewrite Single_bind_ok; cycle 1.
      { unfold Single.respond. rewrite He. reflexivity. }
      reflexivity. }
  subst r. rewrite Hrun. done.
Qed.

Lemma X19_witness :
  let world (k : nat) (f : option Single.Folder) :=
    match k with
    | O => Single.st_folder
             (Single.tick refusing_axios (Single.set_folder f (single_state None))).2
    | S _ => f
    end in
  let r := Single.app_api world (λ _, None) "abc" note_request
             (single_state (Some folder_new)) in
  r.1 = Ok (mkReply (JNum 500) (JObj [])
              (JObj [("error", JStr "Internal Server Error");
                     ("message", JStr "connect ECONNREFUSED")])) ∧
  Single.st_folder r.2
  = Some (Single.mkFolder (Some (Json (JObj []))) (Some (Json (JObj [])))).
Proof.
  intros world r.
  apply (X19_single_file_round_trip world (λ _, None) refusing_axios "abc" note_request
           (single_state (Some folder_new)) (single_state None) folder_new).
  - reflexivity.
  - reflexivity.
  - reflexivity.
  - intros f. reflexivity.
Defined.

(** X20. The timeout of the single-file iteration.  When [requests.json]
    reads as an object and no turn finds a response under the request's id,
    the handler sleeps sixty times for 500 ms and answers 504 Gateway
    Timeout, with no elapsed time in the body.  It does not take its request
    back: when nothing else writes to the folder, [requests.json] holds the
    object it was read as with the Request Record added, so a file that was
    blank or did not parse holds this one record only, and [responses.json]
    is as it was. *)
Theorem X20_single_file_timeout world express requestId req s d l :
  Single.st_folder s = Some d →
  object_read (Single.requests_json d) = JObj l →
  no_response requestId (Some d) →
  (∀ k f, no_response requestId f → no_response requestId (world k f)) →
  let r := Single.app_api world express requestId req s in
  r.1 = Ok (mkReply (JNum 504) (JObj [])
              (JObj [("error", JStr "Gateway Timeout");
                     ("message", JStr "Remote client did not respond in time")])) ∧
  Single.st_now r.2 = Single.st_now s + 30000 ∧
  Single.st_trace r.2 = (Single.st_trace s ++ replicate 60 (EvSleep 500))%list ∧
  ((∀ k f, world k f = f) →
   Single.st_folder r.2
   = Some (Single.mkFolder
             (Some (Json (JObj (assoc_set requestId
                                  (Single.requestData_of requestId req (Single.st_now s)) l))))
             (Single.responses_json d))).
Proof.
  intros Hd Hl Hno Hworld r.
  set (rd := Single.requestData_of requestId req (Single.st_now s)).
  set (d1 := Single.mkFolder (Some (Json (JObj (assoc_set requestId rd l))))
                             (Single.responses_json d)).
  set (s1 := Single.set_folder (Some d1) s).
  assert (no_response requestId (Single.st_folder s1)) as Hno1.
  { revert Hno. unfold no_response, responses_read. by cbn. }
  destruct (Single_wait_loop_timeout world requestId Single.MAX_ATTEMPTS 0 s1 Hno1 Hworld)
    as (H1 & H2 & H3 & H4).
  assert (Single.app_api world express requestId req s
          = (Ok Single.gateway_timeout,
             (Single.wait_loop world requestId Single.MAX_ATTEMPTS 0 s1).2)) as Hrun.
  { unfold Single.app_api.
    destruct (Single.wait_loop world requestId Single.MAX_ATTEMPTS 0 s1) as [found s2] eqn:Hloop.
    cbn [fst snd] in *. subst found.
    erewrite Single_try_catch_ok; [reflexivity|].
    erewrite Single_bind_ok; [|by apply (Single_submit_run _ _ _ d l)].
    fold rd d1 s1.
    erewrite Single_bind_ok; [|exact Hloop]. done. }
  subst r. rewrite Hrun. cbn [fst snd]. split; [done|].
  split; [rewrite H2; by destruct s|]. split; [rewrite H3; by destruct s|].
  intros Hidle. by apply H4.
Qed.

Lemma X20_witness :
  let r := Single.app_api (λ _ f, f) (λ _, None) "b" note_request (single_state (Some folder_half)) in
  r.1 = Ok (mkReply (JNum 504) (JObj [])
              (JObj [("error", JStr "Gateway Timeout");
                     ("message", JStr "Remote client did not respond in time")])) ∧
  Single.st_now r.2 = 30000 ∧
  Single.st_folder r.2
  = Some (Single.mkFolder
            (Some (Json (JObj [("a", JObj [("id", JStr "a")]);
                               ("b", Single.requestData_of "b" note_request 0)])))
            None).
Proof.
  intros r.
  destruct (X20_single_file_timeout (λ _ f, f) (λ _, None) "b" note_request
              (single_state (Some folder_half)) folder_half
              [("a", JObj [("id", JStr "a")])])
    as (H1 & H2 & _ & H4).
  - reflexivity.
  - reflexivity.
  - exact I.
  - intros k f Hf. exact Hf.
  - split; [exact H1|]. split; [exact H2|]. apply H4. reflexivity.
Defined.

(** ** The tasks across batches and ticks *)

(** X21. Every task gives its slot back, and no batch makes a task wait.  A
    task of the worker releases the semaphore exactly once after its body,
    whether the body returned or threw, and the body leaves the semaphore
    alone.  When the tasks of a batch have run, however they ended, no slot
    of its semaphore is held and no task is parked.  In a batch of a tick
    every task holds a slot of its own from the start: nobody is parked, at
    most [BATCH_SIZE] of the [MAX_CONCURRENT_REQUESTS] slots being taken. *)
Theorem X21_every_task_releases_its_slot :
  (∀ axios file s,
     st_sem (Worker.task axios file s).2 = (Semaphore.release (st_sem s)).2) ∧
  (∀ axios batch s,
     let sem := st_sem (Worker.run_batch axios batch s).2 in
     Semaphore.current sem = 0 ∧ Semaphore.queue sem = []) ∧
  (∀ fuel newFiles batch s,
     batch ∈ Worker.batches_of fuel newFiles →
     let sem := st_sem (Worker.acquire_all batch 0
                          (set_sem (Semaphore.new Worker.MAX_CONCURRENT_REQUESTS) s)).2 in
     Semaphore.queue sem = [] ∧
     Semaphore.current sem = Z.of_nat (length batch) ∧
     Semaphore.current sem ≤ Worker.MAX_CONCURRENT_REQUESTS).
Proof.
  split; [|split].
  - apply task_sem.
  - apply run_batch_sem.
  - intros fuel newFiles batch s Hin sem.
    apply batches_of_bounded in Hin.
    destruct (acquire_all_granted batch 0
                (set_sem (Semaphore.new Worker.MAX_CONCURRENT_REQUESTS) s))
      as [H1 H2]; [done|cbn; unfold Worker.BATCH_SIZE, Worker.MAX_CONCURRENT_REQUESTS in *; lia|].
    subst sem. rewrite H1, H2. cbn.
    unfold Worker.BATCH_SIZE, Worker.MAX_CONCURRENT_REQUESTS in *. split; [done|]. lia.
Qed.

Lemma Pool_count_app P l1 l2 :
  Pool.count P (l1 ++ l2)%list = (Pool.count P l1 + Pool.count P l2)%nat.
Proof. induction l1 as [|x l1 IH]; [done|]. cbn. rewrite IH. lia. Qed.

Lemma Pool_count_le P Q ts :
  (∀ x, x ∈ ts → P x = true → Q x = true) → (Pool.count P ts ≤ Pool.count Q ts)%nat.
Proof.
  induction ts as [|x ts IH]; intros H; [done|]. cbn.
  assert (Pool.count P ts ≤ Pool.count Q ts)%nat
    by (apply IH; intros y Hy; apply H; by right).
  destruct (P x) eqn:HP; [rewrite (H x) by (done || by left)|destruct (Q x)]; lia.
Qed.

Lemma Pool_count_const P c ts :
  (∀ x, x ∈ ts → P x = c) → Pool.count P ts = if c then length ts else 0%nat.
Proof.
  induction ts as [|x ts IH]; intros H; [by destruct c|]. cbn.
  rewrite (H x) by (by left). rewrite IH by (intros y Hy; apply H; by right).
  by destruct c.
Qed.

Lemma Pool_count_length P ts : (Pool.count P ts ≤ length ts)%nat.
Proof. induction ts as [|x ts IH]; [done|]. cbn. destruct (P x); lia. Qed.

Lemma Pool_count_alter P f i ts x :
  ts !! i = Some x →
  (Pool.count P (alter f i ts) + (if P x then 1 else 0)
   = Pool.count P ts + (if P (f x) then 1 else 0))%nat.
Proof.
  revert i. induction ts as [|y ts IH]; intros [|i] Hi; try done.
  - injection Hi as ->. cbn. destruct (P x), (P (f x)); lia.
  - cbn in Hi. cbn. specialize (IH i Hi). cbn in IH. lia.
Qed.

Lemma Pool_spawn_spec batch b sem ts :
  Semaphore.queue sem = [] →
  Semaphore.current sem + Z.of_nat (length batch) ≤ Semaphore.maxConcurrent sem →
  Pool.spawn batch b sem ts
  = (Semaphore.mk (Semaphore.maxConcurrent sem)
       (Semaphore.current sem + Z.of_nat (length batch)) [],
     (ts ++ ((λ file, Pool.mkTask file b Pool.Running) <$> batch))%list).
Proof.
  revert sem ts. induction batch as [|file batch IH]; intros sem ts Hq Hle.
  - cbn. rewrite app_nil_r, Z.add_0_r. destruct sem; cbn in *; by subst.
  - cbn [Pool.spawn length fmap list_fmap] in *. unfold Semaphore.acquire.
    destruct (Z.ltb_spec (Semaphore.current sem) (Semaphore.maxConcurrent sem)); [|lia].
    rewrite IH; cbn [Semaphore.queue Semaphore.current Semaphore.maxConcurrent];
      [|done|lia].
    rewrite <- app_assoc. cbn [app]. do 2 f_equal. lia.
Qed.

Lemma Pool_slots_match_start : slots_match [] [].
Proof. repeat split; try done. cbn. lia. Qed.

(** The head of the loop over the batches keeps what holds. *)
Lemma Pool_next_batch_slots batches p :
  slots_match (Pool.semaphores p) (Pool.tasks p) →
  Forall small batches →
  let p' := Pool.next_batch batches p in
  slots_match (Pool.semaphores p') (Pool.tasks p') ∧ Forall small (Pool.later p').
Proof.
  intros Hs Hsmall. destruct batches as [|batch rest]; cbn zeta.
  { split; [exact Hs|constructor]. }
  destruct Hs as (H1 & H2 & H3).
  apply Forall_cons in Hsmall as [Hb Hrest]. unfold small, Worker.BATCH_SIZE in Hb.
  unfold Pool.next_batch.
  rewrite Pool_spawn_spec; [|done|cbn; unfold Worker.MAX_CONCURRENT_REQUESTS; lia].
  cbn [Pool.semaphores Pool.tasks Pool.later Semaphore.new Semaphore.current
       Semaphore.maxConcurrent].
  set (b := length (Pool.semaphores p)).
  set (new := (λ file, Pool.mkTask file b Pool.Running) <$> batch).
  assert (∀ x, x ∈ Pool.tasks p → Pool.in_batch b x = false) as Hold.
  { intros x [i Hi]%list_elem_of_lookup. destruct (H1 i x Hi) as [Hlt _].
    unfold Pool.in_batch. apply Nat.eqb_neq. fold b in Hlt. lia. }
  assert (∀ b' x, x ∈ new → Pool.in_batch b' x = (b =? b')%nat) as Hnew.
  { intros b' x (file & -> & _)%list_elem_of_fmap. done. }
  assert (length new = length batch) as Hlen by (unfold new; by rewrite length_fmap).
  split; [|done]. split; [|split].
  - intros i x [Hi|[_ Hi]]%lookup_app_Some.
    + destruct (H1 i x Hi). rewrite length_app. cbn. split; [lia|done].
    + apply list_elem_of_lookup_2 in Hi. apply list_elem_of_fmap in Hi as (file & -> & _).
      rewrite length_app. cbn. fold b. split; [lia|done].
  - intros b' sem [Hb'|[Hge Hb']]%lookup_app_Some.
    + destruct (H2 b' sem Hb') as (Hm & Hq & Hc). split; [done|]. split; [done|].
      rewrite Hc, Pool_count_app. f_equal.
      rewrite (Pool_count_const _ false new); [lia|].
      intros x Hx. rewrite (Hnew b' x Hx).
      apply lookup_lt_Some in Hb'. fold b in Hb'.
      destruct (Nat.eqb_spec b b'); [lia|done].
    + fold b in Hge, Hb'. destruct (b' - b)%nat as [|k] eqn:Hk; [|by destruct k].
      injection Hb' as <-. cbn. assert (b' = b) as -> by lia.
      split; [done|]. split; [done|].
      rewrite Pool_count_app.
      rewrite (Pool_count_const _ false (Pool.tasks p)); cycle 1.
      { intros x Hx. by rewrite (Hold x Hx). }
      rewrite (Pool_count_const _ true new); cycle 1.
      { intros x Hx. rewrite (Hnew b x Hx), Nat.eqb_refl.
        apply list_elem_of_fmap in Hx as (file & -> & _). done. }
      rewrite Hlen. lia.
  - intros b'. rewrite Pool_count_app.
    destruct (Nat.eqb_spec b b') as [<-|Hne].
    + rewrite (Pool_count_const _ false (Pool.tasks p)) by done.
      pose proof (Pool_count_length (Pool.in_batch b) new). unfold Worker.BATCH_SIZE. lia.
    + rewrite (Pool_count_const _ false new); cycle 1.
      { intros x Hx. rewrite (Hnew b' x Hx). by apply Nat.eqb_neq. }
      specialize (H3 b'). lia.
Qed.

(** The end of a running task: nobody is resumed, and what holds is kept. *)
Lemma Pool_ends_core i (ok : bool) p x sem :
  slots_match (Pool.semaphores p) (Pool.tasks p) →
  Pool.tasks p !! i = Some x → Pool.phase_of x = Pool.Running →
  Pool.semaphores p !! Pool.batch_of x = Some sem →
  (Semaphore.release sem).1 = None ∧
  slots_match (<[Pool.batch_of x := (Semaphore.release sem).2]> (Pool.semaphores p))
    (alter (Pool.set_phase (if ok then Pool.Fulfilled else Pool.Rejected)) i (Pool.tasks p)).
Proof.
  intros (H1 & H2 & H3) Hi Hx Hsem.
  destruct (H2 _ _ Hsem) as (Hm & Hq & Hc).
  unfold Semaphore.release. rewrite Hq. cbn [fst snd]. split; [done|].
  set (f := Pool.set_phase (if ok then Pool.Fulfilled else Pool.Rejected)).
  assert (Pool.batch_of (f x) = Pool.batch_of x) as Hfb by done.
  assert (Pool.is_running (f x) = false) as Hfr by (unfold f; by destruct ok).
  assert (Pool.is_running x = true) as Hr by (unfold Pool.is_running; by rewrite Hx).
  split; [|split].
  - intros k y Hk. rewrite length_insert.
    destruct (decide (i = k)) as [<-|Hne].
    + rewrite list_lookup_alter_eq, Hi in Hk. injection Hk as <-.
      split; [by apply (H1 i x)|]. unfold f. by destruct ok.
    + rewrite list_lookup_alter_ne in Hk by done. by apply (H1 k y).
  - intros b sem0 Hb.
    pose proof (Pool_count_alter (λ y, Pool.in_batch b y && Pool.is_running y) f i
                  (Pool.tasks p) x Hi) as Hcount.
    cbv beta in Hcount. rewrite Hfr, Hr, andb_false_r, andb_true_r in Hcount.
    destruct (decide (Pool.batch_of x = b)) as [<-|Hne].
    + rewrite list_lookup_insert_eq in Hb by (by eapply lookup_lt_Some).
      injection Hb as <-. cbn. split; [done|]. split; [done|].
      unfold Pool.in_batch in Hcount at 2. rewrite Nat.eqb_refl in Hcount.
      rewrite Hc. lia.
    + rewrite list_lookup_insert_ne in Hb by done.
      destruct (H2 b sem0 Hb) as (Hm0 & Hq0 & Hc0). split; [done|]. split; [done|].
      unfold Pool.in_batch in Hcount at 2.
      apply Nat.eqb_neq in Hne. rewrite Hne in Hcount. rewrite Hc0. lia.
  - intros b.
    pose proof (Pool_count_alter (Pool.in_batch b) f i (Pool.tasks p) x Hi) as Hcount.
    assert (Pool.in_batch b (f x) = Pool.in_batch b x) as Heq by done.
    rewrite Heq in Hcount. specialize (H3 b). destruct (Pool.in_batch b x); lia.
Qed.

Lemma Pool_ends_slots i (ok : bool) p :
  slots_match (Pool.semaphores p) (Pool.tasks p) → Forall small (Pool.later p) →
  let p' := Pool.ends i ok p in
  slots_match (Pool.semaphores p') (Pool.tasks p') ∧ Forall small (Pool.later p').
Proof.
  intros Hs Hl. unfold Pool.ends.
  destruct (Pool.tasks p !! i) as [x|] eqn:Hi; [|done].
  destruct (Pool.phase_of x) eqn:Hx; try done.
  destruct (Pool.semaphores p !! Pool.batch_of x) as [sem|] eqn:Hsem; [|done].
  destruct (Pool_ends_core i ok p x sem Hs Hi Hx Hsem) as [Hnone Hs'].
  destruct (Semaphore.release sem) as [resumed sem']. cbn [fst snd] in *. subst resumed.
  cbn zeta.
  destruct (Pool.isProcessing p && (S (Pool.batch_of x) =? length (Pool.semaphores p))%nat);
    [destruct ok; [destruct (forallb _ _)|]|]; try (split; [exact Hs'|done]).
  by apply (Pool_next_batch_slots (Pool.later p) (Pool.mk true _ _ [])).
Qed.

Lemma Pool_step_slots e p :
  slots_match (Pool.semaphores p) (Pool.tasks p) → Forall small (Pool.later p) →
  let p' := Pool.step e p in
  slots_match (Pool.semaphores p') (Pool.tasks p') ∧ Forall small (Pool.later p').
Proof.
  intros Hs Hl. destruct e as [newFiles|i ok]; [|by apply Pool_ends_slots].
  cbn [Pool.step]. unfold Pool.fires.
  destruct (Pool.isProcessing p); [done|].
  destruct (length newFiles =? 0)%nat; [done|].
  apply Pool_next_batch_slots; [done|].
  apply Forall_forall. intros batch Hin. by eapply batches_of_bounded.
Qed.

Lemma Pool_run_slots events p :
  slots_match (Pool.semaphores p) (Pool.tasks p) → Forall small (Pool.later p) →
  let p' := Pool.run events p in
  slots_match (Pool.semaphores p') (Pool.tasks p') ∧ Forall small (Pool.later p').
Proof.
  revert p. induction events as [|e events IH]; intros p Hs Hl; [done|].
  destruct (Pool_step_slots e p Hs Hl) as [Hs' Hl']. by apply IH.
Qed.

(** When no task runs, the tasks of the batch that starts are all that
    run. *)
Lemma Pool_next_batch_one batches p :
  slots_match (Pool.semaphores p) (Pool.tasks p) →
  Forall small batches →
  (∀ i x, Pool.tasks p !! i = Some x → Pool.is_running x = false) →
  one_batch (Pool.next_batch batches p).
Proof.
  intros (H1 & H2 & H3) Hsmall Hidle. destruct batches as [|batch rest].
  { intros i x Hi Hr. cbn in Hi. by rewrite (Hidle i x Hi) in Hr. }
  apply Forall_cons in Hsmall as [Hb Hrest]. unfold small, Worker.BATCH_SIZE in Hb.
  unfold Pool.next_batch.
  rewrite Pool_spawn_spec; [|done|cbn; unfold Worker.MAX_CONCURRENT_REQUESTS; lia].
  intros i x Hi Hr. cbn [Pool.tasks Pool.semaphores Pool.isProcessing] in *.
  apply lookup_app_Some in Hi as [Hi|[_ Hi]].
  - by rewrite (Hidle i x Hi) in Hr.
  - apply list_elem_of_lookup_2, list_elem_of_fmap in Hi as (file & -> & _).
    split; [done|]. rewrite length_app. cbn. lia.
Qed.

Lemma Pool_ends_one i p :
  slots_match (Pool.semaphores p) (Pool.tasks p) → Forall small (Pool.later p) →
  one_batch p → one_batch (Pool.ends i true p).
Proof.
  intros Hs Hl Hone. unfold Pool.ends.
  destruct (Pool.tasks p !! i) as [x|] eqn:Hi; [|done].
  destruct (Pool.phase_of x) eqn:Hx; try done.
  destruct (Pool.semaphores p !! Pool.batch_of x) as [sem|] eqn:Hsem; [|done].
  destruct (Pool_ends_core i true p x sem Hs Hi Hx Hsem) as [Hnone Hs'].
  destruct (Semaphore.release sem) as [resumed sem']. cbn [fst snd] in *. subst resumed.
  cbn zeta.
  destruct (Hone i x Hi) as [Hflag Hlast]; [unfold Pool.is_running; by rewrite Hx|].
  rewrite Hflag, Hlast, Nat.eqb_refl. cbn [andb].
  set (ts := alter (Pool.set_phase Pool.Fulfilled) i (Pool.tasks p)) in *.
  assert (∀ k y, ts !! k = Some y → Pool.is_running y = true →
                 Pool.tasks p !! k = Some y ∧ k ≠ i) as Hold.
  { intros k y Hk Hr. destruct (decide (i = k)) as [<-|Hne].
    - unfold ts in Hk. rewrite list_lookup_alter_eq, Hi in Hk. by injection Hk as <-.
    - unfold ts in Hk. by rewrite list_lookup_alter_ne in Hk. }
  destruct (forallb _ ts) eqn:Hall.
  - apply (Pool_next_batch_one (Pool.later p) (Pool.mk true _ ts [])); [done|done|].
    cbn [Pool.tasks]. intros k y Hk.
    destruct (Pool.is_running y) eqn:Hr; [|done].
    destruct (Hold k y Hk Hr) as [Hk' _].
    destruct (Hone k y Hk' Hr) as [_ Hlast'].
    rewrite forallb_forall in Hall.
    assert (In y ts) as Hin by (by apply list_elem_of_In, (list_elem_of_lookup_2 _ k)).
    specialize (Hall y Hin). unfold Pool.in_batch in Hall.
    assert (Pool.batch_of y = Pool.batch_of x) as Hby by lia.
    rewrite Hby, Nat.eqb_refl in Hall. cbn in Hall.
    unfold Pool.is_running in Hr. unfold Pool.is_fulfilled in Hall.
    by destruct (Pool.phase_of y).
  - intros k y Hk Hr. cbn [Pool.tasks Pool.semaphores Pool.isProcessing] in *.
    destruct (Hold k y Hk Hr) as [Hk' _].
    destruct (Hone k y Hk' Hr) as [_ Hlast']. rewrite length_insert. done.
Qed.

Lemma Pool_fires_one newFiles p :
  slots_match (Pool.semaphores p) (Pool.tasks p) →
  one_batch p → one_batch (Pool.fires newFiles p).
Proof.
  intros Hs Hone. unfold Pool.fires.
  destruct (Pool.isProcessing p) eqn:Hflag; [done|].
  destruct (length newFiles =? 0)%nat; [done|].
  apply Pool_next_batch_one; [done| |].
  - apply Forall_forall. intros batch Hin. by eapply batches_of_bounded.
  - intros i x Hi. destruct (Pool.is_running x) eqn:Hr; [|done].
    destruct (Hone i x Hi Hr) as [Hflag' _]. congruence.
Qed.

Lemma Pool_run_one events p :
  slots_match (Pool.semaphores p) (Pool.tasks p) → Forall small (Pool.later p) →
  one_batch p → peaceful events → one_batch (Pool.run events p).
Proof.
  revert p. induction events as [|e events IH]; intros p Hs Hl Hone Hpeace; [done|].
  destruct (Pool_step_slots e p Hs Hl) as [Hs' Hl'].
  apply IH; [done|done| |].
  - destruct e as [newFiles|i [|]].
    + by apply Pool_fires_one.
    + by apply Pool_ends_one.
    + exfalso. apply (Hpeace i). by left.
  - intros i Hin. apply (Hpeace i). by right.
Qed.

(** X22. The slots of the worker's semaphores over every run of timer
    firings and task ends.  At every moment the semaphore of each batch has
    its capacity of [MAX_CONCURRENT_REQUESTS], an empty queue, and as many
    slots out as tasks of its batch are running, which is never more than
    [BATCH_SIZE]: no task ever waits for a slot.  As long as no task is
    rejected, the running tasks are all of one batch, so that at most
    [BATCH_SIZE] tasks, fewer than the limit, hold a slot at a time. *)
Theorem X22_slots_across_batches events :
  let p := Pool.run events Pool.start in
  (∀ b sem, Pool.semaphores p !! b = Some sem →
     Semaphore.maxConcurrent sem = Worker.MAX_CONCURRENT_REQUESTS ∧
     Semaphore.queue sem = [] ∧
     Semaphore.current sem
     = Z.of_nat (Pool.count (λ x, Pool.in_batch b x && Pool.is_running x) (Pool.tasks p)) ∧
     0 ≤ Semaphore.current sem ≤ Z.of_nat Worker.BATCH_SIZE) ∧
  (peaceful events → (Pool.running p ≤ Worker.BATCH_SIZE)%nat).
Proof.
  intros p.
  destruct (Pool_run_slots events Pool.start Pool_slots_match_start) as [(H1 & H2 & H3) Hl];
    [constructor|]. fold p in H1, H2, H3, Hl.
  split.
  - intros b sem Hb. destruct (H2 b sem Hb) as (Hm & Hq & Hc).
    split; [done|]. split; [done|]. split; [done|]. rewrite Hc. split; [lia|].
    apply inj_le. etrans; [|apply (H3 b)].
    apply Pool_count_le. intros x _ Hx. by apply andb_true_iff in Hx as [? _].
  - intros Hpeace.
    assert (one_batch p) as Hone.
    { apply Pool_run_one; [apply Pool_slots_match_start|constructor| |done]. by intros i x Hi. }
    unfold Pool.running.
    etrans; [|apply (H3 (pred (length (Pool.semaphores p))))].
    apply Pool_count_le. intros x [i Hi]%list_elem_of_lookup Hr.
    destruct (Hone i x Hi Hr) as [_ Hlast]. unfold Pool.in_batch.
    apply Nat.eqb_eq. lia.
Qed.
